(** * Desktop streaming pipeline: server capture/publish loop, control
      channel liveness, client session facade and render buffer.

    Shallow embedding of
      - apps/ai_panel/windows_server/main.py
          (ConnectionChecker, CaptureWorker)
      - apps/ai_panel/ai_panel/services/zmq_stream_service.py
          (ZMQStreamService)
      - apps/ai_panel/ai_panel/ui/panels/desktop_stream_panel.py
          (DesktopStreamPanel)

    Conventions.  A Python [dict] is a [gmap]; Python [str] and [bytes]
    are Rocq [string]s (a [str] is held in its UTF-8 form, so [.encode()]
    and [.decode()] are the identity on valid text); [time.time()] values
    are rationals, read in seconds; emitted Qt signals are appended to an
    explicit event log; what the operating system, the network or a
    library decides (a read result, whether a file can be opened, the
    picture an encoder returns) is an explicit input of the function that
    consumes it. *)

From Stdlib Require Import ZArith QArith Lia.
From stdpp Require Import base decidable option list strings gmap fin_maps.

Local Open Scope string_scope.
Local Open Scope nat_scope.
Local Open Scope list_scope.

(* ===================================================================== *)
(** * Server: windows_server/main.py                                     *)
(* ===================================================================== *)

Module CaptureWorker.

(** ** Frame change detection ([_worker_loop], "帧变化检测") *)

(** The two attributes of [CaptureWorker] that the detector reads and
    writes.  [last_frame_hash] starts as [None]; [hash(...)] is a Python
    integer. *)
Record detector : Type := Detector {
  last_frame_hash : option Z;
  frame_skip_count : nat
}.

Definition initial_detector : detector :=
  {| last_frame_hash := None; frame_skip_count := 0 |}.

(** "每10帧强制发送一次" *)
Definition forced_refresh_threshold : nat := 10.

(** The body guarded by [if should_send:], up to the decision
    [should_send_frame]:
<<
    should_send_frame = True
    if frame_hash == self.last_frame_hash:
        self.frame_skip_count += 1
        should_send_frame = False
    else:
        self.last_frame_hash = frame_hash
        self.frame_skip_count = 0
    if self.frame_skip_count >= 10:
        should_send_frame = True
        self.frame_skip_count = 0
>> *)
Definition detect_change (frame_hash : Z) (d : detector) : bool * detector :=
  let '(should_send_frame, d1) :=
    if decide (Some frame_hash = last_frame_hash d)
    then (false, {| last_frame_hash := last_frame_hash d;
                    frame_skip_count := S (frame_skip_count d) |})
    else (true, {| last_frame_hash := Some frame_hash;
                   frame_skip_count := 0 |}) in
  if (forced_refresh_threshold <=? frame_skip_count d1)%nat
  then (true, {| last_frame_hash := last_frame_hash d1;
                 frame_skip_count := 0 |})
  else (should_send_frame, d1).

(** One cycle of the loop as far as the detector is concerned: nothing is
    read or written unless [should_send] holds, that is unless
    [get_connected_count() > 0]. *)
Definition detect_cycle (should_send : bool) (frame_hash : Z) (d : detector)
  : bool * detector :=
  if should_send then detect_change frame_hash d else (false, d).

(** Successive cycles with publishing active; the decisions are listed in
    cycle order. *)
Fixpoint detect_run (hashes : list Z) (d : detector) : list bool * detector :=
  match hashes with
  | [] => ([], d)
  | h :: rest =>
      let '(b, d1) := detect_cycle true h d in
      let '(bs, d2) := detect_run rest d1 in
      (b :: bs, d2)
  end.

Definition publishes (decisions : list bool) : nat :=
  length (filter (λ b, b = true) decisions).

(** ** Encoding and framing ([_worker_loop], [if should_send_frame:]) *)

(** The keys of [DEFAULT_CONFIG]; [config.json] may override any of them
    ([ConfigManager.load] copies the file's values without checking them). *)
Record config : Type := Config {
  monitor_idx : Z;
  target_resolution : Z * Z;
  jpeg_quality : Z;
  zmq_port : Z;
  tcp_port : Z;
  target_fps : Z;
  encoding_format : string;
  png_compression : Z;
  webp_quality : Z
}.

Definition DEFAULT_CONFIG : config :=
  {| monitor_idx := 4; target_resolution := (160, 128)%Z; jpeg_quality := 10;
     zmq_port := 5555; tcp_port := 5655; target_fps := 30;
     encoding_format := "jpg"; png_compression := 6; webp_quality := 10 |}.

(** The three parameter ids passed to [cv2.imencode]. *)
Inductive imwrite_flag : Type :=
  | IMWRITE_JPEG_QUALITY
  | IMWRITE_PNG_COMPRESSION
  | IMWRITE_WEBP_QUALITY.

(** A message handed to [video_sock.send_multipart]: the list of its parts. *)
Abbreviation multipart := (list string).

Section Encode.

(** OpenCV is outside the repository: the picture type, [cv2.resize] with
    [INTER_AREA], [cv2.imencode] (extension, picture, parameters; returns
    [(success, encoded_data)]) and [hash(img.tobytes())]. *)
Variable image : Type.
Variable resize : image → Z * Z → image.
Variable imencode : string → image → list (imwrite_flag * Z) → bool * string.
Variable tobytes_hash : image → Z.

(** The codec selection, with its [else] branch. *)
Definition encode (cfg : config) (small_bgr : image) : bool * string :=
  let encoding_format := encoding_format cfg in
  if String.eqb encoding_format "jpg" then
    let quality := (jpeg_quality cfg * 10)%Z in
    imencode ".jpg" small_bgr [(IMWRITE_JPEG_QUALITY, quality)]
  else if String.eqb encoding_format "png" then
    let compression := png_compression cfg in
    imencode ".png" small_bgr [(IMWRITE_PNG_COMPRESSION, compression)]
  else if String.eqb encoding_format "webp" then
    let quality := (webp_quality cfg * 10)%Z in
    imencode ".webp" small_bgr [(IMWRITE_WEBP_QUALITY, quality)]
  else
    let quality := (jpeg_quality cfg * 10)%Z in
    imencode ".jpg" small_bgr [(IMWRITE_JPEG_QUALITY, quality)].

(** [if should_send_frame:] up to the [send_multipart] call.  [None]: the
    encoder reported failure and nothing is sent this cycle. *)
Definition encode_frame (cfg : config) (img_bgr : image) : option multipart :=
  let small_bgr := resize img_bgr (target_resolution cfg) in
  let '(success, encoded_data) := encode cfg small_bgr in
  if success then
    let format_prefix := encoding_format cfg in
    Some [format_prefix; encoded_data]
  else None.

(** The network half of one cycle ([if should_send:]): what is handed to
    the socket, and the detector afterwards.  The bandwidth and frame-rate
    counters that follow the send touch neither. *)
Definition publish_cycle (cfg : config) (should_send : bool) (img_bgr : image)
    (d : detector) : option multipart * detector :=
  if should_send then
    let '(should_send_frame, d1) := detect_change (tobytes_hash img_bgr) d in
    if should_send_frame then (encode_frame cfg img_bgr, d1) else (None, d1)
  else (None, d).

End Encode.

(** The format tags the protocol names. *)
Definition supported_tag (tag : string) : Prop :=
  tag = "jpg" ∨ tag = "png" ∨ tag = "webp".

(** ** Key material ([_load_or_generate_curve_keys]) *)

(** A file as [open] sees it. *)
Record file : Type := File {
  content : string;
  readable : bool;
  writable : bool
}.

(** The working directory: its files, and whether a new file can be
    created in it. *)
Record filesystem : Type := Filesystem {
  files : gmap string file;
  can_create : bool
}.

Definition path_exists (fs : filesystem) (path : string) : bool :=
  bool_decide (is_Some (files fs !! path)).

(** [open(path, 'rb').read()]; [None] when it raises. *)
Definition read_file (fs : filesystem) (path : string) : option string :=
  match files fs !! path with
  | Some f => if readable f then Some (content f) else None
  | None => None
  end.

(** [open(path, 'wb').write(data)]; [None] when it raises. *)
Definition write_file (fs : filesystem) (path data : string) : option filesystem :=
  match files fs !! path with
  | Some f =>
      if writable f
      then Some {| files := <[path := {| content := data; readable := readable f;
                                         writable := true |}]> (files fs);
                   can_create := can_create fs |}
      else None
  | None =>
      if can_create fs
      then Some {| files := <[path := {| content := data; readable := true;
                                         writable := true |}]> (files fs);
                   can_create := true |}
      else None
  end.

(** The records written to the logger, by level and text (the rendered
    exception is left out of the text). *)
Inductive log_record : Type :=
  | LogInfo (msg : string)
  | LogError (msg : string).

Definition zmq_secret_key_file : string := "server_secret.key".
Definition zmq_public_key_file : string := "server_public.key".

Record keys_outcome : Type := KeysOutcome {
  zmq_public_key : string;
  zmq_secret_key : string;
  disk : filesystem;
  logged : list log_record
}.

Section Keys.

(** libzmq is outside the repository: [zmq.curve_public] ([None] when it
    raises, as it does on a key of the wrong length) and the pair
    [(public_key, secret_key)] that [zmq.curve_keypair()] returns when it
    is called. *)
Variable curve_public : string → option string.
Variable curve_keypair : string * string.

(** The tail of the function, from "Generating new ZMQ Curve key pair." *)
Definition generate_curve_keys (fs : filesystem) (log : list log_record)
  : keys_outcome :=
  let log := log ++ [LogInfo "Generating new ZMQ Curve key pair."] in
  let '(public_key, secret_key) := curve_keypair in
  let '(fs, log) :=
    match write_file fs zmq_secret_key_file secret_key with
    | Some fs' => (fs', log ++ [LogInfo "ZMQ secret key saved."])
    | None => (fs, log ++ [LogError "Failed to save ZMQ secret key"])
    end in
  let '(fs, log) :=
    match write_file fs zmq_public_key_file public_key with
    | Some fs' => (fs', log ++ [LogInfo "ZMQ public key saved to server_public.key."])
    | None => (fs, log ++ [LogError "Failed to save ZMQ public key"])
    end in
  {| zmq_public_key := public_key; zmq_secret_key := secret_key;
     disk := fs; logged := log |}.

Definition load_or_generate_curve_keys (fs : filesystem) : keys_outcome :=
  if path_exists fs zmq_secret_key_file then
    let log := [LogInfo "Loading existing ZMQ secret key from file."] in
    match read_file fs zmq_secret_key_file with
    | Some secret_key =>
        match curve_public secret_key with
        | Some public_key =>
            {| zmq_public_key := public_key; zmq_secret_key := secret_key;
               disk := fs; logged := log |}
        | None =>
            generate_curve_keys fs
              (log ++ [LogError "Failed to load ZMQ secret key. Generating new pair."])
        end
    | None =>
        generate_curve_keys fs
          (log ++ [LogError "Failed to load ZMQ secret key. Generating new pair."])
    end
  else generate_curve_keys fs [].

End Keys.

(** The parameter each codec is given: the configured quality times ten
    for JPEG and WebP, the configured compression level for PNG. *)
Definition codec_parameter (cfg : config) : list (imwrite_flag * Z) :=
  if String.eqb (encoding_format cfg) "png"
  then [(IMWRITE_PNG_COMPRESSION, png_compression cfg)]
  else if String.eqb (encoding_format cfg) "webp"
  then [(IMWRITE_WEBP_QUALITY, (webp_quality cfg * 10)%Z)]
  else [(IMWRITE_JPEG_QUALITY, (jpeg_quality cfg * 10)%Z)].

End CaptureWorker.

Module ConnectionChecker.

(** The address [accept()] returns, [(host, port)], and the connected
    socket, named by its descriptor. *)
Abbreviation addr := (string * Z)%type.
Abbreviation conn := nat.

(** [self.running], [self.clients] (address to time of the last
    heartbeat) and [self.client_sockets]. *)
Record checker : Type := Checker {
  running : bool;
  clients : gmap addr Q;
  client_sockets : gmap addr conn
}.

Definition initial_checker : checker :=
  {| running := false; clients := ∅; client_sockets := ∅ |}.

Definition start_checking (s : checker) : checker :=
  {| running := true; clients := clients s; client_sockets := client_sockets s |}.

Definition stop_checking (s : checker) : checker :=
  {| running := false; clients := clients s; client_sockets := client_sockets s |}.

(** [8.0] in [get_connected_count] and [5.0] in [conn.settimeout]. *)
Definition liveness_threshold : Q := 8.
Definition read_timeout : Q := 5.

(** [current_time - last_time > 8.0] *)
Definition expired (current_time last_time : Q) : bool :=
  negb (Qle_bool (current_time - last_time) liveness_threshold).

(** [del self.clients[addr]] followed by the guarded
    [del self.client_sockets[addr]]. *)
Definition remove_client (a : addr) (s : checker) : checker :=
  {| running := running s;
     clients := delete a (clients s);
     client_sockets := delete a (client_sockets s) |}.

(** The comprehension over [self.clients.items()].  The order in which a
    dict lists its items does not matter to the loop that follows. *)
Definition expired_addrs (current_time : Q) (s : checker) : list addr :=
  (filter (λ kv, Is_true (expired current_time kv.2)) (map_to_list (clients s))).*1.

(** [get_connected_count], at the time [time.time()] returns: the value
    returned and the checker afterwards. *)
Definition get_connected_count (current_time : Q) (s : checker) : nat * checker :=
  let s' := foldl (λ s addr, remove_client addr s) s (expired_addrs current_time s) in
  (size (clients s'), s').

(** The records that are not older than the threshold at [current_time]. *)
Definition unexpired_records (current_time : Q) (m : gmap addr Q) : gmap addr Q :=
  filter (λ kv, ¬ Is_true (expired current_time kv.2)) m.

(** The two maps have the same keys; every key of [client_sockets] is a
    key of [clients]. *)
Definition same_keys (s : checker) : Prop :=
  dom (client_sockets s) = dom (clients s).
Definition sockets_within_records (s : checker) : Prop :=
  dom (client_sockets s) ⊆ dom (clients s).

(** The critical section of the accept path. *)
Definition accept_client (a : addr) (c : conn) (now : Q) (s : checker) : checker :=
  {| running := running s;
     clients := <[a := now]> (clients s);
     client_sockets := <[a := c]> (client_sockets s) |}.

(** What [conn.recv(1024)] does under [settimeout(5.0)]. *)
Inductive recv_result : Type :=
  | RecvData (data : string)
  | RecvTimeout
  | RecvError.

(** [while self.running and addr in self.clients] *)
Definition heartbeat_loop_test (a : addr) (s : checker) : bool :=
  running s && bool_decide (is_Some (clients s !! a)).

(** One pass through the body of the loop of [_heartbeat_check]: the
    checker afterwards, and whether the loop goes round again ([false] for
    either [break]). *)
Definition heartbeat_body (a : addr) (r : recv_result) (now : Q) (s : checker)
  : checker * bool :=
  match r with
  | RecvData data =>
      if String.eqb data "hb"
      then ({| running := running s;
               clients := <[a := now]> (clients s);
               client_sockets := client_sockets s |}, true)
      else (s, false)
  | RecvTimeout | RecvError =>
      (if bool_decide (is_Some (clients s !! a)) then remove_client a s else s, false)
  end.

(** The checker together with the sockets that have been closed. *)
Record world : Type := World {
  chk : checker;
  closed : gset conn
}.

(** [_heartbeat_check(addr, conn)] run on its own, fed the successive
    results of [recv] with the time of each.  [None]: the results ran out
    while the loop was still reading. *)
Fixpoint heartbeat_check (a : addr) (c : conn) (reads : list (recv_result * Q))
    (w : world) : option world :=
  if heartbeat_loop_test a (chk w) then
    match reads with
    | [] => None
    | (r, now) :: rest =>
        let '(s, again) := heartbeat_body a r now (chk w) in
        if again
        then heartbeat_check a c rest {| chk := s; closed := closed w |}
        else Some {| chk := s; closed := closed w ∪ {[c]} |}
    end
  else Some {| chk := chk w; closed := closed w ∪ {[c]} |}.

(** ** The threads of the checker, interleaved

    The accept loop, one [_heartbeat_check] thread per accepted
    connection and the callers of [get_connected_count] run concurrently;
    [self.lock] makes each [with self.lock:] block atomic and nothing
    else.  A thread is at one of the program points below; the loop test
    and the [recv] of [_heartbeat_check] are outside the lock. *)
Inductive reader_pc : Type :=
  | AtLoopTest
  | InRecv (since : Q)
  | AtClose
  | Finished.

Record system : Type := System {
  checker_of : checker;
  closed_socks : gset conn;
  clock : Q;
  (** the accept loop is inside the handshake [recv] of this connection *)
  handshaking : option (addr * conn);
  readers : gmap conn (addr * reader_pc)
}.

Inductive event : Type :=
  (** [accept()] returns and the critical section runs *)
  | Accept (a : addr) (c : conn) (now : Q)
  (** the handshake [recv] returns or raises; the reader thread starts *)
  | Handshake (now : Q)
  (** a reader evaluates its loop test and, if it holds, enters [recv] *)
  | LoopTest (c : conn) (now : Q)
  (** a reader's [recv] ends and the rest of the loop body runs *)
  | Recv (c : conn) (r : recv_result) (now : Q)
  (** a reader closes its socket and ends *)
  | Close (c : conn)
  (** some thread calls [get_connected_count] *)
  | Count (now : Q)
  (** [stop_checking] *)
  | Stop.

Definition set_checker (s : checker) (σ : system) : system :=
  {| checker_of := s; closed_socks := closed_socks σ; clock := clock σ;
     handshaking := handshaking σ; readers := readers σ |}.

Definition set_reader (c : conn) (a : addr) (pc : reader_pc) (now : Q)
    (σ : system) : system :=
  {| checker_of := checker_of σ; closed_socks := closed_socks σ; clock := now;
     handshaking := handshaking σ; readers := <[c := (a, pc)]> (readers σ) |}.

(** [recv] under a 5 s timeout returns data within the timeout and times
    out no earlier than it; another error can come at any time. *)
Definition recv_in_time (r : recv_result) (since now : Q) : bool :=
  match r with
  | RecvData _ => Qle_bool (now - since) read_timeout
  | RecvTimeout => Qle_bool read_timeout (now - since)
  | RecvError => true
  end.

(** One atomic step; [None] when the event cannot happen in [σ].  Time
    never runs backwards. *)
Definition step (e : event) (σ : system) : option system :=
  match e with
  | Accept a c now =>
      match handshaking σ, readers σ !! c with
      | None, None =>
          if Qle_bool (clock σ) now
          then Some {| checker_of := accept_client a c now (checker_of σ);
                       closed_socks := closed_socks σ; clock := now;
                       handshaking := Some (a, c); readers := readers σ |}
          else None
      | _, _ => None
      end
  | Handshake now =>
      match handshaking σ with
      | Some (a, c) =>
          if Qle_bool (clock σ) now
          then Some {| checker_of := checker_of σ;
                       closed_socks := closed_socks σ; clock := now;
                       handshaking := None;
                       readers := <[c := (a, AtLoopTest)]> (readers σ) |}
          else None
      | None => None
      end
  | LoopTest c now =>
      match readers σ !! c with
      | Some (a, AtLoopTest) =>
          if Qle_bool (clock σ) now
          then Some (set_reader c a
                       (if heartbeat_loop_test a (checker_of σ)
                        then InRecv now else AtClose) now σ)
          else None
      | _ => None
      end
  | Recv c r now =>
      match readers σ !! c with
      | Some (a, InRecv since) =>
          if Qle_bool (clock σ) now && recv_in_time r since now
          then let '(s, again) := heartbeat_body a r now (checker_of σ) in
               Some (set_reader c a (if again then AtLoopTest else AtClose) now
                       (set_checker s σ))
          else None
      | _ => None
      end
  | Close c =>
      match readers σ !! c with
      | Some (a, AtClose) =>
          Some {| checker_of := checker_of σ;
                  closed_socks := closed_socks σ ∪ {[c]}; clock := clock σ;
                  handshaking := handshaking σ;
                  readers := <[c := (a, Finished)]> (readers σ) |}
      | _ => None
      end
  | Count now =>
      if Qle_bool (clock σ) now
      then Some {| checker_of := (get_connected_count now (checker_of σ)).2;
                   closed_socks := closed_socks σ; clock := now;
                   handshaking := handshaking σ; readers := readers σ |}
      else None
  | Stop => Some (set_checker (stop_checking (checker_of σ)) σ)
  end.

Fixpoint run (events : list event) (σ : system) : option system :=
  match events with
  | [] => Some σ
  | e :: rest =>
      match step e σ with
      | Some σ' => run rest σ'
      | None => None
      end
  end.

(** The checker just after [start_checking], at time 0. *)
Definition initial_system : system :=
  {| checker_of := start_checking initial_checker; closed_socks := ∅;
     clock := 0; handshaking := None; readers := ∅ |}.

End ConnectionChecker.

(* ===================================================================== *)
(** * Client: services/zmq_stream_service.py                             *)
(* ===================================================================== *)

Module ZMQStreamService.

(** Objects the service creates (contexts, sockets, pollers, threads,
    timers) are named by the order of their creation. *)
Abbreviation handle := nat.

Section Service.

(** The decoded picture, [QPixmap]; Qt and PIL are outside the
    repository. *)
Variable pixmap : Type.

(** The two signals of the class. *)
Inductive signal : Type :=
  | frame_decoded (p : pixmap)
  | connection_status_changed (connected : bool) (message : string).

(** The attributes of [ZMQStreamService] that [connect], [disconnect] and
    the helpers they call read or write. *)
Record service : Type := Service {
  tcp_socket : option handle;
  zmq_ctx : option handle;
  zmq_sock : option handle;
  zmq_poller : option handle;
  _running : bool;
  _tcp_connected : bool;
  _zmq_initialized : bool;
  tcp_thread : option handle;
  zmq_decode_thread : option handle;
  stats_timer : option handle
}.

(** [__init__] *)
Definition new_service : service :=
  {| tcp_socket := None; zmq_ctx := None; zmq_sock := None; zmq_poller := None;
     _running := false; _tcp_connected := false; _zmq_initialized := false;
     tcp_thread := None; zmq_decode_thread := None; stats_timer := None |}.

(** The service with what surrounds it: the signals emitted so far, the
    threads that are alive, the timers that are running, the sockets that
    have been closed, and the number of objects created so far. *)
Record session : Type := Session {
  svc : service;
  emitted : list signal;
  alive : gset handle;
  ticking : gset handle;
  closed : gset handle;
  created : nat
}.

Definition new_session : session :=
  {| svc := new_service; emitted := []; alive := ∅; ticking := ∅;
     closed := ∅; created := 0 |}.

(** What the surroundings decide during a call. *)
Record environment : Type := Environment {
  (** the content of [DESKTOP_STREAM_PUB_KEY_PATH]; [None] when [open]
      or [read] raises *)
  server_public_key : option string;
  (** the [setsockopt], [connect] and [register] calls do not raise *)
  zmq_setup_ok : bool;
  (** [zmq_sock.close(linger=0)] and [zmq_ctx.term()] do not raise *)
  zmq_close_ok : bool;
  zmq_term_ok : bool;
  (** the thread ends within the 2.0 s its [join] waits *)
  join_ends : handle → bool
}.

Definition with_svc (s : service) (w : session) : session :=
  {| svc := s; emitted := emitted w; alive := alive w; ticking := ticking w;
     closed := closed w; created := created w |}.

Definition emit (sig : signal) (w : session) : session :=
  {| svc := svc w; emitted := emitted w ++ [sig]; alive := alive w;
     ticking := ticking w; closed := closed w; created := created w |}.

(** A new object: its name and the session that counts it. *)
Definition create (w : session) : handle * session :=
  (created w,
   {| svc := svc w; emitted := emitted w; alive := alive w;
      ticking := ticking w; closed := closed w; created := S (created w) |}).

(** [_cleanup_zmq_resources] *)
Definition _cleanup_zmq_resources (env : environment) (w : session) : session :=
  let s := svc w in
  (* if self.zmq_sock: unregister, close, self.zmq_sock = None *)
  let '(sock, closed') :=
    match zmq_sock s with
    | Some h => if zmq_close_ok env then (None, closed w ∪ {[h]})
                else (Some h, closed w)
    | None => (None, closed w)
    end in
  (* if self.zmq_ctx: term, self.zmq_ctx = None *)
  let ctx :=
    match zmq_ctx s with
    | Some h => if zmq_term_ok env then None else Some h
    | None => None
    end in
  {| svc := {| tcp_socket := tcp_socket s; zmq_ctx := ctx; zmq_sock := sock;
               zmq_poller := None;
               _running := _running s; _tcp_connected := _tcp_connected s;
               _zmq_initialized := false;
               tcp_thread := tcp_thread s;
               zmq_decode_thread := zmq_decode_thread s;
               stats_timer := stats_timer s |};
     emitted := emitted w; alive := alive w; ticking := ticking w;
     closed := closed'; created := created w |}.

(** [_initialize_zmq_resources]: whether it succeeded, and the session. *)
Definition _initialize_zmq_resources (env : environment) (w : session)
  : bool * session :=
  let '(ctx, w) := create w in
  let '(sock, w) := create w in
  let s := svc w in
  let w := with_svc
    {| tcp_socket := tcp_socket s; zmq_ctx := Some ctx; zmq_sock := Some sock;
       zmq_poller := zmq_poller s;
       _running := _running s; _tcp_connected := _tcp_connected s;
       _zmq_initialized := _zmq_initialized s;
       tcp_thread := tcp_thread s; zmq_decode_thread := zmq_decode_thread s;
       stats_timer := stats_timer s |} w in
  match server_public_key env with
  | Some _ =>
      if zmq_setup_ok env then
        let '(poller, w) := create w in
        let s := svc w in
        (true, with_svc
          {| tcp_socket := tcp_socket s; zmq_ctx := zmq_ctx s;
             zmq_sock := zmq_sock s; zmq_poller := Some poller;
             _running := _running s; _tcp_connected := _tcp_connected s;
             _zmq_initialized := true;
             tcp_thread := tcp_thread s;
             zmq_decode_thread := zmq_decode_thread s;
             stats_timer := stats_timer s |} w)
      else (false, _cleanup_zmq_resources env w)
  | None => (false, _cleanup_zmq_resources env w)
  end.

(** [thread.join(timeout=2.0)] when the thread exists and is alive. *)
Definition join (env : environment) (t : option handle) (w : session) : session :=
  match t with
  | Some h =>
      if bool_decide (h ∈ alive w) && join_ends env h
      then {| svc := svc w; emitted := emitted w; alive := alive w ∖ {[h]};
              ticking := ticking w; closed := closed w; created := created w |}
      else w
  | None => w
  end.

(** [_cleanup] *)
Definition _cleanup (env : environment) (w : session) : session :=
  let w := join env (tcp_thread (svc w)) w in
  let w := join env (zmq_decode_thread (svc w)) w in
  _cleanup_zmq_resources env w.

(** [_cleanup_and_notify] *)
Definition _cleanup_and_notify (env : environment) (status_message : string)
    (w : session) : session :=
  emit (connection_status_changed false status_message) (_cleanup env w).

(** [_force_close_sockets] *)
Definition _force_close_sockets (w : session) : session :=
  let s := svc w in
  match tcp_socket s with
  | Some h =>
      {| svc := {| tcp_socket := None; zmq_ctx := zmq_ctx s; zmq_sock := zmq_sock s;
                   zmq_poller := zmq_poller s;
                   _running := _running s; _tcp_connected := _tcp_connected s;
                   _zmq_initialized := _zmq_initialized s;
                   tcp_thread := tcp_thread s;
                   zmq_decode_thread := zmq_decode_thread s;
                   stats_timer := stats_timer s |};
         emitted := emitted w; alive := alive w; ticking := ticking w;
         closed := closed w ∪ {[h]}; created := created w |}
  | None => w
  end.

(** A thread or timer is created, recorded by [record] and started. *)
Definition start_thread (record : handle → service → service) (w : session)
  : session :=
  let '(h, w) := create w in
  {| svc := record h (svc w); emitted := emitted w; alive := alive w ∪ {[h]};
     ticking := ticking w; closed := closed w; created := created w |}.

Definition set_zmq_decode_thread (h : handle) (s : service) : service :=
  {| tcp_socket := tcp_socket s; zmq_ctx := zmq_ctx s; zmq_sock := zmq_sock s;
     zmq_poller := zmq_poller s;
     _running := _running s; _tcp_connected := _tcp_connected s;
     _zmq_initialized := _zmq_initialized s;
     tcp_thread := tcp_thread s; zmq_decode_thread := Some h;
     stats_timer := stats_timer s |}.

Definition set_tcp_thread (h : handle) (s : service) : service :=
  {| tcp_socket := tcp_socket s; zmq_ctx := zmq_ctx s; zmq_sock := zmq_sock s;
     zmq_poller := zmq_poller s;
     _running := _running s; _tcp_connected := _tcp_connected s;
     _zmq_initialized := _zmq_initialized s;
     tcp_thread := Some h; zmq_decode_thread := zmq_decode_thread s;
     stats_timer := stats_timer s |}.

Definition set_stats_timer (t : option handle) (s : service) : service :=
  {| tcp_socket := tcp_socket s; zmq_ctx := zmq_ctx s; zmq_sock := zmq_sock s;
     zmq_poller := zmq_poller s;
     _running := _running s; _tcp_connected := _tcp_connected s;
     _zmq_initialized := _zmq_initialized s;
     tcp_thread := tcp_thread s; zmq_decode_thread := zmq_decode_thread s;
     stats_timer := t |}.

Definition start_stats_timer (w : session) : session :=
  let '(h, w) := create w in
  {| svc := set_stats_timer (Some h) (svc w); emitted := emitted w;
     alive := alive w; ticking := ticking w ∪ {[h]}; closed := closed w;
     created := created w |}.

(** [connect] *)
Definition connect (env : environment) (w : session) : session :=
  if _running (svc w) then
    (* "Already running, ignoring connect request." *)
    w
  else
    let s := svc w in
    let w := with_svc
      {| tcp_socket := tcp_socket s; zmq_ctx := zmq_ctx s; zmq_sock := zmq_sock s;
         zmq_poller := zmq_poller s;
         _running := true; _tcp_connected := false; _zmq_initialized := false;
         tcp_thread := tcp_thread s; zmq_decode_thread := zmq_decode_thread s;
         stats_timer := stats_timer s |} w in
    let w := emit (connection_status_changed false "Connecting...") w in
    let '(ok, w) := _initialize_zmq_resources env w in
    if negb ok then _cleanup_and_notify env "ZMQ Init Error" w
    else
      let w := start_thread set_zmq_decode_thread w in
      let w := start_thread set_tcp_thread w in
      start_stats_timer w.

(** [disconnect] *)
Definition disconnect (env : environment) (w : session) : session :=
  (* if self.stats_timer: stop, deleteLater, None *)
  let w :=
    match stats_timer (svc w) with
    | Some h =>
        {| svc := set_stats_timer None (svc w); emitted := emitted w;
           alive := alive w; ticking := ticking w ∖ {[h]}; closed := closed w;
           created := created w |}
    | None => w
    end in
  let s := svc w in
  let was_running := _running s in
  let w := with_svc
    {| tcp_socket := tcp_socket s; zmq_ctx := zmq_ctx s; zmq_sock := zmq_sock s;
       zmq_poller := zmq_poller s;
       _running := false; _tcp_connected := _tcp_connected s;
       _zmq_initialized := _zmq_initialized s;
       tcp_thread := tcp_thread s; zmq_decode_thread := zmq_decode_thread s;
       stats_timer := stats_timer s |} w in
  let w := _force_close_sockets w in
  _cleanup_and_notify env
    (if was_running then "Disconnected" else "Already disconnected") w.

(** [_tcp_disconnect]: the statements of [_force_close_sockets] under
    [tcp_lock], then [self._tcp_connected = False]. *)
Definition _tcp_disconnect (w : session) : session :=
  let w := _force_close_sockets w in
  let s := svc w in
  with_svc
    {| tcp_socket := tcp_socket s; zmq_ctx := zmq_ctx s; zmq_sock := zmq_sock s;
       zmq_poller := zmq_poller s;
       _running := _running s; _tcp_connected := false;
       _zmq_initialized := _zmq_initialized s;
       tcp_thread := tcp_thread s; zmq_decode_thread := zmq_decode_thread s;
       stats_timer := stats_timer s |} w.

(** The two places where the control thread emits, both under
    [service_condition].  The handler of [_tcp_connect] for a failed
    attempt; [e] is the text of the exception. *)
Definition _tcp_connect_failed (e : string) (w : session) : session :=
  let w := _tcp_disconnect w in
  if _running (svc w)
  then emit (connection_status_changed false
               (String.append "TCP Conn Error: " e)) w
  else w.

(** The end of a heartbeat in [_tcp_control_loop], once [send] has
    returned; the time of the heartbeat that is stored there is not among
    the attributes followed here. *)
Definition heartbeat_sent (w : session) : session :=
  if _running (svc w) && _tcp_connected (svc w)
  then emit (connection_status_changed true "Streaming...") w
  else w.

(** The signals a call added to the log. *)
Definition emitted_since (before after : session) : list signal :=
  drop (length (emitted before)) (emitted after).

Definition is_status (sig : signal) : bool :=
  match sig with
  | connection_status_changed _ _ => true
  | frame_decoded _ => false
  end.

(** ** The receive and decode loop ([_zmq_receive_decode_loop]) *)

(** PIL's decoder followed by the scaling to the target size; [None] when
    [_decode_image_to_pixmap] catches an exception. *)
Variable _decode_image_to_pixmap : string → string → option pixmap.

Definition poll_timeout : Z := 1000.
Definition batch_size : nat := 5.

(** What one [recv_multipart(flags=zmq.NOBLOCK)] does: a message, given by
    its parts, [zmq.Again], or another exception. *)
Inductive recv_outcome : Type :=
  | Multipart (parts : list string)
  | Again
  | RecvFailure.

Record drained : Type := Drained {
  received_messages : list (string * string);
  zmq_reinit_needed : bool;
  (** what the socket still holds when the loop is left *)
  left_on_socket : list recv_outcome
}.

(** [format_bytes.decode()]: the bytes must be well-formed UTF-8, or the
    call raises [UnicodeDecodeError].  A [str] is kept as its UTF-8
    bytes, so the text decoded from well-formed bytes is these bytes. *)
Definition byte_in (lo hi : N) (b : Ascii.ascii) : bool :=
  ((lo <=? Ascii.N_of_ascii b) && (Ascii.N_of_ascii b <=? hi))%N.

Definition continuation (b : Ascii.ascii) : bool := byte_in 128 191 b.

(** The second byte after the lead byte [b1] of a sequence of three, and
    of four: no overlong form, no surrogate, nothing above U+10FFFF. *)
Definition second_of_three (b1 b2 : Ascii.ascii) : bool :=
  if byte_in 224 224 b1 then byte_in 160 191 b2
  else if byte_in 237 237 b1 then byte_in 128 159 b2
  else continuation b2.

Definition second_of_four (b1 b2 : Ascii.ascii) : bool :=
  if byte_in 240 240 b1 then byte_in 144 191 b2
  else if byte_in 244 244 b1 then byte_in 128 143 b2
  else continuation b2.

Fixpoint utf8_valid (s : string) : bool :=
  match s with
  | EmptyString => true
  | String b1 s1 =>
      if byte_in 0 127 b1 then utf8_valid s1
      else
        match s1 with
        | EmptyString => false
        | String b2 s2 =>
            if byte_in 194 223 b1 then continuation b2 && utf8_valid s2
            else
              match s2 with
              | EmptyString => false
              | String b3 s3 =>
                  if byte_in 224 239 b1
                  then second_of_three b1 b2 && continuation b3
                       && utf8_valid s3
                  else
                    match s3 with
                    | EmptyString => false
                    | String b4 s4 =>
                        byte_in 240 244 b1 && second_of_four b1 b2
                        && continuation b3 && continuation b4
                        && utf8_valid s4
                    end
              end
        end
  end.

Definition bytes_decode (b : string) : option string :=
  if utf8_valid b then Some b else None.

(** The inner [while] loop.  [ready] lists what the successive reads
    return for as long as the poller keeps reporting [POLLIN]: the first
    [poll] waits up to [poll_timeout], every later one is [poll(0)].  A
    tag that is not valid text makes [decode()] raise inside the [try],
    after the message has been taken off the socket; the handler is the
    one of any other exception of the read. *)
Fixpoint drain (ready : list recv_outcome) (received : list (string * string))
  : drained :=
  match ready with
  | [] =>
      {| received_messages := received; zmq_reinit_needed := false;
         left_on_socket := [] |}
  | Multipart [format_bytes; data] :: rest =>
      match bytes_decode format_bytes with
      | Some format_hint => drain rest (received ++ [(format_hint, data)])
      | None =>
          {| received_messages := received; zmq_reinit_needed := true;
             left_on_socket := rest |}
      end
  | Multipart _ :: rest =>
      (* the unpacking into two names raises *)
      {| received_messages := received; zmq_reinit_needed := true;
         left_on_socket := rest |}
  | Again :: rest =>
      {| received_messages := received; zmq_reinit_needed := false;
         left_on_socket := rest |}
  | RecvFailure :: rest =>
      {| received_messages := received; zmq_reinit_needed := true;
         left_on_socket := rest |}
  end.

(** One pass of the outer loop with the resources valid, from
    [received_messages = []] to the end of the decoding: the pictures
    emitted in order, and the flag. *)
Definition receive_decode_cycle (ready : list recv_outcome)
  : list signal * drained :=
  let d := drain ready [] in
  (if zmq_reinit_needed d then []
   else omap (λ '(format_hint, data),
                frame_decoded <$> _decode_image_to_pixmap data format_hint)
             (received_messages d),
   d).

End Service.

(** A queue of well-formed two-part messages, as the socket returns them. *)
Definition well_formed (msgs : list (string * string)) : list recv_outcome :=
  (λ '(format_bytes, data), Multipart [format_bytes; data]) <$> msgs.

Arguments frame_decoded {pixmap} p.
Arguments connection_status_changed {pixmap} connected message.
Arguments Session {pixmap}.
Arguments svc {pixmap} s.
Arguments emitted {pixmap} s.
Arguments alive {pixmap} s.
Arguments ticking {pixmap} s.
Arguments closed {pixmap} s.
Arguments created {pixmap} s.
Arguments new_session {pixmap}.
Arguments with_svc {pixmap} s w.
Arguments emit {pixmap} sig w.
Arguments create {pixmap} w.
Arguments _cleanup_zmq_resources {pixmap} env w.
Arguments _initialize_zmq_resources {pixmap} env w.
Arguments join {pixmap} env t w.
Arguments _cleanup {pixmap} env w.
Arguments _cleanup_and_notify {pixmap} env status_message w.
Arguments _force_close_sockets {pixmap} w.
Arguments start_thread {pixmap} record w.
Arguments start_stats_timer {pixmap} w.
Arguments connect {pixmap} env w.
Arguments disconnect {pixmap} env w.
Arguments _tcp_disconnect {pixmap} w.
Arguments _tcp_connect_failed {pixmap} e w.
Arguments heartbeat_sent {pixmap} w.
Arguments emitted_since {pixmap} before after.
Arguments is_status {pixmap} sig.
Arguments receive_decode_cycle {pixmap} _decode_image_to_pixmap ready.

(** The signals one batch gives rise to. *)
Definition frames_of {pixmap : Type} (decode : string → string → option pixmap)
    (msgs : list (string * string)) : list (signal pixmap) :=
  omap (λ '(format_hint, data), frame_decoded <$> decode data format_hint) msgs.

(** A read that ends the batch in failure: an exception of the read, a
    message that does not have exactly two parts, or a message whose tag
    cannot be decoded. *)
Definition breaks_batch (o : recv_outcome) : Prop :=
  o = RecvFailure
  ∨ (∃ parts, o = Multipart parts ∧ length parts ≠ 2)
  ∨ (∃ format_bytes data,
       o = Multipart [format_bytes; data] ∧ bytes_decode format_bytes = None).

(** Every tag is well-formed UTF-8. *)
Definition valid_tags (msgs : list (string * string)) : Prop :=
  Forall (λ m, utf8_valid m.1 = true) msgs.

End ZMQStreamService.

(* ===================================================================== *)
(** * Client: ui/panels/desktop_stream_panel.py                          *)
(* ===================================================================== *)

Module DesktopStreamPanel.

(** [DESKTOP_STREAM_BUFFER_SIZE] in config.py *)
Definition DESKTOP_STREAM_BUFFER_SIZE : nat := 2.

Section Panel.

Variable pixmap : Type.

(** [collections.deque(maxlen=n)]: the items from left to right. *)
Record deque : Type := Deque {
  items : list pixmap;
  maxlen : nat
}.

Definition new_deque (n : nat) : deque := {| items := []; maxlen := n |}.

(** [append]: a bounded deque that is full discards an item from its left
    end to make room; it never waits. *)
Definition append (x : pixmap) (d : deque) : deque :=
  if maxlen d =? 0 then d
  else if length (items d) <? maxlen d
  then {| items := items d ++ [x]; maxlen := maxlen d |}
  else {| items := drop 1 (items d) ++ [x]; maxlen := maxlen d |}.

(** [popleft]; [None] for the [IndexError] of an empty deque. *)
Definition popleft (d : deque) : option (pixmap * deque) :=
  match items d with
  | [] => None
  | x :: rest => Some (x, {| items := rest; maxlen := maxlen d |})
  end.

Definition clear (d : deque) : deque := {| items := []; maxlen := maxlen d |}.

(** A deque that holds no more than its bound. *)
Definition bounded (d : deque) : Prop := length (items d) ≤ maxlen d.

(** The attributes of the panel that the frame path reads or writes.  The
    black-screen detection of [on_decoded_pixmap] only reads the picture
    it was given and drives the backlight; it is left out. *)
Record panel : Type := Panel {
  active : bool;
  render_buffer : deque;
  render_timer : bool;
  video_label : option pixmap;
  rendered_frame_count : nat;
  buffer_len_count : nat
}.

(** [__init__] *)
Definition new_panel : panel :=
  {| active := false; render_buffer := new_deque DESKTOP_STREAM_BUFFER_SIZE;
     render_timer := false; video_label := None; rendered_frame_count := 0;
     buffer_len_count := 0 |}.

(** [on_enter], as far as these attributes go *)
Definition on_enter (p : panel) : panel :=
  {| active := true; render_buffer := clear (render_buffer p);
     render_timer := true; video_label := None; rendered_frame_count := 0;
     buffer_len_count := 0 |}.

(** [on_leave] *)
Definition on_leave (p : panel) : panel :=
  {| active := false; render_buffer := clear (render_buffer p);
     render_timer := false; video_label := None;
     rendered_frame_count := rendered_frame_count p;
     buffer_len_count := buffer_len_count p |}.

(** [on_decoded_pixmap], the slot of [frame_decoded] *)
Definition on_decoded_pixmap (x : pixmap) (p : panel) : panel :=
  if active p
  then {| active := active p; render_buffer := append x (render_buffer p);
          render_timer := render_timer p; video_label := video_label p;
          rendered_frame_count := rendered_frame_count p;
          buffer_len_count := buffer_len_count p |}
  else p.

(** What [render_frame] reads as [buf_len]. *)
Definition buf_len (p : panel) : nat := length (items (render_buffer p)).

(** [render_frame], the slot of the pacer's timer (its first [if]; the
    status overlay that follows does not touch the buffer) *)
Definition render_frame (p : panel) : panel :=
  if active p && render_timer p then
    let buf_len := buf_len p in
    let p1 :=
      {| active := active p; render_buffer := render_buffer p;
         render_timer := render_timer p; video_label := video_label p;
         rendered_frame_count := rendered_frame_count p;
         buffer_len_count := buffer_len_count p + buf_len |} in
    if 1 <=? buf_len then
      match popleft (render_buffer p1) with
      | Some (x, rest) =>
          {| active := active p1; render_buffer := rest;
             render_timer := render_timer p1; video_label := Some x;
             rendered_frame_count := S (rendered_frame_count p1);
             buffer_len_count := buffer_len_count p1 |}
      | None => p1
      end
    else p1
  else p.

(** What can happen to a panel, and a history of it. *)
Inductive action : Type :=
  | Enter
  | Leave
  | Decoded (x : pixmap)
  | Tick.

Definition act (a : action) (p : panel) : panel :=
  match a with
  | Enter => on_enter p
  | Leave => on_leave p
  | Decoded x => on_decoded_pixmap x p
  | Tick => render_frame p
  end.

Definition history (actions : list action) : panel :=
  foldl (λ p a, act a p) new_panel actions.

End Panel.

Arguments Deque {pixmap}.
Arguments items {pixmap} d.
Arguments maxlen {pixmap} d.
Arguments new_deque {pixmap} n.
Arguments append {pixmap} x d.
Arguments popleft {pixmap} d.
Arguments clear {pixmap} d.
Arguments bounded {pixmap} d.
Arguments Panel {pixmap}.
Arguments active {pixmap} p.
Arguments render_buffer {pixmap} p.
Arguments render_timer {pixmap} p.
Arguments video_label {pixmap} p.
Arguments rendered_frame_count {pixmap} p.
Arguments buffer_len_count {pixmap} p.
Arguments new_panel {pixmap}.
Arguments on_enter {pixmap} p.
Arguments on_leave {pixmap} p.
Arguments on_decoded_pixmap {pixmap} x p.
Arguments buf_len {pixmap} p.
Arguments render_frame {pixmap} p.
Arguments Enter {pixmap}.
Arguments Leave {pixmap}.
Arguments Decoded {pixmap} x.
Arguments Tick {pixmap}.
Arguments act {pixmap} a p.
Arguments history {pixmap} actions.

(** The pictures a history has put on the label, in the order in which
    [render_frame] set them, and the pictures that were handed to
    [on_decoded_pixmap], in the order of their arrival. *)
Definition shown_by {pixmap : Type} (a : action pixmap) (p : panel pixmap)
  : list pixmap :=
  match a with
  | Tick => if active p && render_timer p
            then take 1 (items (render_buffer p)) else []
  | _ => []
  end.

Fixpoint shown_from {pixmap : Type} (actions : list (action pixmap))
    (p : panel pixmap) : list pixmap :=
  match actions with
  | [] => []
  | a :: rest => shown_by a p ++ shown_from rest (act a p)
  end.

Definition shown {pixmap : Type} (actions : list (action pixmap)) : list pixmap :=
  shown_from actions new_panel.

Definition arrived {pixmap : Type} (actions : list (action pixmap)) : list pixmap :=
  omap (λ a, match a with Decoded x => Some x | _ => None end) actions.

(** One picture, then one tick of the pacer, and so on. *)
Definition paced {pixmap : Type} (xs : list pixmap) : list (action pixmap) :=
  mjoin ((λ x, [Decoded x; Tick]) <$> xs).

End DesktopStreamPanel.

(* ===================================================================== *)
(** * Server: the mouse pointer ([CaptureWorker.draw_mouse_cursor])       *)
(* ===================================================================== *)

Module MouseCursor.

Local Open Scope Z_scope.

(** [cursor_size = max(16, min(w, h) // 50)] *)
Definition cursor_size (w h : Z) : Z := Z.max 16 (Z.min w h / 50).

(** The arrow, relative to its tip.  [-cursor_size//4] is Python's
    [(-cursor_size) // 4], a division that rounds down, as [Z.div] does. *)
Definition arrow (cursor_size : Z) : list (Z * Z) :=
  [ (0, 0);
    (cursor_size / 2, cursor_size);
    (cursor_size / 4, cursor_size);
    (cursor_size / 4, cursor_size * 2);
    (0, cursor_size * 2);
    (- cursor_size / 4, cursor_size);
    (- cursor_size / 2, cursor_size) ].

(** [points[:, 0] += x; points[:, 1] += y] *)
Definition place (x y : Z) (shape : list (Z * Z)) : list (Z * Z) :=
  (λ p, (p.1 + x, p.2 + y)) <$> shape.

(** [.min()] and [.max()] of a column of seven numbers. *)
Definition column_min (col : list Z) : Z := foldr Z.min (default 0 (head col)) col.
Definition column_max (col : list Z) : Z := foldr Z.max (default 0 (head col)) col.

(** The test "检查是否超出边界". *)
Definition out_of_bounds (w h : Z) (points : list (Z * Z)) : bool :=
  (column_min (points.*1) <? 0) || (w <=? column_max (points.*1))
  || (column_min (points.*2) <? 0) || (h <=? column_max (points.*2)).

(** A colour, in the order of the channels of the picture. *)
Abbreviation colour := (Z * Z * Z)%type.

Definition black : colour := (0, 0, 0).
Definition white : colour := (255, 255, 255).

(** The rows and columns of the region whose brightness is averaged:
    [img[max(0, y-r):min(h, y+r), max(0, x-r):min(w, x+r)]]. *)
Record region : Type := Region {
  row_from : Z; row_to : Z; col_from : Z; col_to : Z
}.

Section Draw.

(** OpenCV and NumPy are outside the repository: the picture, whether
    the mean of a region of it exceeds 128, [cv2.fillPoly] and
    [cv2.polylines] (closed, thickness 1). *)
Variable image : Type.
Variable mean_above_128 : image → region → bool.
Variable fillPoly : image → list (Z * Z) → colour → image.
Variable polylines : image → list (Z * Z) → colour → image.

(** [draw_mouse_cursor(img, x, y)] for a picture of width [w] and height
    [h]. *)
Definition draw_mouse_cursor (img : image) (w h x y : Z) : image :=
  let cursor_size := cursor_size w h in
  let points := place x y (arrow cursor_size) in
  if out_of_bounds w h points then img
  else
    let roi_size :=
      Z.min (cursor_size * 3) (Z.min x (Z.min y (Z.min (w - x) (h - y)))) in
    let color :=
      if 0 <? roi_size then
        let roi := {| row_from := Z.max 0 (y - roi_size);
                      row_to := Z.min h (y + roi_size);
                      col_from := Z.max 0 (x - roi_size);
                      col_to := Z.min w (x + roi_size) |} in
        if mean_above_128 img roi then black else white
      else white in
    let img := fillPoly img points color in
    let border_color := (255 - color.1.1, 255 - color.1.2, 255 - color.2) in
    polylines img points border_color.

(** The call in [_worker_loop]: the pointer is drawn only when it is over
    the captured monitor. *)
Definition draw_pointer_if_inside (img : image) (w h mouse_x mouse_y : Z)
  : image :=
  if (0 <=? mouse_x) && (mouse_x <? w) && (0 <=? mouse_y) && (mouse_y <? h)
  then draw_mouse_cursor img w h mouse_x mouse_y
  else img.

End Draw.

End MouseCursor.

(* ===================================================================== *)
(** * Client: black-screen detection ([_check_if_frame_is_black])         *)
(* ===================================================================== *)

Module BlackScreen.

(** [_black_detection_sample_step], [_black_detection_threshold] and
    [_black_detection_interval]; the ratio is 0.95. *)
Definition sample_step : nat := 8.
Definition threshold : nat := 10.
Definition interval : nat := 5.

(** [int((width // step) * (height // step) * 0.95)].  For the products
    that can occur, the truncated floating-point product is the integer
    quotient below. *)
Definition required_pixels (width height : nat) : nat :=
  ((width / sample_step) * (height / sample_step) * 95) / 100.

(** [range(0, stop, step)] *)
Definition range_step (stop step : nat) : list nat :=
  (λ i, i * step) <$> seq 0 ((stop + step - 1) / step).

(** The positions visited by the two nested loops, in the order of the
    visits: [x] outside, [y] inside. *)
Definition samples (width height : nat) : list (nat * nat) :=
  x ← range_step width sample_step;
  (λ y, (x, y)) <$> range_step height sample_step.

Section Check.

(** [qimage.pixelColor(x, y)] as [(red, green, blue)]. *)
Variable pixelColor : nat → nat → nat * nat * nat.

Definition dark (xy : nat * nat) : bool :=
  let '(red, green, blue) := pixelColor xy.1 xy.2 in
  (red <=? threshold) && (green <=? threshold) && (blue <=? threshold).

(** The body of the loops, with its early [return True]. *)
Fixpoint scan (required : nat) (todo : list (nat * nat))
    (black_pixel_count : nat) : bool :=
  match todo with
  | [] => required <=? black_pixel_count
  | xy :: rest =>
      let black_pixel_count :=
        if dark xy then S black_pixel_count else black_pixel_count in
      if required <=? black_pixel_count then true
      else scan required rest black_pixel_count
  end.

Definition _check_if_frame_is_black (width height : nat) : bool :=
  scan (required_pixels width height) (samples width height) 0.

(** The number of dark samples on the whole grid. *)
Definition dark_samples (width height : nat) : nat :=
  length (filter (λ xy, Is_true (dark xy)) (samples width height)).

End Check.

End BlackScreen.

(* ===================================================================== *)
(** * Client: core/backlight.py and the panel's use of it                *)
(* ===================================================================== *)

Module BacklightManager.

Local Open Scope Z_scope.

(** config.py *)
Definition BRIGHTNESS_START : Z := 9.
Definition BRIGHTNESS_MIN : Z := 1.
Definition BRIGHTNESS_EXIT : Z := 9.
Definition BRIGHTNESS_STEPS : Z := BRIGHTNESS_START - BRIGHTNESS_MIN.

(** The attributes of the manager; whether each of its two timers is
    running; the number last written to [BACKLIGHT_PATH], if any, and
    whether that file can be written. *)
Record manager : Type := Manager {
  brightness : Z;
  dim_step : Z;
  idle_timer : bool;
  dim_timer : bool;
  _keep_screen_on_requested : bool;
  backlight_file : option Z;
  file_writable : bool
}.

(** [set_brightness]: what it returns, and the manager afterwards. *)
Definition set_brightness (value : Z) (m : manager) : bool * manager :=
  let val := Z.max 1 (Z.min 19 value) in
  if file_writable m
  then (true, {| brightness := val; dim_step := dim_step m;
                 idle_timer := idle_timer m; dim_timer := dim_timer m;
                 _keep_screen_on_requested := _keep_screen_on_requested m;
                 backlight_file := Some val; file_writable := true |})
  else (false, m).

(** [if self.brightness != BRIGHTNESS_START: self.set_brightness(...);
    self.brightness = BRIGHTNESS_START] *)
Definition restore_brightness (m : manager) : manager :=
  if decide (brightness m = BRIGHTNESS_START) then m
  else
    let m := (set_brightness BRIGHTNESS_START m).2 in
    {| brightness := BRIGHTNESS_START; dim_step := dim_step m;
       idle_timer := idle_timer m; dim_timer := dim_timer m;
       _keep_screen_on_requested := _keep_screen_on_requested m;
       backlight_file := backlight_file m; file_writable := file_writable m |}.

(** [reset_idle_timer], the slot of [key_pressed] *)
Definition reset_idle_timer (m : manager) : manager :=
  if _keep_screen_on_requested m then m
  else
    restore_brightness
      {| brightness := brightness m; dim_step := 0;
         idle_timer := true; dim_timer := false;
         _keep_screen_on_requested := false;
         backlight_file := backlight_file m; file_writable := file_writable m |}.

(** [request_keep_screen_on] *)
Definition request_keep_screen_on (m : manager) : manager :=
  restore_brightness
    {| brightness := brightness m; dim_step := 0;
       idle_timer := false; dim_timer := false;
       _keep_screen_on_requested := true;
       backlight_file := backlight_file m; file_writable := file_writable m |}.

(** [release_keep_screen_on] *)
Definition release_keep_screen_on (m : manager) : manager :=
  reset_idle_timer
    {| brightness := brightness m; dim_step := dim_step m;
       idle_timer := idle_timer m; dim_timer := dim_timer m;
       _keep_screen_on_requested := false;
       backlight_file := backlight_file m; file_writable := file_writable m |}.

(** [start_dimming], the slot of the idle timer *)
Definition start_dimming (m : manager) : manager :=
  if _keep_screen_on_requested m then m
  else if brightness m <=? BRIGHTNESS_MIN then m
  else {| brightness := brightness m; dim_step := 0;
          idle_timer := idle_timer m; dim_timer := true;
          _keep_screen_on_requested := false;
          backlight_file := backlight_file m; file_writable := file_writable m |}.

Definition stop_dim_timer (m : manager) : manager :=
  {| brightness := brightness m; dim_step := dim_step m;
     idle_timer := idle_timer m; dim_timer := false;
     _keep_screen_on_requested := _keep_screen_on_requested m;
     backlight_file := backlight_file m; file_writable := file_writable m |}.

(** [dim_step_down], the slot of the dimming timer *)
Definition dim_step_down (m : manager) : manager :=
  if _keep_screen_on_requested m then m
  else if BRIGHTNESS_STEPS <=? dim_step m then stop_dim_timer m
  else
    (* self.brightness -= 1 *)
    let m := {| brightness := brightness m - 1; dim_step := dim_step m;
                idle_timer := idle_timer m; dim_timer := dim_timer m;
                _keep_screen_on_requested := _keep_screen_on_requested m;
                backlight_file := backlight_file m;
                file_writable := file_writable m |} in
    let m := (set_brightness (brightness m) m).2 in
    let m := {| brightness := brightness m; dim_step := dim_step m + 1;
                idle_timer := idle_timer m; dim_timer := dim_timer m;
                _keep_screen_on_requested := _keep_screen_on_requested m;
                backlight_file := backlight_file m;
                file_writable := file_writable m |} in
    if brightness m <=? BRIGHTNESS_MIN then stop_dim_timer m else m.

(** [__init__], given what the file holds and whether it can be written *)
Definition new_manager (file : option Z) (writable : bool) : manager :=
  let m := {| brightness := BRIGHTNESS_START; dim_step := 0;
              idle_timer := false; dim_timer := false;
              _keep_screen_on_requested := false;
              backlight_file := file; file_writable := writable |} in
  reset_idle_timer (set_brightness BRIGHTNESS_START m).2.

(** What can happen to a manager.  A timer fires only while it runs; the
    idle timer is single-shot. *)
Inductive event : Type :=
  | KeyPressed
  | IdleTimeout
  | DimTick
  | RequestKeep
  | ReleaseKeep
  | SetBrightness (value : Z).

Definition handle (e : event) (m : manager) : manager :=
  match e with
  | KeyPressed => reset_idle_timer m
  | IdleTimeout =>
      if idle_timer m
      then start_dimming
             {| brightness := brightness m; dim_step := dim_step m;
                idle_timer := false; dim_timer := dim_timer m;
                _keep_screen_on_requested := _keep_screen_on_requested m;
                backlight_file := backlight_file m;
                file_writable := file_writable m |}
      else m
  | DimTick => if dim_timer m then dim_step_down m else m
  | RequestKeep => request_keep_screen_on m
  | ReleaseKeep => release_keep_screen_on m
  | SetBrightness value => (set_brightness value m).2
  end.

Definition after (events : list event) (m : manager) : manager :=
  foldl (λ m e, handle e m) m events.

(** What holds of a manager whose file can be written. *)
Definition in_step (m : manager) : Prop :=
  file_writable m = true
  ∧ backlight_file m = Some (brightness m)
  ∧ 1 ≤ brightness m ≤ 19
  ∧ (_keep_screen_on_requested m = true →
     idle_timer m = false ∧ dim_timer m = false)
  ∧ (idle_timer m = true → dim_timer m = false).

(** The file holds what it held at the start, or a number from 1 to 19. *)
Definition file_in_range (file : option Z) (m : manager) : Prop :=
  backlight_file m = file ∨ ∃ v, backlight_file m = Some v ∧ 1 ≤ v ≤ 19.

(** The manager [k] ticks into dimming, for [k] up to 8. *)
Definition dimmed (k : Z) : manager :=
  {| brightness := BRIGHTNESS_START - k; dim_step := k;
     idle_timer := false; dim_timer := bool_decide (k < BRIGHTNESS_STEPS);
     _keep_screen_on_requested := false;
     backlight_file := Some (BRIGHTNESS_START - k); file_writable := true |}.

End BacklightManager.

Module StreamBacklight.

Import BacklightManager.

(** The attributes of [DesktopStreamPanel] that its black-screen logic
    reads or writes, with the backlight manager it reaches through the
    state manager, if there is one. *)
Record watcher : Type := Watcher {
  active : bool;
  _last_black_screen_state : bool;
  _black_detection_frame_counter : nat;
  backlight_mgr : option manager
}.

(** [on_enter] and [on_leave], as far as these attributes go *)
Definition on_enter (p : watcher) : watcher :=
  {| active := true; _last_black_screen_state := false;
     _black_detection_frame_counter := 0;
     backlight_mgr := request_keep_screen_on <$> backlight_mgr p |}.

Definition on_leave (p : watcher) : watcher :=
  {| active := false; _last_black_screen_state := false;
     _black_detection_frame_counter := _black_detection_frame_counter p;
     backlight_mgr := release_keep_screen_on <$> backlight_mgr p |}.

(** [on_decoded_pixmap] after the append; [frame_is_black] is what
    [_check_if_frame_is_black] answers for the frame, asked only on the
    frames that are checked. *)
Definition on_decoded_pixmap (frame_is_black : bool) (p : watcher) : watcher :=
  if active p then
    let counter := S (_black_detection_frame_counter p) in
    if BlackScreen.interval <=? counter then
      let current_black_state := frame_is_black in
      if negb (eqb current_black_state (_last_black_screen_state p)) then
        {| active := true; _last_black_screen_state := current_black_state;
           _black_detection_frame_counter := 0;
           backlight_mgr :=
             (λ m, if current_black_state
                   then (set_brightness BRIGHTNESS_MIN m).2
                   else request_keep_screen_on m) <$> backlight_mgr p |}
      else
        {| active := true; _last_black_screen_state := _last_black_screen_state p;
           _black_detection_frame_counter := 0;
           backlight_mgr := backlight_mgr p |}
    else
      {| active := true; _last_black_screen_state := _last_black_screen_state p;
         _black_detection_frame_counter := counter;
         backlight_mgr := backlight_mgr p |}
  else p.

(** What happens while the panel is shown: frames arrive, keys are
    pressed (the manager's slot is connected to the key signal), timers
    of the manager fire. *)
Inductive happening : Type :=
  | Frame (frame_is_black : bool)
  | Manager (e : event).

Definition happen (h : happening) (p : watcher) : watcher :=
  match h with
  | Frame b => on_decoded_pixmap b p
  | Manager e =>
      {| active := active p;
         _last_black_screen_state := _last_black_screen_state p;
         _black_detection_frame_counter := _black_detection_frame_counter p;
         backlight_mgr := handle e <$> backlight_mgr p |}
  end.

(** Only the panel asks for the screen to be kept on, lowers the
    brightness or releases its request: the manager's own events here are
    key presses and timers. *)
Definition from_outside (h : happening) : bool :=
  match h with
  | Frame _ => true
  | Manager KeyPressed | Manager IdleTimeout | Manager DimTick => true
  | Manager _ => false
  end.

Local Open Scope Z_scope.

(** The panel is shown, the screen is held on, and the brightness says
    whether the last frame looked at was black. *)
Definition watching (p : watcher) : Prop :=
  active p = true
  ∧ (_black_detection_frame_counter p < BlackScreen.interval)%nat
  ∧ ∃ m, backlight_mgr p = Some m
       ∧ file_writable m = true
       ∧ _keep_screen_on_requested m = true
       ∧ idle_timer m = false ∧ dim_timer m = false
       ∧ brightness m = (if _last_black_screen_state p
                         then BRIGHTNESS_MIN else BRIGHTNESS_START)
       ∧ backlight_file m = Some (brightness m).

End StreamBacklight.

(* ===================================================================== *)
(** * Server: whether a cycle captures ([_worker_loop], [set_capture_state]) *)
(* ===================================================================== *)

Module CaptureDecision.

Import ConnectionChecker.

(** [self.capture_enabled] and [self.current_monitor] ([None] at first). *)
Record capture_state : Type := CaptureState {
  capture_enabled : bool;
  current_monitor : option Z
}.

(** [set_capture_state(capture_enabled, monitor_idx=None)] *)
Definition set_capture_state (enabled : bool) (monitor_idx : option Z)
    (st : capture_state) : capture_state :=
  {| capture_enabled := enabled;
     current_monitor := match monitor_idx with
                        | Some i => Some i
                        | None => current_monitor st
                        end |}.

Record decision : Type := Decision {
  should_capture : bool;
  should_send : bool;
  monitor_idx : Z;
  (** the [continue] that skips the capture *)
  skipped : bool
}.

(** What the other threads of the checker do to it, each step under the
    checker's own lock: the accept loop records a client, a reader goes
    once through the body of its loop, the window stops the checker. *)
Inductive other_thread : Type :=
  | Accepts (a : addr) (c : conn) (now : Q)
  | Reads (a : addr) (r : recv_result) (now : Q)
  | Stops.

Definition interleaved (o : other_thread) (s : checker) : checker :=
  match o with
  | Accepts a c now => accept_client a c now s
  | Reads a r now => (heartbeat_body a r now s).1
  | Stops => stop_checking s
  end.

(** The block under [with self.capture_lock:] and the test after it.
    [or] does not evaluate its right operand when the left one holds, so
    [get_connected_count] is called once or twice; [t1] and [t2] are the
    times the calls read.  The lock held is the worker's, not the
    checker's: [between] is what the checker's threads do after the
    first call has returned and before the second.  [x or y] on an
    optional number takes [y] when [x] is [None] or zero. *)
Definition decide_cycle (st : capture_state) (config_monitor_idx : Z)
    (t1 t2 : Q) (between : list other_thread) (s : checker)
  : decision * checker :=
  let '(should_capture, s) :=
    if capture_enabled st then (true, s)
    else let '(n, s) := get_connected_count t1 s in (0 <? n, s) in
  let s := foldl (λ s o, interleaved o s) s between in
  let '(n, s) := get_connected_count t2 s in
  let should_send := 0 <? n in
  let monitor_idx :=
    match current_monitor st with
    | Some i => if (i =? 0)%Z then config_monitor_idx else i
    | None => config_monitor_idx
    end in
  ({| should_capture := should_capture; should_send := should_send;
      monitor_idx := monitor_idx;
      skipped := negb should_capture && negb should_send |}, s).

End CaptureDecision.

(* ===================================================================== *)
(** * Client: switching panels ([StateManager._switch_panel],
      [MainWindow.switch_to_panel])                                       *)
(* ===================================================================== *)

Module PanelSwitch.

Local Open Scope Z_scope.

(** [StateManager.STATE_*] *)
Inductive state : Type :=
  | STATE_MONITOR
  | STATE_AI_IDLE
  | STATE_AI_LISTENING
  | STATE_AI_PROCESSING
  | STATE_AI_PLAYING
  | STATE_DESKTOP.

(** [MainWindow.PANEL_*] *)
Definition PANEL_MONITOR : Z := 0.
Definition PANEL_AI : Z := 1.
Definition PANEL_DESKTOP : Z := 2.

(** Calls into the collaborators whose code is elsewhere: the recorder,
    the AI panel, the monitor panel, the thread that connects the AI
    service. *)
Inductive call : Type :=
  | StopRecording
  | AiSetStatusIdle
  | AiSetEmoticonIdle
  | AiSetEmoticonSwitching
  | AiStopSpeakingAnimation
  | StartAiConnectThread
  | MonitorOnLeave
  | MonitorOnEnter
  | AiOnLeave
  | AiOnEnter.

Section Switch.

Variable pixmap : Type.

(** The state manager, the index the stacked layout shows, the desktop
    panel, and the calls made so far. *)
Record ui : Type := Ui {
  current_state : state;
  target_panel_id : Z;
  current_index : Z;
  desktop_panel : DesktopStreamPanel.panel pixmap;
  calls : list call
}.

(** [MainWindow.switch_to_panel].  The layout holds three widgets and
    ignores an index that names none of them. *)
Definition switch_to_panel (panel_id : Z) (u : ui) : ui :=
  let old_panel_id := current_index u in
  let index := if (0 <=? panel_id) && (panel_id <? 3)
               then panel_id else current_index u in
  let '(desktop, log) :=
    if old_panel_id =? PANEL_MONITOR then (desktop_panel u, [MonitorOnLeave])
    else if old_panel_id =? PANEL_AI then (desktop_panel u, [AiOnLeave])
    else if old_panel_id =? PANEL_DESKTOP
    then (DesktopStreamPanel.on_leave (desktop_panel u), [])
    else (desktop_panel u, []) in
  let '(desktop, log) :=
    if panel_id =? PANEL_MONITOR then (desktop, log ++ [MonitorOnEnter])
    else if panel_id =? PANEL_AI then (desktop, log ++ [AiOnEnter])
    else if panel_id =? PANEL_DESKTOP
    then (DesktopStreamPanel.on_enter desktop, log)
    else (desktop, log) in
  {| current_state := current_state u; target_panel_id := target_panel_id u;
     current_index := index; desktop_panel := desktop;
     calls := calls u ++ log |}.

(** [StateManager._switch_panel].  [%] gives a result in 0..2 whatever
    the sign of its left operand, as [Z.modulo] does. *)
Definition _switch_panel (direction : Z) (u : ui) : ui :=
  let new_panel_id := (target_panel_id u + direction) mod 3 in
  (* what is interrupted *)
  let '(st, log) :=
    match current_state u with
    | STATE_AI_LISTENING =>
        (* _stop_recording_immediate *)
        (STATE_AI_IDLE, [StopRecording; AiSetStatusIdle; AiSetEmoticonIdle])
    | STATE_AI_PLAYING => (STATE_AI_PLAYING, [AiStopSpeakingAnimation])
    | s => (s, [])
    end in
  let new_state :=
    if new_panel_id =? PANEL_AI then STATE_AI_IDLE
    else if new_panel_id =? PANEL_DESKTOP then STATE_DESKTOP
    else STATE_MONITOR in
  let u :=
    switch_to_panel new_panel_id
      {| current_state := new_state; target_panel_id := new_panel_id;
         current_index := current_index u; desktop_panel := desktop_panel u;
         calls := calls u ++ log |} in
  {| current_state := current_state u; target_panel_id := target_panel_id u;
     current_index := current_index u; desktop_panel := desktop_panel u;
     calls := calls u ++
              (if new_panel_id =? PANEL_AI then [StartAiConnectThread]
               else [AiSetEmoticonSwitching; AiStopSpeakingAnimation]) |}.

(** The application once [main()] has built its objects and shown the
    first panel. *)
Definition started : ui :=
  switch_to_panel PANEL_MONITOR
    {| current_state := STATE_MONITOR; target_panel_id := PANEL_MONITOR;
       current_index := 0; desktop_panel := DesktopStreamPanel.new_panel;
       calls := [] |}.

(** The state that goes with a panel. *)
Definition state_of_panel (panel_id : Z) : state :=
  if panel_id =? PANEL_AI then STATE_AI_IDLE
  else if panel_id =? PANEL_DESKTOP then STATE_DESKTOP
  else STATE_MONITOR.

End Switch.

Arguments current_state {pixmap} u.
Arguments target_panel_id {pixmap} u.
Arguments current_index {pixmap} u.
Arguments desktop_panel {pixmap} u.
Arguments calls {pixmap} u.
Arguments switch_to_panel {pixmap} panel_id u.
Arguments _switch_panel {pixmap} direction u.
Arguments started {pixmap}.

(** The panel shown, the state and the desktop panel agree. *)
Definition settled {pixmap : Type} (u : ui pixmap) : Prop :=
  0 ≤ target_panel_id u < 3
  ∧ current_index u = target_panel_id u
  ∧ current_state u = state_of_panel (target_panel_id u)
  ∧ DesktopStreamPanel.active (desktop_panel u)
    = bool_decide (target_panel_id u = PANEL_DESKTOP).

End PanelSwitch.

(* ===================================================================== *)
(** * Client: the outer loop of [_zmq_receive_decode_loop]               *)
(* ===================================================================== *)

Module ReceiveLoop.

Import ZMQStreamService.

Section Loop.

Variable pixmap : Type.
Variable _decode_image_to_pixmap : string → string → option pixmap.

(** The local flag of the loop and [self.frame_count]. *)
Record loop_state : Type := LoopState {
  reinit_needed : bool;
  frame_count : nat
}.

(** How a pass ends: the loop goes round again, or is left by [break]. *)
Inductive pass_end : Type := GoesOn | Leaves.

(** The second half of a pass, the block under [with self.zmq_lock:],
    given what the socket has ready.  [_cleanup_zmq_resources] releases
    the socket and the poller under the same lock, so the block runs
    wholly before or wholly after that. *)
Definition locked_part (ready : list recv_outcome)
    (l : loop_state) (w : session pixmap) : pass_end * loop_state * session pixmap :=
  if negb (_zmq_initialized (svc w))
     || negb (bool_decide (is_Some (zmq_sock (svc w))))
     || negb (bool_decide (is_Some (zmq_poller (svc w))))
  then (GoesOn, {| reinit_needed := true; frame_count := frame_count l |}, w)
  else
    let '(frames, d) := receive_decode_cycle _decode_image_to_pixmap ready in
    (GoesOn,
     {| reinit_needed := zmq_reinit_needed d;
        frame_count := frame_count l + length frames |},
     {| svc := svc w; emitted := emitted w ++ frames; alive := alive w;
        ticking := ticking w; closed := closed w; created := created w |}).

(** One pass of [while True:], given what the surroundings decide during
    it and what the socket has ready. *)
Definition pass (env : environment) (ready : list recv_outcome)
    (l : loop_state) (w : session pixmap) : pass_end * loop_state * session pixmap :=
  if negb (_running (svc w)) then (Leaves, l, w)
  else if reinit_needed l then
    let w := _cleanup_zmq_resources env w in
    let '(ok, w) := _initialize_zmq_resources env w in
    if ok
    then (GoesOn, {| reinit_needed := false; frame_count := frame_count l |}, w)
    else (Leaves, l, w)
  else locked_part ready l w.

(** The loop over a script of passes; [true] when it was left. *)
Fixpoint loop (script : list (environment * list recv_outcome))
    (l : loop_state) (w : session pixmap) : bool * loop_state * session pixmap :=
  match script with
  | [] => (false, l, w)
  | (env, ready) :: rest =>
      match pass env ready l w with
      | (Leaves, l, w) => (true, l, w)
      | (GoesOn, l, w) => loop rest l w
      end
  end.

End Loop.

Arguments locked_part {pixmap} _decode_image_to_pixmap ready l w.
Arguments pass {pixmap} _decode_image_to_pixmap env ready l w.
Arguments loop {pixmap} _decode_image_to_pixmap script l w.

End ReceiveLoop.

(* ===================================================================== *)
(** * [MainWindow]: the entry for starting with the desktop session      *)
(* ===================================================================== *)

(** [get_current_exe_path], [validate_autostart_path], [toggle_autostart]
    and [check_autostart_status] of [MainWindow].  The value
    ["VirtualDisplaySender"] under the [Run] key is an optional string;
    a [str] is the list of its code points, so that [str.strip] and
    [str.split] can be followed character by character.  What the
    surroundings decide is a [machine]: whether the program runs packaged
    ([sys.frozen]), [sys.executable], the path of the script, which paths
    exist, and whether the key can be opened for reading and for
    writing. *)

Module Autostart.

Local Open Scope N_scope.

Abbreviation str := (list N).

Definition codes (s : string) : str := Ascii.N_of_ascii <$> String.list_ascii_of_string s.

(** The double-quote character. *)
Definition quote : N := 34.

(** [c.isspace()] for one character of a [str]. *)
Definition isspace (c : N) : bool :=
  (9 <=? c) && (c <=? 13) || (28 <=? c) && (c <=? 32)
  || (c =? 133) || (c =? 160) || (c =? 5760)
  || (8192 <=? c) && (c <=? 8202)
  || (c =? 8232) || (c =? 8233) || (c =? 8239) || (c =? 8287)
  || (c =? 12288).

(** [s.lstrip(q)], [s.rstrip(q)] and [s.strip(q)] for a single
    character [q]. *)
Fixpoint lstrip (q : N) (s : str) : str :=
  match s with
  | [] => []
  | c :: rest => if c =? q then lstrip q rest else s
  end.

Definition rstrip (q : N) (s : str) : str := reverse (lstrip q (reverse s)).

Definition strip (q : N) (s : str) : str := rstrip q (lstrip q s).

(** [s.split()[0]]: leading white space is skipped, the word runs up to
    the next white space; [None] is the [IndexError] of a string that
    holds no word. *)
Fixpoint skip_spaces (s : str) : str :=
  match s with
  | [] => []
  | c :: rest => if isspace c then skip_spaces rest else s
  end.

Fixpoint word (s : str) : str :=
  match s with
  | [] => []
  | c :: rest => if isspace c then [] else c :: word rest
  end.

Definition first_word (s : str) : option str :=
  match word (skip_spaces s) with
  | [] => None
  | w => Some w
  end.

Record machine : Type := Machine {
  frozen : bool;
  executable : str;
  script : str;
  path_exists : str → bool;
  key_readable : bool;
  key_writable : bool
}.

(** The registry value, the check box of the window, and the values
    handed to [winreg.SetValueEx] so far, oldest first. *)
Record desk : Type := Desk {
  entry : option str;
  checkbox : bool;
  set_values : list str
}.

Definition get_current_exe_path (m : machine) : str :=
  if frozen m then executable m else script m.

(** The command line written to the registry: the path between two
    double-quote characters, then [ --silent 5]. *)
Definition command (path : str) : str :=
  quote :: path ++ quote :: codes " --silent 5".

Definition SetValueEx (v : str) (d : desk) : desk :=
  {| entry := Some v; checkbox := checkbox d;
     set_values := set_values d ++ [v] |}.

Definition DeleteValue (d : desk) : desk :=
  {| entry := None; checkbox := checkbox d; set_values := set_values d |}.

(** [setChecked] between [blockSignals(True)] and [blockSignals(False)]. *)
Definition set_checkbox (b : bool) (d : desk) : desk :=
  {| entry := entry d; checkbox := b; set_values := set_values d |}.

Definition validate_autostart_path (m : machine) (d : desk) : desk :=
  if negb (key_readable m) then d
  else
    match entry d with
    | None => d
    | Some stored_path =>
        let current_path := get_current_exe_path m in
        match first_word (strip quote stored_path) with
        | None => d
        | Some stored_exe =>
            if negb (bool_decide (stored_exe = current_path))
               && path_exists m current_path
            then
              if key_writable m then SetValueEx (command current_path) d
              else d
            else d
        end
    end.

(** The slot of [stateChanged]; [state] is whether the new state is
    [Checked]. *)
Definition toggle_autostart (m : machine) (state : bool) (d : desk) : desk :=
  if state && negb (frozen m) then set_checkbox false d
  else if negb (key_writable m) then set_checkbox (negb state) d
  else if state then SetValueEx (command (get_current_exe_path m)) d
  else DeleteValue d.

(** [autostart_checkbox.setChecked(b)] with signals not blocked:
    [stateChanged] is emitted when the state changes, and its slot runs
    before [setChecked] returns. *)
Definition setChecked (m : machine) (b : bool) (d : desk) : desk :=
  if bool_decide (checkbox d = b) then d
  else toggle_autostart m b (set_checkbox b d).

Definition check_autostart_status (m : machine) (d : desk) : desk :=
  let d := validate_autostart_path m d in
  if negb (key_readable m) then setChecked m false d
  else
    match entry d with
    | None => setChecked m false d
    | Some _ =>
        if negb (frozen m) then
          if key_writable m then setChecked m false (DeleteValue d)
          else setChecked m false d
        else setChecked m true d
    end.

End Autostart.

(* ===================================================================== *)
(** * Concrete inputs used by the examples below                         *)
(* ===================================================================== *)

Module Scenario.

(** [config.json] holding ["encoding_format": "bmp"], the other keys at
    their defaults. *)
Definition bmp_config : CaptureWorker.config :=
  {| CaptureWorker.monitor_idx := 4;
     CaptureWorker.target_resolution := (160, 128)%Z;
     CaptureWorker.jpeg_quality := 10;
     CaptureWorker.zmq_port := 5555; CaptureWorker.tcp_port := 5655;
     CaptureWorker.target_fps := 30;
     CaptureWorker.encoding_format := "bmp";
     CaptureWorker.png_compression := 6; CaptureWorker.webp_quality := 10 |}.

(** A stand-in for libzmq: a secret key is 40 characters of Z85, anything
    else is refused; the public key is some function of the secret one. *)
Definition sample_curve_public (secret_key : string) : option string :=
  if String.length secret_key =? 40
  then Some (String.append "pub-of-" secret_key) else None.

Definition stored_secret : string := "0123456789012345678901234567890123456789".
Definition fresh_pair : string * string :=
  ("PPPPPPPPPPPPPPPPPPPPPPPPPPPPPPPPPPPPPPPP",
   "SSSSSSSSSSSSSSSSSSSSSSSSSSSSSSSSSSSSSSSS").

(** A key file in good order, and one that was truncated. *)
Definition healthy_disk : CaptureWorker.filesystem :=
  {| CaptureWorker.files :=
       {[ CaptureWorker.zmq_secret_key_file :=
            {| CaptureWorker.content := stored_secret;
               CaptureWorker.readable := true;
               CaptureWorker.writable := true |} ]};
     CaptureWorker.can_create := true |}.

Definition corrupt_disk : CaptureWorker.filesystem :=
  {| CaptureWorker.files :=
       {[ CaptureWorker.zmq_secret_key_file :=
            {| CaptureWorker.content := "01234";
               CaptureWorker.readable := true;
               CaptureWorker.writable := true |} ]};
     CaptureWorker.can_create := true |}.

(** Two clients of the control channel. *)
Definition alice : ConnectionChecker.addr := ("192.168.113.5", 50000%Z).
Definition bob : ConnectionChecker.addr := ("192.168.113.6", 50001%Z).

(** [alice] last heard at 1 s, [bob] at 9.5 s. *)
Definition two_clients : ConnectionChecker.checker :=
  {| ConnectionChecker.running := true;
     ConnectionChecker.clients := {[ alice := 1%Q; bob := (19 # 2)%Q ]};
     ConnectionChecker.client_sockets := {[ alice := 7; bob := 8 ]} |}.

(** A client whose handshake reaches the server 4 s after its connection
    was accepted, and whose first heartbeat arrives 4.8 s later; the
    capture loop calls [get_connected_count] in between, at 8.5 s. *)
Definition late_handshake : list ConnectionChecker.event :=
  [ ConnectionChecker.Accept alice 7 0%Q;
    ConnectionChecker.Handshake 4%Q;
    ConnectionChecker.LoopTest 7 4%Q;
    ConnectionChecker.Count (17 # 2)%Q;
    ConnectionChecker.Recv 7 (ConnectionChecker.RecvData "hb") (44 # 5)%Q ].

(** The surroundings of a client session in good order. *)
Definition fair_weather : ZMQStreamService.environment :=
  {| ZMQStreamService.server_public_key := Some "server-public-key";
     ZMQStreamService.zmq_setup_ok := true;
     ZMQStreamService.zmq_close_ok := true;
     ZMQStreamService.zmq_term_ok := true;
     ZMQStreamService.join_ends := λ _, true |}.

(** A session after its first [connect()]; pictures are named by numbers. *)
Definition streaming : ZMQStreamService.session nat :=
  ZMQStreamService.connect fair_weather ZMQStreamService.new_session.

(** A packaged program and a run from the sources, on a machine where
    the [Run] key can be read and written. *)
Definition packaged : Autostart.machine :=
  {| Autostart.frozen := true;
     Autostart.executable := Autostart.codes "C:\Tools\sender.exe";
     Autostart.script := Autostart.codes "C:\src\main.py";
     Autostart.path_exists := λ _, true;
     Autostart.key_readable := true;
     Autostart.key_writable := true |}.

Definition from_sources : Autostart.machine :=
  {| Autostart.frozen := false;
     Autostart.executable := Autostart.codes "C:\Python\python.exe";
     Autostart.script := Autostart.codes "C:\src\main.py";
     Autostart.path_exists := λ _, true;
     Autostart.key_readable := true;
     Autostart.key_writable := true |}.

(** The window before [check_autostart_status], with a given registry
    value. *)
Definition fresh_desk (value : option Autostart.str) : Autostart.desk :=
  {| Autostart.entry := value; Autostart.checkbox := false;
     Autostart.set_values := [] |}.

End Scenario.

(* ===================================================================== *)
(** * Properties                                                         *)
(* ===================================================================== *)

(** ** Change detection and forced refresh *)

Section ChangeDetection.
Import CaptureWorker.

(** An unchanged frame below the threshold is suppressed and counted. *)
Lemma detect_change_suppressed (h : Z) (d : detector) :
  last_frame_hash d = Some h →
  S (frame_skip_count d) < forced_refresh_threshold →
  detect_change h d =
    (false, {| last_frame_hash := Some h;
               frame_skip_count := S (frame_skip_count d) |}).
Proof.
  intros Hlast Hlt. unfold detect_change.
  rewrite decide_True by done. cbn [frame_skip_count last_frame_hash].
  destruct (Nat.leb_spec forced_refresh_threshold (S (frame_skip_count d)));
    [lia | by rewrite Hlast].
Qed.

(** An unchanged frame that brings the streak to the threshold is sent. *)
Lemma detect_change_forced (h : Z) (d : detector) :
  last_frame_hash d = Some h →
  forced_refresh_threshold ≤ S (frame_skip_count d) →
  detect_change h d =
    (true, {| last_frame_hash := Some h; frame_skip_count := 0 |}).
Proof.
  intros Hlast Hge. unfold detect_change.
  rewrite decide_True by done. cbn [frame_skip_count last_frame_hash].
  destruct (Nat.leb_spec forced_refresh_threshold (S (frame_skip_count d)));
    [by rewrite Hlast | lia].
Qed.

(** A run of unchanged frames that stays below the threshold sends
    nothing. *)
Lemma detect_run_suppressed (h : Z) (n : nat) : ∀ d,
  last_frame_hash d = Some h →
  frame_skip_count d + n < forced_refresh_threshold →
  detect_run (replicate n h) d =
    (replicate n false,
     {| last_frame_hash := Some h; frame_skip_count := frame_skip_count d + n |}).
Proof.
  induction n as [|n IH]; intros d Hlast Hlt.
  - cbn. destruct d as [l k]; cbn in *. by rewrite Hlast, Nat.add_0_r.
  - cbn [replicate detect_run detect_cycle].
    rewrite detect_change_suppressed by (done || lia).
    rewrite IH by (cbn; done || lia). cbn. do 3 f_equal. lia.
Qed.

Lemma publishes_replicate_false (n : nat) : publishes (replicate n false) = 0.
Proof. induction n as [|n IH]; [done|]. cbn. exact IH. Qed.

Lemma publishes_cons (b : bool) (bs : list bool) :
  publishes (b :: bs) = (if b then 1 else 0) + publishes bs.
Proof. by destruct b. Qed.

(** Fewer unchanged frames than the threshold: one publish at most. *)
Lemma detect_run_at_most_one (h : Z) (n : nat) : ∀ d,
  last_frame_hash d = Some h →
  n < forced_refresh_threshold →
  publishes (detect_run (replicate n h) d).1 ≤ 1.
Proof.
  induction n as [|n IH]; intros d Hlast Hlt; [cbn; lia|].
  cbn [replicate detect_run detect_cycle].
  destruct (Nat.le_gt_cases forced_refresh_threshold (S (frame_skip_count d)))
    as [Hge|Hbelow].
  - rewrite detect_change_forced by done.
    rewrite detect_run_suppressed by (cbn; done || lia).
    cbn [fst]. rewrite publishes_cons, publishes_replicate_false. lia.
  - rewrite detect_change_suppressed by done.
    specialize (IH {| last_frame_hash := Some h;
                      frame_skip_count := S (frame_skip_count d) |} eq_refl).
    destruct (detect_run _ _) as [bs d2]. cbn [fst] in *.
    rewrite publishes_cons. cbn. apply IH. lia.
Qed.

(** Fewer identical frames than the threshold, from any state of the
    detector: one publish at most (the first frame, if it is a change). *)
Lemma identical_frames_at_most_one (h : Z) (n : nat) (d : detector) :
  n < forced_refresh_threshold →
  publishes (detect_run (replicate n h) d).1 ≤ 1.
Proof.
  intros Hn. destruct (decide (Some h = last_frame_hash d)) as [Heq|Hne].
  - by apply detect_run_at_most_one.
  - destruct n as [|n]; [cbn; lia|].
    assert (Hchange : detect_change h d =
              (true, {| last_frame_hash := Some h; frame_skip_count := 0 |})).
    { unfold detect_change. by rewrite decide_False by done. }
    cbn [replicate detect_run detect_cycle]. rewrite Hchange.
    rewrite detect_run_suppressed by (cbn; done || lia).
    cbn [fst]. rewrite publishes_cons, publishes_replicate_false. lia.
Qed.

(** C1.  With publishing active and the frames' hash equal to
    [last_frame_hash]: a run of fewer than 10 such frames contains at most
    one publish; the frame that brings the streak from 9 to 10 is
    published although unchanged, and the counter is back at zero; before
    that the frame is suppressed; counted from a change, it is exactly the
    tenth unchanged frame that is published. *)
Theorem forced_refresh_after_ten_unchanged (d : detector) (h : Z) (n : nat) :
  last_frame_hash d = Some h →
  (n < forced_refresh_threshold →
     publishes (detect_run (replicate n h) d).1 ≤ 1)
  ∧ (frame_skip_count d = 9 →
     detect_cycle true h d =
       (true, {| last_frame_hash := Some h; frame_skip_count := 0 |}))
  ∧ (frame_skip_count d < 9 →
     detect_cycle true h d =
       (false, {| last_frame_hash := Some h;
                  frame_skip_count := S (frame_skip_count d) |}))
  ∧ (frame_skip_count d = 0 →
     detect_run (replicate forced_refresh_threshold h) d =
       (replicate 9 false ++ [true],
        {| last_frame_hash := Some h; frame_skip_count := 0 |})).
Proof.
  intros Hlast. repeat split.
  - intros Hn. by apply detect_run_at_most_one.
  - intros Hk. cbn [detect_cycle]. apply detect_change_forced; [done|].
    unfold forced_refresh_threshold. lia.
  - intros Hk. cbn [detect_cycle]. apply detect_change_suppressed; [done|].
    unfold forced_refresh_threshold. lia.
  - intros Hk.
    change forced_refresh_threshold with (9 + 1).
    rewrite replicate_add.
    assert (Hsplit : ∀ xs ys d0,
      detect_run (xs ++ ys) d0 =
        let '(bs, d1) := detect_run xs d0 in
        let '(cs, d2) := detect_run ys d1 in (bs ++ cs, d2)).
    { induction xs as [|x xs IHxs]; intros ys d0; cbn [app detect_run].
      - by destruct (detect_run ys d0).
      - destruct (detect_cycle true x d0) as [b d1]. rewrite IHxs.
        destruct (detect_run xs d1) as [bs d2].
        by destruct (detect_run ys d2). }
    rewrite Hsplit.
    rewrite detect_run_suppressed
      by (done || rewrite Hk; unfold forced_refresh_threshold; lia).
    cbn [replicate detect_run detect_cycle].
    rewrite detect_change_forced
      by (cbn; done || unfold forced_refresh_threshold; lia).
    done.
Qed.

Lemma forced_refresh_after_ten_unchanged_witness :
  let d := {| last_frame_hash := Some 7%Z; frame_skip_count := 9 |} in
  publishes (detect_run (replicate 3 7%Z) d).1 ≤ 1
  ∧ detect_cycle true 7%Z d =
      (true, {| last_frame_hash := Some 7%Z; frame_skip_count := 0 |}).
Proof.
  destruct (forced_refresh_after_ten_unchanged
              {| last_frame_hash := Some 7%Z; frame_skip_count := 9 |} 7%Z 3
              eq_refl) as (Hfew & Hforced & _).
  split.
  - apply Hfew. unfold forced_refresh_threshold. lia.
  - apply Hforced. reflexivity.
Defined.

End ChangeDetection.

(** ** Framing of published messages *)

Section Framing.
Import CaptureWorker.

Variable image : Type.
Variable resize : image → Z * Z → image.
Variable imencode : string → image → list (imwrite_flag * Z) → bool * string.

(** With one of the three codecs configured, what is sent has two parts:
    the configured tag and that codec's output for the resized picture. *)
Lemma encode_frame_supported (cfg : config) (img : image) (msg : multipart) :
  supported_tag (encoding_format cfg) →
  encode_frame image resize imencode cfg img = Some msg →
  ∃ ext flag level data,
    msg = [encoding_format cfg; data]
    ∧ ext = String.append "." (encoding_format cfg)
    ∧ imencode ext (resize img (target_resolution cfg)) [(flag, level)]
      = (true, data).
Proof.
  unfold encode_frame, encode. intros [Hf|[Hf|Hf]]; rewrite Hf; cbn;
    destruct (imencode _ _ _) as [[] data] eqn:He; intros [= <-];
    eexists _, _, _, _; (split; [reflexivity|]); (split; [reflexivity|]);
    exact He.
Qed.

(** C5, evaluated where it fails.  With ["bmp"] configured the [else]
    branch encodes a JPEG, and the first part of the message is the
    configured string: a tag outside the three the protocol names, in
    front of a payload of another format. *)
Theorem fallback_payload_carries_configured_tag (img : image) :
  encode_frame image resize imencode Scenario.bmp_config img =
    (let '(success, encoded_data) :=
       imencode ".jpg" (resize img (160, 128)%Z) [(IMWRITE_JPEG_QUALITY, 100%Z)] in
     if success then Some ["bmp"; encoded_data] else None)
  ∧ ¬ supported_tag "bmp".
Proof.
  split.
  - reflexivity.
  - unfold supported_tag. intros [H|[H|H]]; discriminate H.
Qed.

End Framing.

(** ** Key material *)

Section KeyMaterial.
Import CaptureWorker.

Variable curve_public : string → option string.
Variable curve_keypair : string * string.

Lemma write_other_path (fs fs' : filesystem) (path other data : string) :
  path ≠ other → write_file fs path data = Some fs' →
  files fs' !! other = files fs !! other.
Proof.
  unfold write_file. intros Hne Hw.
  destruct (files fs !! path) as [f|].
  - destruct (writable f); [|done]. injection Hw as <-. cbn.
    by rewrite lookup_insert_ne.
  - destruct (can_create fs); [|done]. injection Hw as <-. cbn.
    by rewrite lookup_insert_ne.
Qed.

(** What the generating tail returns and leaves on disk. *)
Lemma generate_curve_keys_spec (fs : filesystem) (log : list log_record) :
  let out := generate_curve_keys curve_keypair fs log in
  (zmq_public_key out, zmq_secret_key out) = curve_keypair
  ∧ (∀ fs', write_file fs zmq_secret_key_file curve_keypair.2 = Some fs' →
       files (disk out) !! zmq_secret_key_file
       = files fs' !! zmq_secret_key_file)
  ∧ ∃ more, logged out = log ++ LogInfo "Generating new ZMQ Curve key pair." :: more.
Proof.
  unfold generate_curve_keys. destruct curve_keypair as [pk sk]. cbn [snd].
  destruct (write_file fs zmq_secret_key_file sk) as [fs1|] eqn:H1;
    [destruct (write_file fs1 zmq_public_key_file pk) as [fs2|] eqn:H2
    |destruct (write_file fs zmq_public_key_file pk) as [fs2|] eqn:H2];
    cbn; (split; [done|]); (split; [|rewrite <- !app_assoc; cbn; eauto]);
    intros fs' [= <-]; try done.
  by eapply (write_other_path fs1 fs2 zmq_public_key_file zmq_secret_key_file).
Qed.

(** C2, as the code has it.  When the key file exists: if it can be read
    and the public key derived, that pair is returned, nothing is
    generated and the disk is untouched; if it cannot be read, or the
    derivation fails, the failure is logged and the operation itself
    returns the freshly generated pair, which replaces the stored secret
    key whenever the file can be written. *)
Theorem load_or_generate_on_existing_file (fs : filesystem) :
  path_exists fs zmq_secret_key_file = true →
  let out := load_or_generate_curve_keys curve_public curve_keypair fs in
  (∀ secret_key public_key,
     read_file fs zmq_secret_key_file = Some secret_key →
     curve_public secret_key = Some public_key →
     zmq_secret_key out = secret_key ∧ zmq_public_key out = public_key
     ∧ disk out = fs
     ∧ logged out = [LogInfo "Loading existing ZMQ secret key from file."])
  ∧ (read_file fs zmq_secret_key_file ≫= curve_public = None →
     (zmq_public_key out, zmq_secret_key out) = curve_keypair
     ∧ LogError "Failed to load ZMQ secret key. Generating new pair."
         ∈ logged out
     ∧ LogInfo "Generating new ZMQ Curve key pair." ∈ logged out
     ∧ (∀ fs', write_file fs zmq_secret_key_file curve_keypair.2 = Some fs' →
          files (disk out) !! zmq_secret_key_file
          = files fs' !! zmq_secret_key_file)).
Proof.
  intros Hex. unfold load_or_generate_curve_keys. rewrite Hex. split.
  - intros sk pk Hread Hpub. by rewrite Hread, Hpub.
  - intros Hbad.
    set (log := [LogInfo "Loading existing ZMQ secret key from file."] ++
                [LogError "Failed to load ZMQ secret key. Generating new pair."]).
    assert (Hgen :
      match read_file fs zmq_secret_key_file with
      | Some secret_key =>
          match curve_public secret_key with
          | Some public_key =>
              {| zmq_public_key := public_key; zmq_secret_key := secret_key;
                 disk := fs;
                 logged := [LogInfo "Loading existing ZMQ secret key from file."] |}
          | None => generate_curve_keys curve_keypair fs log
          end
      | None => generate_curve_keys curve_keypair fs log
      end = generate_curve_keys curve_keypair fs log).
    { destruct (read_file fs zmq_secret_key_file) as [sk|]; [|done].
      cbn in Hbad. by rewrite Hbad. }
    subst log. rewrite Hgen.
    destruct (generate_curve_keys_spec fs
      ([LogInfo "Loading existing ZMQ secret key from file."] ++
       [LogError "Failed to load ZMQ secret key. Generating new pair."]))
      as (Hkeys & Hdisk & more & Hlog).
    split; [exact Hkeys|]. rewrite Hlog.
    split; [set_solver|]. split; [set_solver|]. exact Hdisk.
Qed.

End KeyMaterial.

Lemma load_or_generate_on_existing_file_witness :
  let out :=
    CaptureWorker.load_or_generate_curve_keys Scenario.sample_curve_public
      Scenario.fresh_pair Scenario.healthy_disk in
  CaptureWorker.zmq_secret_key out = Scenario.stored_secret
  ∧ CaptureWorker.disk out = Scenario.healthy_disk.
Proof.
  destruct (load_or_generate_on_existing_file Scenario.sample_curve_public
              Scenario.fresh_pair Scenario.healthy_disk eq_refl) as [Hload _].
  destruct (Hload Scenario.stored_secret
              (String.append "pub-of-" Scenario.stored_secret)
              eq_refl eq_refl) as (Hsk & _ & Hdisk & _).
  split; [exact Hsk | exact Hdisk].
Defined.

(** C2 as stated fails: a key file that exists but holds a truncated key
    is not reported to the caller; the call returns normally with the
    freshly generated pair, and the stored secret key has been overwritten
    by the new one. *)
Lemma corrupt_key_file_is_regenerated :
  let out :=
    CaptureWorker.load_or_generate_curve_keys Scenario.sample_curve_public
      Scenario.fresh_pair Scenario.corrupt_disk in
  CaptureWorker.read_file Scenario.corrupt_disk
    CaptureWorker.zmq_secret_key_file = Some "01234"
  ∧ Scenario.sample_curve_public "01234" = None
  ∧ (CaptureWorker.zmq_public_key out, CaptureWorker.zmq_secret_key out)
    = Scenario.fresh_pair
  ∧ CaptureWorker.read_file (CaptureWorker.disk out)
      CaptureWorker.zmq_secret_key_file = Some Scenario.fresh_pair.2.
Proof. cbv zeta. repeat split; vm_compute; reflexivity. Qed.

(** ** Control channel: liveness records *)

Section Liveness.
Import ConnectionChecker.

Lemma expired_spec (now t : Q) :
  expired now t = true ↔ (liveness_threshold < now - t)%Q.
Proof.
  unfold expired. rewrite negb_true_iff, <- not_true_iff_false, Qle_bool_iff.
  split; [apply Qnot_le_lt | apply Qlt_not_le].
Qed.

(** Deleting a list of addresses, one after the other. *)
Lemma remove_clients_spec (ks : list addr) : ∀ s,
  let s' := foldl (λ s a, remove_client a s) s ks in
  running s' = running s
  ∧ (∀ k, clients s' !! k = if decide (k ∈ ks) then None else clients s !! k)
  ∧ (∀ k, client_sockets s' !! k
          = if decide (k ∈ ks) then None else client_sockets s !! k).
Proof.
  assert (Hcons : ∀ (V : Type) (m : gmap addr V) (a k : addr) (l : list addr),
    (if decide (k ∈ l) then None else delete a m !! k)
    = (if decide (k ∈ a :: l) then None else m !! k)).
  { intros V m a k l. destruct (decide (k = a)) as [->|Hne].
    - rewrite lookup_delete_eq, (decide_True (P := a ∈ a :: l)).
      + by destruct (decide (a ∈ l)).
      + apply elem_of_cons. by left.
    - rewrite lookup_delete_ne by done. apply decide_ext.
      rewrite elem_of_cons. tauto. }
  induction ks as [|a ks IH]; intros s; cbn [foldl].
  - repeat split; intros k; rewrite decide_False; auto using not_elem_of_nil.
  - destruct (IH (remove_client a s)) as (Hrun & Hcl & Hso).
    split; [exact Hrun|]. split; intros k.
    + rewrite Hcl. apply Hcons.
    + rewrite Hso. apply Hcons.
Qed.

Lemma elem_of_expired_addrs (now : Q) (s : checker) (k : addr) :
  k ∈ expired_addrs now s ↔ ∃ t, clients s !! k = Some t ∧ expired now t = true.
Proof.
  unfold expired_addrs. rewrite list_elem_of_fmap. split.
  - intros ([k' t] & -> & Hin). apply list_elem_of_filter in Hin as [Hexp Hin].
    apply elem_of_map_to_list in Hin. exists t. split; [done|].
    by apply Is_true_true.
  - intros (t & Hk & Hexp). exists (k, t). split; [done|].
    apply list_elem_of_filter. split; [by apply Is_true_true|].
    by apply elem_of_map_to_list.
Qed.

(** The loop of [get_connected_count] leaves exactly the records that are
    not older than the threshold. *)
Lemma get_connected_count_clients (now : Q) (s : checker) :
  clients (get_connected_count now s).2 = unexpired_records now (clients s).
Proof.
  unfold get_connected_count, unexpired_records. cbn [snd].
  destruct (remove_clients_spec (expired_addrs now s) s) as (_ & Hcl & _).
  apply map_eq. intros k. rewrite Hcl.
  destruct (decide (k ∈ expired_addrs now s)) as [Hin|Hout].
  - apply elem_of_expired_addrs in Hin as (t & Hk & Hexp).
    symmetry. apply map_lookup_filter_None. right. intros t' Hk' Hlive.
    rewrite Hk in Hk'. injection Hk' as <-. cbn in Hlive.
    apply Hlive. by apply Is_true_true.
  - destruct (clients s !! k) as [t|] eqn:Hk.
    + symmetry. apply map_lookup_filter_Some. split; [done|]. cbn.
      intros Hexp%Is_true_true. apply Hout, elem_of_expired_addrs. eauto.
    + symmetry. apply map_lookup_filter_None. by left.
Qed.

(** C4.  [get_connected_count] leaves exactly the records whose last
    heartbeat is not more than 8 s old and returns how many they are; a
    record within the threshold stays as it is; when one record alone has
    timed out, that record alone is deleted and the value returned is one
    less than the number of records before. *)
Theorem get_connected_count_prunes_expired (now : Q) (s : checker) :
  let n := (get_connected_count now s).1 in
  let s' := (get_connected_count now s).2 in
  clients s' = unexpired_records now (clients s)
  ∧ n = size (clients s')
  ∧ (∀ t, expired now t = true ↔ (8 < now - t)%Q)
  ∧ (∀ a t, clients s !! a = Some t → expired now t = false →
       clients s' !! a = Some t)
  ∧ (∀ a t, clients s !! a = Some t → expired now t = true →
       clients s' !! a = None)
  ∧ (∀ a t, clients s !! a = Some t → expired now t = true →
       (∀ b u, b ≠ a → clients s !! b = Some u → expired now u = false) →
       clients s' = delete a (clients s) ∧ S n = size (clients s)).
Proof.
  cbv zeta. pose proof (get_connected_count_clients now s) as Hcl.
  split; [exact Hcl|]. split; [reflexivity|].
  split; [intros t; apply expired_spec|].
  assert (Hkeep : ∀ a t, clients s !! a = Some t → expired now t = false →
            clients (get_connected_count now s).2 !! a = Some t).
  { intros a t Ha Hlive. rewrite Hcl. apply map_lookup_filter_Some.
    split; [done|]. cbn. rewrite Hlive. exact id. }
  assert (Hdrop : ∀ a t, clients s !! a = Some t → expired now t = true →
            clients (get_connected_count now s).2 !! a = None).
  { intros a t Ha Hexp. rewrite Hcl. apply map_lookup_filter_None. right.
    intros t' Ha' Hlive. rewrite Ha in Ha'. injection Ha' as <-.
    cbn in Hlive. rewrite Hexp in Hlive. by apply Hlive. }
  split; [exact Hkeep|]. split; [exact Hdrop|].
  intros a t Ha Hexp Hothers.
  assert (Heq : clients (get_connected_count now s).2 = delete a (clients s)).
  { apply map_eq. intros k. destruct (decide (k = a)) as [->|Hne].
    - rewrite lookup_delete_eq. by eapply Hdrop.
    - rewrite lookup_delete_ne by done.
      destruct (clients s !! k) as [u|] eqn:Hk.
      + eapply Hkeep; [done|]. by eapply Hothers.
      + rewrite Hcl. apply map_lookup_filter_None. by left. }
  split; [exact Heq|].
  change (get_connected_count now s).1
    with (size (clients (get_connected_count now s).2)).
  rewrite Heq, map_size_delete, Ha. cbn.
  assert (size (clients s) ≠ 0); [|lia].
  apply map_size_non_empty_iff. intros Hempty. by rewrite Hempty in Ha.
Qed.

Lemma get_connected_count_prunes_expired_witness :
  clients (get_connected_count 10 Scenario.two_clients).2 !! Scenario.bob
    = Some (19 # 2)%Q
  ∧ clients (get_connected_count 10 Scenario.two_clients).2 !! Scenario.alice
    = None.
Proof.
  destruct (get_connected_count_prunes_expired 10 Scenario.two_clients)
    as (_ & _ & _ & Hkeep & Hdrop & _).
  split.
  - apply Hkeep; reflexivity.
  - apply (Hdrop Scenario.alice 1%Q); reflexivity.
Defined.

End Liveness.

(** ** Control channel: the heartbeat reader *)

Section HeartbeatReader.
Import ConnectionChecker.

(** A read failure or a timeout deletes the record and the socket entry,
    and the socket is closed. *)
Lemma read_failure_removes_record (a : addr) (c : conn) (now : Q)
    (r : recv_result) (w : world) :
  heartbeat_loop_test a (chk w) = true →
  r = RecvTimeout ∨ r = RecvError →
  heartbeat_check a c [(r, now)] w =
    Some {| chk := remove_client a (chk w); closed := closed w ∪ {[c]} |}.
Proof.
  intros Htest Hr. cbn [heartbeat_check]. rewrite Htest.
  apply andb_true_iff in Htest as [_ Hin].
  destruct Hr as [-> | ->]; cbn [heartbeat_body]; by rewrite Hin.
Qed.

(** C3, evaluated where it fails.  A reader whose client is recorded
    receives [data]: unless [data] is the heartbeat, the loop is left by
    its first [break], the socket is closed, and the checker is exactly
    as it was, the record of the client and its socket entry included. *)
Theorem unexpected_payload_leaves_record (a : addr) (c : conn) (t0 now : Q)
    (data : string) (m : gmap addr Q) (ms : gmap addr conn) (cl : gset conn) :
  let s := {| running := true; clients := <[a := t0]> m;
              client_sockets := <[a := c]> ms |} in
  heartbeat_check a c [(RecvData data, now)] {| chk := s; closed := cl |} =
    (if String.eqb data "hb" then None
     else Some {| chk := s; closed := cl ∪ {[c]} |})
  ∧ clients s !! a = Some t0
  ∧ client_sockets s !! a = Some c.
Proof.
  cbv zeta. split; [|cbn; split; apply lookup_insert_eq].
  cbn [heartbeat_check chk closed].
  assert (Htest : ∀ t, heartbeat_loop_test a
            {| running := true; clients := <[a := t]> m;
               client_sockets := <[a := c]> ms |} = true).
  { intros t. unfold heartbeat_loop_test. cbn.
    apply bool_decide_eq_true. rewrite lookup_insert_eq. by eexists. }
  rewrite Htest. cbn [heartbeat_body].
  destruct (String.eqb data "hb"); [|done].
  cbn [running clients client_sockets].
  rewrite insert_insert_eq. by rewrite Htest.
Qed.

End HeartbeatReader.

(** ** Control channel: the keys of the two maps *)

Section MapKeys.
Import ConnectionChecker.

Local Ltac keys :=
  unfold same_keys, sockets_within_records in *; cbn in *;
  rewrite ?dom_insert_L, ?dom_delete_L; set_solver.

#[local] Set Warnings "-clear-no-such-hyp".

Lemma accept_client_keys (a : addr) (c : conn) (now : Q) (s : checker) :
  (same_keys s → same_keys (accept_client a c now s))
  ∧ (sockets_within_records s → sockets_within_records (accept_client a c now s)).
Proof. split; intros H; keys. Qed.

Lemma remove_client_keys (a : addr) (s : checker) :
  (same_keys s → same_keys (remove_client a s))
  ∧ (sockets_within_records s → sockets_within_records (remove_client a s)).
Proof. split; intros H; keys. Qed.

Lemma get_connected_count_keys (now : Q) (s : checker) :
  (same_keys s → same_keys (get_connected_count now s).2)
  ∧ (sockets_within_records s →
     sockets_within_records (get_connected_count now s).2).
Proof.
  unfold get_connected_count. cbn [snd].
  generalize (expired_addrs now s) as ks. intros ks. revert s.
  induction ks as [|a ks IH]; intros s; cbn [foldl]; [done|].
  destruct (IH (remove_client a s)) as [IHs IHw].
  destruct (remove_client_keys a s) as [Hs Hw]. split; auto.
Qed.

(** The body of the reader's loop.  Only the refresh can add a key to
    one map alone, and only when the record is no longer there. *)
Lemma heartbeat_body_keys (a : addr) (r : recv_result) (now : Q) (s : checker) :
  (sockets_within_records s → sockets_within_records (heartbeat_body a r now s).1)
  ∧ (same_keys s →
     (r = RecvData "hb" → a ∈ dom (clients s)) →
     same_keys (heartbeat_body a r now s).1).
Proof.
  destruct r as [data| |]; cbn [heartbeat_body].
  - destruct (String.eqb data "hb") eqn:Hhb; cbn [fst]; [|done].
    apply String.eqb_eq in Hhb as ->. split; [intros H; keys|].
    intros H Hin. specialize (Hin eq_refl). keys.
  - destruct (bool_decide _); cbn [fst]; [|done].
    destruct (remove_client_keys a s). split; auto.
  - destruct (bool_decide _); cbn [fst]; [|done].
    destruct (remove_client_keys a s). split; auto.
Qed.

Lemma record_without_socket_breaks_same_keys (s : checker) (a : addr) (t : Q) :
  clients s !! a = Some t → client_sockets s !! a = None → ¬ same_keys s.
Proof.
  unfold same_keys. intros Hrec Hsock Heq.
  apply not_elem_of_dom in Hsock. apply Hsock. rewrite Heq.
  apply elem_of_dom. by eexists.
Qed.

Lemma step_within (e : event) (σ σ' : system) :
  step e σ = Some σ' →
  sockets_within_records (checker_of σ) →
  sockets_within_records (checker_of σ').
Proof.
  intros Hstep Hinv. destruct e; cbn [step] in Hstep;
    repeat case_match; simplify_eq; cbn [checker_of set_reader set_checker];
    try done;
    try (by apply accept_client_keys);
    try (by apply get_connected_count_keys).
  all: match goal with
       | H : heartbeat_body ?a ?r ?now ?s = _ |- _ =>
           pose proof (proj1 (heartbeat_body_keys a r now s) Hinv) as Hb;
           by rewrite H in Hb
       end.
Qed.

Lemma step_same_keys (e : event) (σ σ' : system) :
  step e σ = Some σ' →
  same_keys (checker_of σ) →
  (∀ c a pc now, e = Recv c (RecvData "hb") now →
     readers σ !! c = Some (a, pc) → a ∈ dom (clients (checker_of σ))) →
  same_keys (checker_of σ').
Proof.
  intros Hstep Hinv Hrec. destruct e; cbn [step] in Hstep;
    repeat case_match; simplify_eq; cbn [checker_of set_reader set_checker];
    try done;
    try (by apply accept_client_keys);
    try (by apply get_connected_count_keys).
  all: match goal with
       | H : heartbeat_body ?a ?r ?now ?s = _ |- _ =>
           pose proof (proj2 (heartbeat_body_keys a r now s) Hinv) as Hb;
           rewrite H in Hb; apply Hb
       end.
  all: intros ->; by eapply Hrec.
Qed.

Lemma run_within (events : list event) : ∀ σ σ',
  run events σ = Some σ' →
  sockets_within_records (checker_of σ) →
  sockets_within_records (checker_of σ').
Proof.
  induction events as [|e events IH]; intros σ σ' Hrun Hinv; cbn in Hrun.
  - by simplify_eq.
  - destruct (step e σ) as [σ1|] eqn:Hstep; [|done].
    eapply IH; [done|]. by eapply step_within.
Qed.

(** C10, as the code has it.  Whenever the lock is free, every key of
    [client_sockets] is a key of [clients].  The accept path, the failure
    path of the reader and the pruning keep the two key sets equal; so
    does every other step, except the refresh after a heartbeat when the
    record has been pruned since the reader tested for it. *)
Theorem socket_keys_stay_within_record_keys (events : list event) (σ : system) :
  run events initial_system = Some σ →
  sockets_within_records (checker_of σ)
  ∧ (∀ e σ', step e σ = Some σ' →
       same_keys (checker_of σ) →
       (∀ c a pc now, e = Recv c (RecvData "hb") now →
          readers σ !! c = Some (a, pc) → a ∈ dom (clients (checker_of σ))) →
       same_keys (checker_of σ')).
Proof.
  intros Hrun. split.
  - eapply run_within; [exact Hrun|].
    unfold sockets_within_records. cbn. set_solver.
  - intros e σ'. apply step_same_keys.
Qed.

End MapKeys.

Lemma socket_keys_stay_within_record_keys_witness :
  ConnectionChecker.sockets_within_records
    (ConnectionChecker.checker_of
       (default ConnectionChecker.initial_system
          (ConnectionChecker.run Scenario.late_handshake
             ConnectionChecker.initial_system))).
Proof.
  refine (proj1 (socket_keys_stay_within_record_keys Scenario.late_handshake _ _)).
  vm_compute. reflexivity.
Defined.

(** C10 as stated fails.  The handshake of [alice] arrives 4 s after her
    connection was accepted; her reader tests [addr in self.clients] and
    enters [recv]; at 8.5 s [get_connected_count] deletes her from both
    maps; at 8.8 s, still within the reader's 5 s timeout, her heartbeat
    arrives and the reader writes [self.clients[addr]].  When the lock is
    released she has a record and no socket entry. *)
Lemma late_heartbeat_revives_record_without_socket :
  ∃ σ,
    ConnectionChecker.run Scenario.late_handshake
      ConnectionChecker.initial_system = Some σ
    ∧ ConnectionChecker.clients (ConnectionChecker.checker_of σ)
        !! Scenario.alice = Some (44 # 5)%Q
    ∧ ConnectionChecker.client_sockets (ConnectionChecker.checker_of σ)
        !! Scenario.alice = None
    ∧ ¬ ConnectionChecker.same_keys (ConnectionChecker.checker_of σ).
Proof.
  eexists. split; [vm_compute; reflexivity|].
  split; [vm_compute; reflexivity|]. split; [vm_compute; reflexivity|].
  eapply (record_without_socket_breaks_same_keys _ Scenario.alice);
    vm_compute; reflexivity.
Qed.

(** ** Client: the receive and decode loop *)

Section Receive.
Import ZMQStreamService.

Lemma drain_well_formed (msgs : list (string * string)) :
  valid_tags msgs → ∀ received,
  drain (well_formed msgs) received =
    {| received_messages := received ++ msgs; zmq_reinit_needed := false;
       left_on_socket := [] |}.
Proof.
  induction 1 as [|[f d] msgs Hf Hmsgs IH]; intros received; cbn.
  - by rewrite app_nil_r.
  - fold (well_formed msgs). unfold bytes_decode. cbn in Hf. rewrite Hf.
    rewrite IH. by rewrite <- app_assoc.
Qed.

Lemma valid_tags_replicate (n : nat) (f d : string) :
  utf8_valid f = true → valid_tags (replicate n (f, d)).
Proof. intros Hf. unfold valid_tags. apply Forall_replicate. exact Hf. Qed.

(** C6, evaluated where it fails.  Whatever number of messages with
    decodable tags is waiting, one pass of the inner loop reads all of
    them before any is decoded: [batch_size] is assigned and never
    consulted.  With six messages waiting, six are read in one cycle. *)
Theorem drain_reads_every_waiting_message (msgs : list (string * string)) :
  valid_tags msgs →
  received_messages (drain (well_formed msgs) []) = msgs
  ∧ left_on_socket (drain (well_formed msgs) []) = []
  ∧ batch_size <
      length (received_messages
                (drain (well_formed (replicate (S batch_size) ("jpg", "")))
                       [])).
Proof.
  intros Hmsgs.
  rewrite (drain_well_formed msgs Hmsgs).
  rewrite (drain_well_formed (replicate (S batch_size) ("jpg", "")))
    by (by apply valid_tags_replicate).
  cbn [received_messages left_on_socket app].
  repeat split. rewrite length_replicate. lia.
Qed.

End Receive.

Lemma drain_reads_every_waiting_message_witness :
  ZMQStreamService.received_messages
    (ZMQStreamService.drain
       (ZMQStreamService.well_formed
          (replicate 6 ("jpg", EmptyString))) [])
  = replicate 6 ("jpg", EmptyString).
Proof.
  apply (drain_reads_every_waiting_message (replicate 6 ("jpg", EmptyString))).
  repeat constructor.
Defined.

(** ** Client: connect and disconnect *)

Section Session.
Import ZMQStreamService.

Context {pixmap : Type}.
Implicit Types (w : session pixmap) (env : environment) (t : option handle).

(** [_cleanup_zmq_resources] touches the three ZMQ attributes, the
    initialised flag and the closed sockets, and nothing else. *)
Lemma cleanup_zmq_frame env w :
  let w' := _cleanup_zmq_resources env w in
  emitted w' = emitted w ∧ alive w' = alive w ∧ ticking w' = ticking w
  ∧ created w' = created w
  ∧ tcp_socket (svc w') = tcp_socket (svc w)
  ∧ _running (svc w') = _running (svc w)
  ∧ tcp_thread (svc w') = tcp_thread (svc w)
  ∧ zmq_decode_thread (svc w') = zmq_decode_thread (svc w)
  ∧ stats_timer (svc w') = stats_timer (svc w).
Proof.
  unfold _cleanup_zmq_resources.
  destruct (zmq_sock (svc w)); destruct (zmq_close_ok env); cbn; done.
Qed.

Lemma cleanup_zmq_twice env w :
  _cleanup_zmq_resources env (_cleanup_zmq_resources env w)
  = _cleanup_zmq_resources env w.
Proof.
  destruct w as [[ts ctx sock pol run tc zi tt zt st] em al ti cl cr].
  unfold _cleanup_zmq_resources. cbn.
  destruct sock, ctx, (zmq_close_ok env) eqn:Hc, (zmq_term_ok env) eqn:Ht;
    cbn; rewrite ?Hc, ?Ht; reflexivity.
Qed.

(** A [join] changes the set of live threads and nothing else; joining
    again changes nothing. *)
Lemma join_frame env t w :
  svc (join env t w) = svc w ∧ emitted (join env t w) = emitted w
  ∧ ticking (join env t w) = ticking w ∧ closed (join env t w) = closed w
  ∧ created (join env t w) = created w
  ∧ alive (join env t w) ⊆ alive w.
Proof.
  unfold join. destruct t as [h|]; [|done].
  destruct (_ && _); cbn; repeat split; try done.
  apply subseteq_difference_l. done.
Qed.

Lemma join_noop env t w :
  (∀ h, t = Some h → join_ends env h = true → h ∉ alive w) →
  join env t w = w.
Proof.
  unfold join. destruct t as [h|]; [|done]. intros Hout.
  destruct (join_ends env h) eqn:Hends; [|by rewrite andb_false_r].
  by rewrite bool_decide_eq_false_2 by (by apply Hout).
Qed.

Lemma join_done env t w h :
  t = Some h → join_ends env h = true → h ∉ alive (join env t w).
Proof.
  intros -> Hends. unfold join. rewrite Hends, andb_true_r.
  destruct (bool_decide (h ∈ alive w)) eqn:Hin; cbn.
  - apply not_elem_of_difference. right. by apply elem_of_singleton.
  - by apply bool_decide_eq_false in Hin.
Qed.

Lemma join_again env t t' w :
  join env t (join env t' (join env t w)) = join env t' (join env t w).
Proof.
  apply join_noop. intros h Ht Hends Hin.
  apply (join_done env t w h Ht Hends).
  destruct (join_frame env t' (join env t w)) as (_ & _ & _ & _ & _ & Hsub).
  by apply Hsub.
Qed.

Lemma join_cleanup_zmq env t w :
  join env t (_cleanup_zmq_resources env w)
  = _cleanup_zmq_resources env (join env t w).
Proof.
  destruct w as [[ts ctx sock pol run tc zi tt zt st] em al ti cl cr].
  unfold join, _cleanup_zmq_resources. destruct t as [h|]; [|done]. cbn.
  destruct sock, ctx, (zmq_close_ok env), (zmq_term_ok env); cbn;
    destruct (_ && _); reflexivity.
Qed.

Lemma join_twice env t w : join env t (join env t w) = join env t w.
Proof. exact (join_again env t None w). Qed.

Lemma cleanup_unfold env w :
  _cleanup env w =
    _cleanup_zmq_resources env
      (join env (zmq_decode_thread (svc w)) (join env (tcp_thread (svc w)) w)).
Proof.
  unfold _cleanup. by destruct (join_frame env (tcp_thread (svc w)) w) as (-> & _).
Qed.

Lemma cleanup_threads env w :
  tcp_thread (svc (_cleanup env w)) = tcp_thread (svc w)
  ∧ zmq_decode_thread (svc (_cleanup env w)) = zmq_decode_thread (svc w).
Proof.
  rewrite cleanup_unfold.
  set (tt := tcp_thread (svc w)). set (zt := zmq_decode_thread (svc w)).
  destruct (cleanup_zmq_frame env (join env zt (join env tt w)))
    as (_ & _ & _ & _ & _ & _ & Htt & Hzt & _).
  cbv zeta in Htt, Hzt. rewrite Htt, Hzt.
  destruct (join_frame env zt (join env tt w)) as (-> & _).
  by destruct (join_frame env tt w) as (-> & _).
Qed.

Lemma cleanup_twice env w : _cleanup env (_cleanup env w) = _cleanup env w.
Proof.
  rewrite (cleanup_unfold env (_cleanup env w)).
  destruct (cleanup_threads env w) as [-> ->].
  rewrite (cleanup_unfold env w).
  set (tt := tcp_thread (svc w)). set (zt := zmq_decode_thread (svc w)).
  rewrite !join_cleanup_zmq, cleanup_zmq_twice.
  by rewrite !join_again.
Qed.

Lemma cleanup_emit env (sig : signal pixmap) w :
  _cleanup env (emit sig w) = emit sig (_cleanup env w).
Proof.
  destruct w as [[ts ctx sock pol run tc zi tt zt st] em al ti cl cr].
  unfold _cleanup, emit, join, _cleanup_zmq_resources. cbn.
  destruct tt as [h1|], zt as [h2|]; cbn;
    repeat (match goal with |- context [if ?b && ?c then _ else _] =>
              destruct (b && c); cbn end);
    destruct sock, ctx, (zmq_close_ok env), (zmq_term_ok env); reflexivity.
Qed.

Lemma cleanup_frame env w :
  emitted (_cleanup env w) = emitted w
  ∧ tcp_socket (svc (_cleanup env w)) = tcp_socket (svc w)
  ∧ _running (svc (_cleanup env w)) = _running (svc w)
  ∧ stats_timer (svc (_cleanup env w)) = stats_timer (svc w).
Proof.
  unfold _cleanup.
  destruct (cleanup_zmq_frame env
              (join env (zmq_decode_thread (svc (join env (tcp_thread (svc w)) w)))
                 (join env (tcp_thread (svc w)) w)))
    as (He & _ & _ & _ & Hts & Hrun & _ & _ & Hst).
  cbv zeta in *. rewrite He, Hts, Hrun, Hst.
  destruct (join_frame env (zmq_decode_thread (svc (join env (tcp_thread (svc w)) w)))
              (join env (tcp_thread (svc w)) w)) as (-> & -> & _).
  by destruct (join_frame env (tcp_thread (svc w)) w) as (-> & -> & _).
Qed.

(** On a session that is stopped already, [disconnect] is the clean-up
    and the one notification. *)
Lemma disconnect_stopped env w :
  stats_timer (svc w) = None → _running (svc w) = false →
  tcp_socket (svc w) = None →
  disconnect env w =
    _cleanup_and_notify env "Already disconnected" w.
Proof.
  destruct w as [[ts ctx sock pol run tc zi tt zt st] em al ti cl cr].
  cbn. intros -> -> ->. reflexivity.
Qed.

Lemma cleanup_zmq_clears env w :
  zmq_poller (svc (_cleanup_zmq_resources env w)) = None
  ∧ _zmq_initialized (svc (_cleanup_zmq_resources env w)) = false.
Proof.
  unfold _cleanup_zmq_resources.
  destruct (zmq_sock (svc w)); destruct (zmq_close_ok env); cbn; done.
Qed.

Lemma tcp_disconnect_frame w :
  emitted (_tcp_disconnect w) = emitted w
  ∧ _running (svc (_tcp_disconnect w)) = _running (svc w).
Proof.
  unfold _tcp_disconnect, _force_close_sockets.
  by destruct (tcp_socket (svc w)).
Qed.


(** After [connect] the session is flagged as running, whatever happened
    to the ZMQ resources. *)
Lemma connect_running env w : _running (svc (connect env w)) = true.
Proof.
  unfold connect. destruct (_running (svc w)) eqn:Hrun; [exact Hrun|].
  destruct (_initialize_zmq_resources env _) as [ok w1] eqn:Hinit.
  assert (Hrun1 : _running (svc w1) = true).
  { revert Hinit. unfold _initialize_zmq_resources. cbn.
    destruct (server_public_key env); [destruct (zmq_setup_ok env)|];
      intros [= <- <-]; try reflexivity;
      match goal with
      | |- context [_cleanup_zmq_resources env ?w'] =>
          destruct (cleanup_zmq_frame env w') as (_ & _ & _ & _ & _ & Hr & _);
          cbv zeta in Hr; by rewrite Hr
      end. }
  destruct ok; cbn [negb].
  - destruct w1 as [[ts ctx sock pol run tc zi tt zt st] em al ti cl cr].
    exact Hrun1.
  - unfold _cleanup_and_notify. cbn [emit svc].
    by destruct (cleanup_frame env w1) as (_ & _ & -> & _).
Qed.

(** C8.  While the session is running, [connect] returns it as it is: no
    object is created, no thread is started, no signal is emitted; and
    since [connect] always leaves the session running, calling it twice
    is the same as calling it once. *)
Theorem connect_while_running_is_noop env w :
  (_running (svc w) = true → connect env w = w)
  ∧ connect env (connect env w) = connect env w.
Proof.
  assert (Hnoop : ∀ w', _running (svc w') = true → connect env w' = w').
  { intros w' Hrun. unfold connect. by rewrite Hrun. }
  split; [apply Hnoop|]. apply Hnoop, connect_running.
Qed.

End Session.

Lemma connect_while_running_is_noop_witness :
  ZMQStreamService.connect Scenario.fair_weather Scenario.streaming
  = Scenario.streaming.
Proof.
  apply (proj1 (connect_while_running_is_noop Scenario.fair_weather
                  Scenario.streaming)).
  reflexivity.
Defined.


(** ** Client: the render buffer *)

Section RenderBuffer.
Import DesktopStreamPanel.

Context {pixmap : Type}.
Implicit Types (d : deque pixmap) (p : panel pixmap) (x : pixmap).

Lemma append_bounded x d :
  bounded d → bounded (append x d) ∧ maxlen (append x d) = maxlen d.
Proof.
  unfold bounded, append. intros Hb.
  destruct (Nat.eqb_spec (maxlen d) 0) as [H0|Hpos]; [done|].
  destruct (Nat.ltb_spec (length (items d)) (maxlen d)) as [Hlt|Hge]; cbn;
    rewrite length_app; cbn; [lia|].
  rewrite length_drop. lia.
Qed.

Lemma popleft_bounded d x rest :
  bounded d → popleft d = Some (x, rest) →
  bounded rest ∧ maxlen rest = maxlen d ∧ items d = x :: items rest.
Proof.
  unfold bounded, popleft. intros Hb.
  destruct (items d) as [|y ys] eqn:Hit; [done|].
  intros [= <- <-]. cbn in *. repeat split; lia.
Qed.

Lemma clear_bounded d : bounded (clear d) ∧ maxlen (clear d) = maxlen d.
Proof. unfold bounded, clear. cbn. split; [lia|done]. Qed.

Lemma act_bounded (a : action pixmap) p :
  bounded (render_buffer p) →
  bounded (render_buffer (act a p))
  ∧ maxlen (render_buffer (act a p)) = maxlen (render_buffer p).
Proof.
  intros Hb. destruct a as [| |x|]; cbn [act].
  - apply clear_bounded.
  - apply clear_bounded.
  - unfold on_decoded_pixmap. destruct (active p); [|done]. cbn.
    by apply append_bounded.
  - unfold render_frame. destruct (active p && render_timer p); [|done].
    destruct (1 <=? buf_len p); [|done]. cbn [render_buffer].
    destruct (popleft (render_buffer p)) as [[x rest]|] eqn:Hpop; [|done].
    cbn. destruct (popleft_bounded _ _ _ Hb Hpop) as (? & ? & _). done.
Qed.

Lemma history_bounded (actions : list (action pixmap)) :
  bounded (render_buffer (history actions))
  ∧ maxlen (render_buffer (history actions)) = DESKTOP_STREAM_BUFFER_SIZE.
Proof.
  unfold history.
  induction actions as [|a actions IH] using rev_ind.
  - cbn. unfold bounded. cbn. split; [lia|done].
  - rewrite foldl_app. cbn [foldl]. destruct IH as [Hb Hm].
    destruct (act_bounded a _ Hb) as [Hb' Hm']. split; [done|congruence].
Qed.


End RenderBuffer.



(** ** The definitions on small inputs *)

(** The first frame is a change and is sent; its repeats are held back. *)
Example detect_run_three_identical :
  CaptureWorker.detect_run [5; 5; 5]%Z CaptureWorker.initial_detector =
    ([true; false; false],
     {| CaptureWorker.last_frame_hash := Some 5%Z;
        CaptureWorker.frame_skip_count := 2 |}).
Proof. reflexivity. Qed.

(** Eleven identical frames: the first and the eleventh are sent. *)
Example detect_run_eleven_identical :
  (CaptureWorker.detect_run (replicate 11 5%Z) CaptureWorker.initial_detector).1
  = true :: replicate 9 false ++ [true].
Proof. reflexivity. Qed.

(** At 10 s [alice], last heard at 1 s, is pruned; [bob] is counted. *)
Example count_two_clients :
  (ConnectionChecker.get_connected_count 10 Scenario.two_clients).1 = 1.
Proof. vm_compute. reflexivity. Qed.

(** At 9 s nobody is older than 8 s. *)
Example count_two_clients_early :
  (ConnectionChecker.get_connected_count 9 Scenario.two_clients).1 = 2.
Proof. vm_compute. reflexivity. Qed.

(** Two heartbeats and then a timeout: the record of [alice] is deleted
    and her socket closed; [bob] is untouched. *)
Example heartbeat_then_timeout :
  (λ w, (ConnectionChecker.clients (ConnectionChecker.chk w) !! Scenario.alice,
         ConnectionChecker.clients (ConnectionChecker.chk w) !! Scenario.bob,
         bool_decide (7 ∈ ConnectionChecker.closed w)))
  <$> ConnectionChecker.heartbeat_check Scenario.alice 7
        [(ConnectionChecker.RecvData "hb", 2%Q);
         (ConnectionChecker.RecvData "hb", 3%Q);
         (ConnectionChecker.RecvTimeout, 8%Q)]
        {| ConnectionChecker.chk := Scenario.two_clients;
           ConnectionChecker.closed := ∅ |}
  = Some (None, Some (19 # 2)%Q, true).
Proof. vm_compute. reflexivity. Qed.

(** A first [connect] in good order creates six objects (context, socket,
    poller, two threads, timer) and announces that it is connecting. *)
Example first_connect :
  ZMQStreamService.created Scenario.streaming = 6
  ∧ ZMQStreamService.emitted Scenario.streaming =
    [ZMQStreamService.connection_status_changed false "Connecting..."].
Proof. split; vm_compute; reflexivity. Qed.

(** A tick takes the oldest picture; a tick on an empty buffer shows
    nothing new. *)
Example enter_decode_tick :
  let p := DesktopStreamPanel.history
             [DesktopStreamPanel.Enter; DesktopStreamPanel.Decoded 1;
              DesktopStreamPanel.Decoded 2; DesktopStreamPanel.Tick;
              DesktopStreamPanel.Tick; DesktopStreamPanel.Tick] in
  DesktopStreamPanel.video_label p = Some 2
  ∧ DesktopStreamPanel.rendered_frame_count p = 2
  ∧ DesktopStreamPanel.buffer_len_count p = 3.
Proof. cbv zeta. repeat split. Qed.

(* ===================================================================== *)
(** * Further properties of the code around the claims                   *)
(* ===================================================================== *)

(** ** The heartbeat reader, run on its own *)

Section ReaderAlone.
Import ConnectionChecker.

(** What one pass of the loop body leaves alone. *)
Lemma heartbeat_body_frame (a : addr) (r : recv_result) (now : Q) (s : checker) :
  running (heartbeat_body a r now s).1 = running s
  ∧ (∀ b, b ≠ a →
       clients (heartbeat_body a r now s).1 !! b = clients s !! b
       ∧ client_sockets (heartbeat_body a r now s).1 !! b = client_sockets s !! b).
Proof.
  destruct r as [data| |]; cbn [heartbeat_body].
  - destruct (String.eqb data "hb"); cbn; [|done].
    split; [done|]. intros b Hb. by rewrite lookup_insert_ne.
  - destruct (bool_decide _); cbn; [|done].
    split; [done|]. intros b Hb. by rewrite !lookup_delete_ne.
  - destruct (bool_decide _); cbn; [|done].
    split; [done|]. intros b Hb. by rewrite !lookup_delete_ne.
Qed.

Lemma heartbeat_check_frame (a : addr) (c : conn) (reads : list (recv_result * Q)) :
  ∀ w w', heartbeat_check a c reads w = Some w' →
  closed w' = closed w ∪ {[c]}
  ∧ running (chk w') = running (chk w)
  ∧ (∀ b, b ≠ a →
       clients (chk w') !! b = clients (chk w) !! b
       ∧ client_sockets (chk w') !! b = client_sockets (chk w) !! b).
Proof.
  induction reads as [|[r now] reads IH]; intros w w'; cbn [heartbeat_check];
    destruct (heartbeat_loop_test a (chk w)); try (intros [= <-]; by cbn);
    try done.
  destruct (heartbeat_body_frame a r now (chk w)) as [Hrun Hothers].
  destruct (heartbeat_body a r now (chk w)) as [s again]. cbn [fst] in *.
  destruct again.
  - intros Hrest. destruct (IH _ _ Hrest) as (Hcl & Hrun' & Hothers').
    cbn in *. split; [done|]. split; [congruence|].
    intros b Hb. destruct (Hothers b Hb) as [<- <-]. by apply Hothers'.
  - intros [= <-]. cbn. done.
Qed.

(** X1.  However the reader's loop ends, the socket it was given is
    closed, and no other socket is. *)
Theorem heartbeat_reader_closes_its_own_socket (a : addr) (c : conn)
    (reads : list (recv_result * Q)) (w w' : world) :
  heartbeat_check a c reads w = Some w' →
  closed w' = closed w ∪ {[c]}.
Proof. intros H. by destruct (heartbeat_check_frame a c reads w w' H). Qed.

Lemma heartbeat_reader_closes_its_own_socket_witness :
  closed
    (default {| chk := initial_checker; closed := ∅ |}
       (heartbeat_check Scenario.alice 7 [(RecvData "", 2%Q)]
          {| chk := Scenario.two_clients; closed := {[3]} |}))
  = {[3]} ∪ {[7]}.
Proof.
  refine (heartbeat_reader_closes_its_own_socket Scenario.alice 7
            [(RecvData "", 2%Q)]
            {| chk := Scenario.two_clients; closed := {[3]} |} _ _).
  vm_compute. reflexivity.
Defined.

(** X2.  The reader of one client never touches the record or the socket
    entry of another, nor the running flag. *)
Theorem heartbeat_reader_leaves_other_clients (a b : addr) (c : conn)
    (reads : list (recv_result * Q)) (w w' : world) :
  heartbeat_check a c reads w = Some w' →
  b ≠ a →
  clients (chk w') !! b = clients (chk w) !! b
  ∧ client_sockets (chk w') !! b = client_sockets (chk w) !! b
  ∧ running (chk w') = running (chk w).
Proof.
  intros H Hb. destruct (heartbeat_check_frame a c reads w w' H) as (_ & Hrun & Ho).
  destruct (Ho b Hb). done.
Qed.

Lemma heartbeat_reader_leaves_other_clients_witness :
  clients
    (chk (default {| chk := initial_checker; closed := ∅ |}
            (heartbeat_check Scenario.alice 7
               [(RecvData "hb", 2%Q); (RecvTimeout, 7%Q)]
               {| chk := Scenario.two_clients; closed := ∅ |})))
    !! Scenario.bob
  = clients Scenario.two_clients !! Scenario.bob.
Proof.
  refine (proj1 (heartbeat_reader_leaves_other_clients Scenario.alice
                   Scenario.bob 7 [(RecvData "hb", 2%Q); (RecvTimeout, 7%Q)]
                   {| chk := Scenario.two_clients; closed := ∅ |} _ _ _)).
  - vm_compute. reflexivity.
  - discriminate.
Defined.

(** Heartbeats keep the loop going and move the record's time. *)
Lemma heartbeat_check_beat (a : addr) (c : conn) (t : Q)
    (rest : list (recv_result * Q)) (w : world) :
  heartbeat_loop_test a (chk w) = true →
  heartbeat_check a c ((RecvData "hb", t) :: rest) w =
    heartbeat_check a c rest
      {| chk := {| running := running (chk w);
                   clients := <[a := t]> (clients (chk w));
                   client_sockets := client_sockets (chk w) |};
         closed := closed w |}.
Proof. intros Htest. cbn [heartbeat_check]. by rewrite Htest. Qed.

(** X3.  Any number of heartbeats followed by a read failure or a
    timeout: the loop ends, the client's record and socket entry are
    gone, and its socket is closed. *)
Theorem heartbeats_then_failure_remove_record (a : addr) (c : conn)
    (beats : list Q) (r : recv_result) (t : Q) (w : world) :
  running (chk w) = true →
  is_Some (clients (chk w) !! a) →
  r = RecvTimeout ∨ r = RecvError →
  ∃ w',
    heartbeat_check a c (((λ t, (RecvData "hb", t)) <$> beats) ++ [(r, t)]) w
    = Some w'
    ∧ clients (chk w') !! a = None
    ∧ client_sockets (chk w') !! a = None
    ∧ c ∈ closed w'.
Proof.
  revert w. induction beats as [|b beats IH]; intros w Hrun Hrec Hr.
  - assert (Htest : heartbeat_loop_test a (chk w) = true).
    { unfold heartbeat_loop_test. rewrite Hrun. by apply bool_decide_eq_true. }
    eexists. split; [by apply read_failure_removes_record|].
    cbn. rewrite !lookup_delete_eq. split; [done|]. split; [done|].
    apply elem_of_union_r. by apply elem_of_singleton.
  - assert (Htest : heartbeat_loop_test a (chk w) = true).
    { unfold heartbeat_loop_test. rewrite Hrun. by apply bool_decide_eq_true. }
    cbn [fmap list_fmap app]. rewrite heartbeat_check_beat by done.
    apply IH; cbn; [done| |done]. rewrite lookup_insert_eq. by eexists.
Qed.

Lemma heartbeats_then_failure_remove_record_witness :
  ∃ w',
    heartbeat_check Scenario.alice 7
      (((λ t, (RecvData "hb", t)) <$> [2%Q; 3%Q]) ++ [(RecvTimeout, 8%Q)])
      {| chk := Scenario.two_clients; closed := ∅ |} = Some w'
    ∧ clients (chk w') !! Scenario.alice = None
    ∧ client_sockets (chk w') !! Scenario.alice = None
    ∧ 7 ∈ closed w'.
Proof.
  apply (heartbeats_then_failure_remove_record Scenario.alice 7 [2%Q; 3%Q]
           RecvTimeout 8%Q {| chk := Scenario.two_clients; closed := ∅ |}).
  - reflexivity.
  - vm_compute. by eexists.
  - by left.
Defined.

End ReaderAlone.

(** ** Pruning, repeated *)

Section PruningAgain.
Import ConnectionChecker.

Lemma expired_later (now now' t : Q) :
  (now <= now')%Q → expired now t = true → expired now' t = true.
Proof.
  rewrite !expired_spec. intros Hle Hexp.
  eapply Qlt_le_trans; [exact Hexp|].
  apply Qplus_le_l. exact Hle.
Qed.

Lemma get_connected_count_sockets (now : Q) (s : checker) (a : addr) :
  client_sockets (get_connected_count now s).2 !! a =
    match clients s !! a with
    | Some t => if expired now t then None else client_sockets s !! a
    | None => client_sockets s !! a
    end.
Proof.
  unfold get_connected_count. cbn [snd].
  destruct (remove_clients_spec (expired_addrs now s) s) as (_ & _ & Hso).
  rewrite Hso. destruct (decide (a ∈ expired_addrs now s)) as [Hin|Hout].
  - apply elem_of_expired_addrs in Hin as (t & -> & ->). done.
  - destruct (clients s !! a) as [t|] eqn:Ha; [|done].
    destruct (expired now t) eqn:Hexp; [|done].
    exfalso. apply Hout, elem_of_expired_addrs. eauto.
Qed.

Lemma get_connected_count_running (now : Q) (s : checker) :
  running (get_connected_count now s).2 = running s.
Proof.
  unfold get_connected_count. cbn [snd].
  by destruct (remove_clients_spec (expired_addrs now s) s) as (-> & _).
Qed.

Lemma checker_eq (s1 s2 : checker) :
  running s1 = running s2 →
  (∀ a, clients s1 !! a = clients s2 !! a) →
  (∀ a, client_sockets s1 !! a = client_sockets s2 !! a) →
  s1 = s2.
Proof.
  destruct s1, s2. cbn. intros -> Hc Hs. f_equal; by apply map_eq.
Qed.

Lemma get_connected_count_lookup (now : Q) (s : checker) (a : addr) :
  clients (get_connected_count now s).2 !! a =
    match clients s !! a with
    | Some t => if expired now t then None else Some t
    | None => None
    end.
Proof.
  rewrite get_connected_count_clients. unfold unexpired_records.
  destruct (clients s !! a) as [t|] eqn:Ha.
  - destruct (expired now t) eqn:Hexp.
    + apply map_lookup_filter_None. right. intros t' Ha' Hlive.
      rewrite Ha in Ha'. injection Ha' as <-. cbn in Hlive.
      rewrite Hexp in Hlive. by apply Hlive.
    + apply map_lookup_filter_Some. split; [done|]. cbn. rewrite Hexp. exact id.
  - apply map_lookup_filter_None. by left.
Qed.

(** Pruning at [now] and then at a later [now'] leaves what pruning at
    [now'] alone leaves. *)
Lemma prune_then_prune_later (now now' : Q) (s : checker) :
  (now <= now')%Q →
  (get_connected_count now' (get_connected_count now s).2).2
  = (get_connected_count now' s).2.
Proof.
  intros Hle. apply checker_eq.
  - by rewrite !get_connected_count_running.
  - intros a. rewrite !get_connected_count_lookup.
    destruct (clients s !! a) as [t|]; [|done].
    destruct (expired now t) eqn:Hexp.
    + by rewrite (expired_later now now' t Hle Hexp).
    + done.
  - intros a. rewrite !get_connected_count_sockets, get_connected_count_lookup.
    destruct (clients s !! a) as [t|]; [|done].
    destruct (expired now t) eqn:Hexp.
    + by rewrite (expired_later now now' t Hle Hexp).
    + done.
Qed.

Lemma count_is_size (now : Q) (s : checker) :
  (get_connected_count now s).1 = size (clients (get_connected_count now s).2).
Proof. reflexivity. Qed.

Lemma unexpired_size_le (now : Q) (m : gmap addr Q) :
  size (unexpired_records now m) ≤ size m.
Proof.
  unfold unexpired_records. apply map_subseteq_size, map_filter_subseteq.
Qed.

(** X4.  Calling [get_connected_count] again at the same time changes
    nothing and returns the same number; calling it again later gives
    what a single call at the later time gives, and never a larger
    number. *)
Theorem pruning_again_is_pruning_once (now now' : Q) (s : checker) :
  (now <= now')%Q →
  get_connected_count now (get_connected_count now s).2 = get_connected_count now s
  ∧ get_connected_count now' (get_connected_count now s).2
    = get_connected_count now' s
  ∧ (get_connected_count now' s).1 ≤ (get_connected_count now s).1.
Proof.
  intros Hle.
  assert (Hpair : ∀ t t', (t <= t')%Q →
    get_connected_count t' (get_connected_count t s).2 = get_connected_count t' s).
  { intros t t' Htt'.
    rewrite (surjective_pairing (get_connected_count t' (get_connected_count t s).2)).
    rewrite (surjective_pairing (get_connected_count t' s)).
    rewrite !count_is_size. by rewrite prune_then_prune_later. }
  split; [apply Hpair, Qle_refl|]. split; [by apply Hpair|].
  rewrite <- (Hpair now now' Hle), !count_is_size.
  rewrite (get_connected_count_clients now' (get_connected_count now s).2).
  apply unexpired_size_le.
Qed.

Lemma pruning_again_is_pruning_once_witness :
  (get_connected_count 12 Scenario.two_clients).1
  ≤ (get_connected_count 10 Scenario.two_clients).1.
Proof.
  refine (proj2 (proj2 (pruning_again_is_pruning_once 10 12
                          Scenario.two_clients _))).
  vm_compute. discriminate.
Defined.

(** X5.  The socket entry of an address goes exactly when its record
    goes; entries of addresses that keep their record, or never had one,
    stay; the running flag is not touched and the number returned is not
    larger than the number of records before. *)
Theorem pruning_removes_socket_entries_with_records (now : Q) (s : checker) :
  (∀ a, client_sockets (get_connected_count now s).2 !! a =
          match clients s !! a with
          | Some t => if expired now t then None else client_sockets s !! a
          | None => client_sockets s !! a
          end)
  ∧ running (get_connected_count now s).2 = running s
  ∧ (get_connected_count now s).1 ≤ size (clients s).
Proof.
  split; [apply get_connected_count_sockets|].
  split; [apply get_connected_count_running|].
  rewrite count_is_size, get_connected_count_clients. apply unexpired_size_le.
Qed.

End PruningAgain.

(** ** The publish decision over many cycles *)

Section PublishDecision.
Import CaptureWorker.

(** After a cycle the detector remembers the frame it has just seen, and
    its streak is below the threshold. *)
Lemma detect_change_invariant (h : Z) (d : detector) :
  last_frame_hash (detect_change h d).2 = Some h
  ∧ frame_skip_count (detect_change h d).2 < forced_refresh_threshold.
Proof.
  unfold detect_change. destruct (decide (Some h = last_frame_hash d)) as [Heq|Hne].
  - cbn [frame_skip_count last_frame_hash].
    destruct (Nat.leb_spec forced_refresh_threshold (S (frame_skip_count d)));
      cbn; (split; [done|]); unfold forced_refresh_threshold in *; lia.
  - cbn. split; [done|]. unfold forced_refresh_threshold. lia.
Qed.

(** A run without any publish is a run of unchanged frames, each of which
    adds one to the streak. *)
Lemma silent_run_counts (hashes : list Z) : ∀ d,
  publishes (detect_run hashes d).1 = 0 →
  frame_skip_count (detect_run hashes d).2 = frame_skip_count d + length hashes
  ∧ (hashes ≠ [] →
     frame_skip_count (detect_run hashes d).2 < forced_refresh_threshold).
Proof.
  induction hashes as [|h hashes IH]; intros d; cbn [detect_run detect_cycle].
  - intros _. cbn. split; [lia|done].
  - pose proof (detect_change_invariant h d) as [_ Hlt].
    assert (Hstep : (detect_change h d).1 = false →
              frame_skip_count (detect_change h d).2 = S (frame_skip_count d)).
    { unfold detect_change.
      destruct (decide (Some h = last_frame_hash d)); cbn [frame_skip_count];
        [|done].
      by destruct (forced_refresh_threshold <=? S (frame_skip_count d)). }
    destruct (detect_change h d) as [b d1]. cbn [fst snd] in *.
    specialize (IH d1). destruct (detect_run hashes d1) as [bs d2].
    cbn [fst snd] in *. rewrite publishes_cons.
    destruct b; [cbn; lia|]. cbn. intros Hsilent.
    destruct (IH Hsilent) as [Hcount Hbelow]. rewrite Hcount, Hstep by done.
    split; [lia|]. intros _.
    destruct hashes as [|h' hashes']; [cbn in *; lia|].
    rewrite <- Hstep, <- Hcount by done. by apply Hbelow.
Qed.

(** X6.  Forced refresh bounds the wait: whatever the frames and whatever
    the state of the detector, ten consecutive cycles with publishing
    active contain at least one decision to publish. *)
Theorem ten_cycles_contain_a_publish (hashes : list Z) (d : detector) :
  length hashes = forced_refresh_threshold →
  1 ≤ publishes (detect_run hashes d).1.
Proof.
  intros Hlen.
  destruct (publishes (detect_run hashes d).1) as [|n] eqn:Hsilent; [|lia].
  destruct (silent_run_counts hashes d Hsilent) as [Hcount Hbelow].
  assert (hashes ≠ []) as Hne by (intros ->; discriminate Hlen).
  specialize (Hbelow Hne). lia.
Qed.

Lemma ten_cycles_contain_a_publish_witness :
  1 ≤ publishes
        (detect_run (replicate 10 4%Z)
           {| last_frame_hash := Some 4%Z; frame_skip_count := 3 |}).1.
Proof.
  apply (ten_cycles_contain_a_publish (replicate 10 4%Z)
           {| last_frame_hash := Some 4%Z; frame_skip_count := 3 |}).
  reflexivity.
Defined.

(** X7.  From the initial detector, and after any cycles whatever, the
    streak counter stays below 10, and once a frame has been seen with
    publishing active [last_frame_hash] is the hash of the latest such
    frame; a frame whose hash differs from it is always sent. *)
Theorem detector_invariant (cycles : list (bool * Z)) :
  let d := foldl (λ d c, (detect_cycle c.1 c.2 d).2) initial_detector cycles in
  frame_skip_count d < forced_refresh_threshold
  ∧ (∀ h, last (filter (λ c, c.1 = true) cycles) = Some (true, h) →
       last_frame_hash d = Some h)
  ∧ (∀ h, Some h ≠ last_frame_hash d → (detect_cycle true h d).1 = true).
Proof.
  cbv zeta. split; [|split].
  - induction cycles as [|[b h] cycles IH] using rev_ind.
    + cbn. unfold forced_refresh_threshold. lia.
    + rewrite foldl_app. cbn [foldl fst snd]. unfold detect_cycle at 1.
      destruct b; [apply detect_change_invariant | exact IH].
  - induction cycles as [|[b h'] cycles IH] using rev_ind; intros h.
    + done.
    + rewrite foldl_app, filter_app. cbn [foldl fst snd].
      unfold detect_cycle at 1. destruct b.
      * rewrite filter_cons_True by done. rewrite filter_nil, last_snoc.
        intros [= <-]. apply detect_change_invariant.
      * rewrite filter_cons_False by done. rewrite filter_nil, app_nil_r.
        apply IH.
  - intros h Hne. cbn [detect_cycle]. unfold detect_change.
    rewrite decide_False by done. reflexivity.
Qed.

End PublishDecision.

(** ** What a cycle hands to the socket *)

Section Published.
Import CaptureWorker.

Variable image : Type.
Variable resize : image → Z * Z → image.
Variable imencode : string → image → list (imwrite_flag * Z) → bool * string.
Variable tobytes_hash : image → Z.

(** X8.  With one of the three codecs configured, a cycle hands a
    message to the socket only if a client is connected, the message has
    exactly two parts, the first is the configured tag, and the second is
    what that codec's encoder returned, with success, for the frame
    resized to the target resolution. *)
Theorem published_message_is_tag_and_payload (cfg : config) (should_send : bool)
    (img : image) (d d' : detector) (msg : multipart) :
  supported_tag (encoding_format cfg) →
  publish_cycle image resize imencode tobytes_hash cfg should_send img d
    = (Some msg, d') →
  should_send = true
  ∧ (detect_change (tobytes_hash img) d) = (true, d')
  ∧ ∃ data,
      msg = [encoding_format cfg; data]
      ∧ imencode (String.append "." (encoding_format cfg))
          (resize img (target_resolution cfg)) (codec_parameter cfg)
        = (true, data).
Proof.
  intros Htag. unfold publish_cycle. destruct should_send; [|done].
  destruct (detect_change (tobytes_hash img) d) as [[] d1]; [|done].
  unfold encode_frame, encode, codec_parameter.
  destruct Htag as [Hf|[Hf|Hf]]; rewrite Hf; cbn;
    destruct (imencode _ _ _) as [[] data] eqn:He; intros [= <- <-];
    (split; [done|]); (split; [done|]); exists data; by rewrite <- He.
Qed.

End Published.

Lemma published_message_is_tag_and_payload_witness :
  let imencode := λ (ext : string) (img : string) (_ : list (CaptureWorker.imwrite_flag * Z)),
                    (true, String.append ext img) in
  ∃ data,
    ["jpg"; ".jpgframe"] = ["jpg"; data]
    ∧ imencode ".jpg" "frame" (CaptureWorker.codec_parameter CaptureWorker.DEFAULT_CONFIG)
      = (true, data).
Proof.
  cbv zeta.
  refine (proj2 (proj2 (published_message_is_tag_and_payload string
    (λ img _, img) (λ ext img _, (true, String.append ext img)) (λ _, 1%Z)
    CaptureWorker.DEFAULT_CONFIG true "frame" CaptureWorker.initial_detector
    {| CaptureWorker.last_frame_hash := Some 1%Z;
       CaptureWorker.frame_skip_count := 0 |}
    ["jpg"; ".jpgframe"] _ _))).
  - by left.
  - reflexivity.
Defined.

(** ** Key material, first start and second start *)

Section KeyRoundTrip.
Import CaptureWorker.

Variable curve_public : string → option string.

Lemma write_file_creates (fs : filesystem) (path data : string) :
  files fs !! path = None → can_create fs = true →
  write_file fs path data =
    Some {| files := <[path := {| content := data; readable := true;
                                  writable := true |}]> (files fs);
            can_create := true |}.
Proof. unfold write_file. by intros -> ->. Qed.

(** X9.  First start in a directory without key files where files can be
    created: the generated pair is returned and both files are written.
    Second start: the same secret key is read back, the public key is the
    one derived from it, nothing new is generated and the disk is left as
    it is. *)
Theorem generated_keys_are_loaded_back (fs : filesystem)
    (pair other_pair : string * string) :
  files fs !! zmq_secret_key_file = None →
  files fs !! zmq_public_key_file = None →
  can_create fs = true →
  curve_public pair.2 = Some pair.1 →
  let first := load_or_generate_curve_keys curve_public pair fs in
  let second := load_or_generate_curve_keys curve_public other_pair (disk first) in
  (zmq_public_key first, zmq_secret_key first) = pair
  ∧ read_file (disk first) zmq_secret_key_file = Some pair.2
  ∧ read_file (disk first) zmq_public_key_file = Some pair.1
  ∧ (zmq_public_key second, zmq_secret_key second) = pair
  ∧ disk second = disk first.
Proof.
  intros Hsec Hpub Hcreate Hderive. cbv zeta.
  destruct pair as [pk sk]. cbn [fst snd] in *.
  assert (Hfirst : load_or_generate_curve_keys curve_public (pk, sk) fs =
    {| zmq_public_key := pk; zmq_secret_key := sk;
       disk := {| files :=
                    <[zmq_public_key_file := {| content := pk; readable := true;
                                                writable := true |}]>
                      (<[zmq_secret_key_file := {| content := sk; readable := true;
                                                   writable := true |}]> (files fs));
                  can_create := true |};
       logged := [LogInfo "Generating new ZMQ Curve key pair.";
                  LogInfo "ZMQ secret key saved.";
                  LogInfo "ZMQ public key saved to server_public.key."] |}).
  { unfold load_or_generate_curve_keys, path_exists.
    rewrite bool_decide_eq_false_2 by (rewrite Hsec; by intros [? ?]).
    unfold generate_curve_keys.
    rewrite (write_file_creates fs zmq_secret_key_file sk) by done.
    rewrite write_file_creates; [done| |done].
    cbn. by rewrite lookup_insert_ne. }
  rewrite Hfirst. cbn [zmq_public_key zmq_secret_key disk].
  assert (Hread : read_file
            {| files :=
                 <[zmq_public_key_file := {| content := pk; readable := true;
                                             writable := true |}]>
                   (<[zmq_secret_key_file := {| content := sk; readable := true;
                                                writable := true |}]> (files fs));
               can_create := true |} zmq_secret_key_file = Some sk).
  { unfold read_file. cbn. rewrite lookup_insert_ne by done.
    by rewrite lookup_insert_eq. }
  split; [done|]. split; [exact Hread|]. split.
  { unfold read_file. cbn. by rewrite lookup_insert_eq. }
  unfold load_or_generate_curve_keys, path_exists.
  rewrite bool_decide_eq_true_2.
  - rewrite Hread, Hderive. done.
  - cbn. rewrite lookup_insert_ne by done. rewrite lookup_insert_eq. by eexists.
Qed.

(** X10.  In a directory where nothing can be written and no key file
    exists, the call still returns the generated pair; both failures to
    save are logged as errors and the disk is unchanged, so the next
    start generates again. *)
Theorem unsaved_keys_are_returned_and_logged (fs : filesystem)
    (pair : string * string) :
  files fs !! zmq_secret_key_file = None →
  files fs !! zmq_public_key_file = None →
  can_create fs = false →
  let out := load_or_generate_curve_keys curve_public pair fs in
  (zmq_public_key out, zmq_secret_key out) = pair
  ∧ disk out = fs
  ∧ logged out = [LogInfo "Generating new ZMQ Curve key pair.";
                  LogError "Failed to save ZMQ secret key";
                  LogError "Failed to save ZMQ public key"].
Proof.
  intros Hsec Hpub Hcreate. cbv zeta.
  unfold load_or_generate_curve_keys, path_exists.
  rewrite bool_decide_eq_false_2 by (rewrite Hsec; by intros [? ?]).
  assert (Hrefused : ∀ path data, files fs !! path = None →
            write_file fs path data = None).
  { intros path data Hnone. unfold write_file. by rewrite Hnone, Hcreate. }
  unfold generate_curve_keys. destruct pair as [pk sk].
  by rewrite !Hrefused.
Qed.

End KeyRoundTrip.

Lemma generated_keys_are_loaded_back_witness :
  let empty := {| CaptureWorker.files := ∅; CaptureWorker.can_create := true |} in
  let pair := (String.append "pub-of-" Scenario.stored_secret,
               Scenario.stored_secret) in
  let first :=
    CaptureWorker.load_or_generate_curve_keys Scenario.sample_curve_public
      pair empty in
  let second :=
    CaptureWorker.load_or_generate_curve_keys Scenario.sample_curve_public
      Scenario.fresh_pair (CaptureWorker.disk first) in
  (CaptureWorker.zmq_public_key second, CaptureWorker.zmq_secret_key second)
  = pair.
Proof.
  cbv zeta.
  refine (proj1 (proj2 (proj2 (proj2
    (generated_keys_are_loaded_back Scenario.sample_curve_public
       {| CaptureWorker.files := ∅; CaptureWorker.can_create := true |}
       (String.append "pub-of-" Scenario.stored_secret, Scenario.stored_secret)
       Scenario.fresh_pair _ _ _ _))))); reflexivity.
Defined.

Lemma unsaved_keys_are_returned_and_logged_witness :
  CaptureWorker.disk
    (CaptureWorker.load_or_generate_curve_keys Scenario.sample_curve_public
       Scenario.fresh_pair
       {| CaptureWorker.files := ∅; CaptureWorker.can_create := false |})
  = {| CaptureWorker.files := ∅; CaptureWorker.can_create := false |}.
Proof.
  refine (proj1 (proj2
    (unsaved_keys_are_returned_and_logged Scenario.sample_curve_public
       {| CaptureWorker.files := ∅; CaptureWorker.can_create := false |}
       Scenario.fresh_pair _ _ _))); reflexivity.
Defined.

(** ** One pass of the receive and decode loop *)

Section ReceiveCycle.
Import ZMQStreamService.

Context {pixmap : Type}.
Variable decode : string → string → option pixmap.

Lemma drain_until (msgs : list (string * string)) (o : recv_outcome)
    (rest : list recv_outcome) :
  valid_tags msgs → ∀ received,
  drain (well_formed msgs ++ o :: rest) received =
    drain (o :: rest) (received ++ msgs).
Proof.
  induction 1 as [|[f d] msgs Hf Hmsgs IH]; intros received.
  - by rewrite app_nil_r.
  - cbn. fold (well_formed msgs). unfold bytes_decode. cbn in Hf. rewrite Hf.
    rewrite IH. by rewrite <- app_assoc.
Qed.

Lemma drain_breaks (o : recv_outcome) (rest : list recv_outcome)
    (received : list (string * string)) :
  breaks_batch o →
  drain (o :: rest) received =
    {| received_messages := received; zmq_reinit_needed := true;
       left_on_socket := rest |}.
Proof.
  intros [-> | [(parts & -> & Hlen) | (f & d & -> & Hf)]]; [done| |].
  - destruct parts as [|p1 [|p2 [|p3 parts]]]; cbn in *; done.
  - cbn. by rewrite Hf.
Qed.

(** X11.  When no read fails and every tag can be decoded, the pictures
    emitted by one pass are those of the messages read whose picture
    could be decoded, in the order of their arrival; a picture that
    cannot be decoded is dropped on its own; a [zmq.Again] ends the batch
    and keeps what was read. *)
Theorem decoded_frames_follow_arrival (msgs : list (string * string))
    (rest : list recv_outcome) :
  valid_tags msgs →
  (receive_decode_cycle decode (well_formed msgs)).1 = frames_of decode msgs
  ∧ (receive_decode_cycle decode (well_formed msgs ++ Again :: rest)).1
    = frames_of decode msgs
  ∧ left_on_socket
      (receive_decode_cycle decode (well_formed msgs ++ Again :: rest)).2 = rest
  ∧ length (frames_of decode msgs) ≤ length msgs
  ∧ (∀ more, frames_of decode (msgs ++ more) = frames_of decode msgs ++ frames_of decode more).
Proof.
  intros Hmsgs. unfold receive_decode_cycle.
  rewrite (drain_well_formed msgs Hmsgs), (drain_until msgs _ _ Hmsgs). cbn.
  repeat split.
  - unfold frames_of. clear Hmsgs.
    induction msgs as [|[f d] msgs IH]; cbn; [lia|].
    destruct (decode d f); cbn; lia.
  - intros more. unfold frames_of. apply omap_app.
Qed.

(** X12.  When a read fails in the middle of a batch, by an exception of
    the read, by a message that does not have two parts or by a tag that
    cannot be decoded, the messages read before it have been taken off
    the socket and none of them is decoded or emitted; the loop is
    flagged for re-initialisation. *)
Theorem failed_read_discards_the_batch (msgs : list (string * string))
    (o : recv_outcome) (rest : list recv_outcome) :
  valid_tags msgs →
  breaks_batch o →
  receive_decode_cycle decode (well_formed msgs ++ o :: rest) =
    ([], {| received_messages := msgs; zmq_reinit_needed := true;
            left_on_socket := rest |}).
Proof.
  intros Hmsgs Hbad. unfold receive_decode_cycle.
  by rewrite (drain_until msgs _ _ Hmsgs), drain_breaks.
Qed.

End ReceiveCycle.

Lemma decoded_frames_follow_arrival_witness :
  (ZMQStreamService.receive_decode_cycle
     (λ data _, if String.eqb data "b" then None else Some data)
     (ZMQStreamService.well_formed [("jpg", "a"); ("jpg", "b"); ("png", "c")])).1
  = [ZMQStreamService.frame_decoded "a"; ZMQStreamService.frame_decoded "c"].
Proof.
  apply (decoded_frames_follow_arrival
           (λ data _, if String.eqb data "b" then None else Some data)
           [("jpg", "a"); ("jpg", "b"); ("png", "c")] []).
  repeat constructor.
Defined.

Lemma failed_read_discards_the_batch_witness :
  ZMQStreamService.receive_decode_cycle (λ data _, Some data)
    (ZMQStreamService.well_formed [("jpg", "a"); ("jpg", "b")]
     ++ ZMQStreamService.Multipart [String (Ascii.ascii_of_nat 255) "pg"; "c"]
     :: [ZMQStreamService.Multipart ["jpg"; "d"]])
  = ([], {| ZMQStreamService.received_messages := [("jpg", "a"); ("jpg", "b")];
            ZMQStreamService.zmq_reinit_needed := true;
            ZMQStreamService.left_on_socket :=
              [ZMQStreamService.Multipart ["jpg"; "d"]] |}).
Proof.
  apply (failed_read_discards_the_batch (λ data _, Some data)
           [("jpg", "a"); ("jpg", "b")]
           (ZMQStreamService.Multipart [String (Ascii.ascii_of_nat 255) "pg"; "c"])
           [ZMQStreamService.Multipart ["jpg"; "d"]]).
  - repeat constructor.
  - right. right. exists (String (Ascii.ascii_of_nat 255) "pg"), "c".
    split; reflexivity.
Defined.

(** Tags that [decode()] accepts, and tags on which it raises: a stray
    continuation byte, an overlong form, a surrogate, a value above
    U+10FFFF, a sequence cut short. *)
Example tags_decoded_or_not :
  let bytes := λ l, String.string_of_list_ascii (Ascii.ascii_of_nat <$> l) in
  ZMQStreamService.bytes_decode "jpg" = Some "jpg"
  ∧ is_Some (ZMQStreamService.bytes_decode (bytes [195; 169]))
  ∧ is_Some (ZMQStreamService.bytes_decode (bytes [226; 130; 172]))
  ∧ is_Some (ZMQStreamService.bytes_decode (bytes [240; 159; 152; 128]))
  ∧ ZMQStreamService.bytes_decode (bytes [255]) = None
  ∧ ZMQStreamService.bytes_decode (bytes [128]) = None
  ∧ ZMQStreamService.bytes_decode (bytes [192; 128]) = None
  ∧ ZMQStreamService.bytes_decode (bytes [237; 160; 128]) = None
  ∧ ZMQStreamService.bytes_decode (bytes [244; 144; 128; 128]) = None
  ∧ ZMQStreamService.bytes_decode (bytes [226; 130]) = None.
Proof. cbv zeta. repeat split; vm_compute; (done || by eexists). Qed.

(** ** A connect that cannot set up its socket *)

Section ConnectFailure.
Import ZMQStreamService.

Context {pixmap : Type}.
Implicit Types (w : session pixmap) (env : environment).

Lemma cleanup_alive env w :
  alive (_cleanup env w) ⊆ alive w ∧ ticking (_cleanup env w) = ticking w
  ∧ created (_cleanup env w) = created w
  ∧ _zmq_initialized (svc (_cleanup env w)) = false.
Proof.
  rewrite cleanup_unfold.
  set (tt := tcp_thread (svc w)). set (zt := zmq_decode_thread (svc w)).
  destruct (cleanup_zmq_frame env (join env zt (join env tt w)))
    as (_ & Hal & Hti & Hcr & _).
  cbv zeta in Hal, Hti, Hcr. rewrite Hal, Hti, Hcr.
  destruct (join_frame env zt (join env tt w)) as (_ & _ & -> & _ & -> & H2).
  destruct (join_frame env tt w) as (_ & _ & -> & _ & -> & H1).
  split; [by etrans|]. split; [done|]. split; [done|].
  apply cleanup_zmq_clears.
Qed.

(** X13.  [connect] on a stopped session when the server's public key
    cannot be read, or the socket cannot be set up: two status signals
    are emitted, "Connecting..." and "ZMQ Init Error"; no thread and no
    timer is started; the session is nevertheless left flagged as
    running, so that a further [connect] does nothing. *)
Theorem failed_connect_leaves_session_running env w :
  _running (svc w) = false →
  server_public_key env = None ∨ zmq_setup_ok env = false →
  let w' := connect env w in
  emitted w' =
    emitted w ++ [connection_status_changed false "Connecting...";
                  connection_status_changed false "ZMQ Init Error"]
  ∧ tcp_thread (svc w') = tcp_thread (svc w)
  ∧ zmq_decode_thread (svc w') = zmq_decode_thread (svc w)
  ∧ stats_timer (svc w') = stats_timer (svc w)
  ∧ alive w' ⊆ alive w
  ∧ ticking w' = ticking w
  ∧ _zmq_initialized (svc w') = false
  ∧ _running (svc w') = true
  ∧ connect env w' = w'.
Proof.
  intros Hrun Hfail. cbv zeta.
  assert (Hshape : ∃ w0,
    connect env w = _cleanup_and_notify env "ZMQ Init Error" w0
    ∧ emitted w0 = emitted w ++ [connection_status_changed false "Connecting..."]
    ∧ tcp_thread (svc w0) = tcp_thread (svc w)
    ∧ zmq_decode_thread (svc w0) = zmq_decode_thread (svc w)
    ∧ stats_timer (svc w0) = stats_timer (svc w)
    ∧ alive w0 = alive w ∧ ticking w0 = ticking w).
  { unfold connect. rewrite Hrun. unfold _initialize_zmq_resources.
    destruct w as [[ts ctx sock pol run tc zi tt zt st] em al ti cl cr]. cbn.
    destruct Hfail as [-> | Hsetup].
    - cbn. eexists. split; [reflexivity|].
      unfold _cleanup_zmq_resources. cbn.
      destruct (zmq_close_ok env), (zmq_term_ok env); cbn; done.
    - destruct (server_public_key env); rewrite ?Hsetup; cbn;
        (eexists; split; [reflexivity|]);
        unfold _cleanup_zmq_resources; cbn;
        destruct (zmq_close_ok env), (zmq_term_ok env); cbn; done. }
  destruct Hshape as (w0 & Hc & Hem & Htt & Hzt & Hst & Hal & Hti).
  assert (Hstill : _running (svc (connect env w)) = true) by apply connect_running.
  rewrite Hc in *. unfold _cleanup_and_notify in *. cbn [emit svc emitted alive ticking] in *.
  destruct (cleanup_frame env w0) as (Hem' & _ & _ & Hst').
  destruct (cleanup_threads env w0) as [Htt' Hzt'].
  destruct (cleanup_alive env w0) as (Hal' & Hti' & _ & Hzi).
  rewrite Hem', Hem, Htt', Hzt', Hst', Hti', Hzi, Htt, Hzt, Hst, Hti, <- Hal.
  rewrite <- app_assoc. repeat (split; [done|]).
  unfold connect. cbn [svc emit]. by rewrite Hstill.
Qed.

End ConnectFailure.

Lemma failed_connect_leaves_session_running_witness :
  let env := {| ZMQStreamService.server_public_key := None;
                ZMQStreamService.zmq_setup_ok := true;
                ZMQStreamService.zmq_close_ok := true;
                ZMQStreamService.zmq_term_ok := true;
                ZMQStreamService.join_ends := λ _, true |} in
  ZMQStreamService.emitted
    (ZMQStreamService.connect env (@ZMQStreamService.new_session nat)) =
    [ZMQStreamService.connection_status_changed false "Connecting...";
     ZMQStreamService.connection_status_changed false "ZMQ Init Error"].
Proof.
  cbv zeta.
  refine (proj1 (failed_connect_leaves_session_running
    {| ZMQStreamService.server_public_key := None;
       ZMQStreamService.zmq_setup_ok := true;
       ZMQStreamService.zmq_close_ok := true;
       ZMQStreamService.zmq_term_ok := true;
       ZMQStreamService.join_ends := λ _, true |}
    (@ZMQStreamService.new_session nat) _ _)).
  - reflexivity.
  - by left.
Defined.

(** ** The panel: what is shown, and when *)

Section Shown.
Import DesktopStreamPanel.

Context {pixmap : Type}.
Implicit Types (p : panel pixmap) (x : pixmap) (a : action pixmap).

Lemma render_frame_buffer p :
  items (render_buffer (render_frame p)) =
    if active p && render_timer p
    then drop 1 (items (render_buffer p)) else items (render_buffer p).
Proof.
  unfold render_frame, buf_len, popleft.
  destruct (active p && render_timer p); [|done].
  cbn [render_buffer].
  destruct (items (render_buffer p)) eqn:Hit; cbn; rewrite ?Hit; reflexivity.
Qed.

Lemma append_sublist x (d : deque pixmap) :
  sublist (items (append x d)) (items d ++ [x]).
Proof.
  unfold append. destruct (maxlen d =? 0).
  - by apply sublist_inserts_r.
  - destruct (length (items d) <? maxlen d); cbn; [done|].
    apply sublist_app; [apply sublist_drop | done].
Qed.

Lemma shown_from_sublist (actions : list (action pixmap)) : ∀ p,
  sublist (shown_from actions p) (items (render_buffer p) ++ arrived actions).
Proof.
  induction actions as [|a actions IH]; intros p; cbn [shown_from];
    [apply sublist_nil_l|].
  specialize (IH (act a p)). destruct a as [| |x|]; cbn [shown_by act app].
  - cbn in IH. by apply sublist_inserts_l.
  - cbn in IH. by apply sublist_inserts_l.
  - change (arrived (Decoded x :: actions)) with (x :: arrived actions).
    etrans; [exact IH|]. cbn [act]. unfold on_decoded_pixmap.
    destruct (active p); cbn [render_buffer].
    + replace (items (render_buffer p) ++ x :: arrived actions)
        with ((items (render_buffer p) ++ [x]) ++ arrived actions)
        by (by rewrite <- app_assoc).
      apply sublist_app; [apply append_sublist | done].
    + apply sublist_app; [done|]. by apply sublist_cons.
  - change (arrived (Tick :: actions)) with (arrived actions).
    cbn [act] in IH. rewrite render_frame_buffer in IH.
    destruct (active p && render_timer p); [|exact IH].
    destruct (items (render_buffer p)) as [|y ys]; [exact IH|].
    cbn in *. by apply sublist_skip.
Qed.

(** X14.  Whatever the history, the pictures shown are pictures that
    arrived, each at most once and in the order of their arrival: the
    buffer may drop pictures, it never repeats or reorders them. *)
Theorem shown_frames_keep_arrival_order (actions : list (action pixmap)) :
  sublist (shown actions) (arrived actions).
Proof. exact (shown_from_sublist actions new_panel). Qed.

Lemma paced_from (xs : list pixmap) : ∀ p,
  active p = true → render_timer p = true →
  items (render_buffer p) = [] →
  maxlen (render_buffer p) = DESKTOP_STREAM_BUFFER_SIZE →
  shown_from (paced xs) p = xs
  ∧ items (render_buffer (foldl (λ p a, act a p) p (paced xs))) = []
  ∧ rendered_frame_count (foldl (λ p a, act a p) p (paced xs))
    = rendered_frame_count p + length xs
  ∧ video_label (foldl (λ p a, act a p) p (paced xs))
    = from_option Some (video_label p) (last xs).
Proof.
  induction xs as [|x xs IH]; intros p Hact Htim Hemp Hmax.
  - cbn. rewrite Hemp. repeat split. lia.
  - change (paced (x :: xs)) with (Decoded x :: Tick :: paced xs).
    cbn [shown_from foldl shown_by act app].
    assert (Hdec : on_decoded_pixmap x p =
      {| active := true; render_buffer := {| items := [x]; maxlen := 2 |};
         render_timer := true; video_label := video_label p;
         rendered_frame_count := rendered_frame_count p;
         buffer_len_count := buffer_len_count p |}).
    { unfold on_decoded_pixmap, append. rewrite Hact, Hemp, Hmax, Htim. done. }
    rewrite Hdec. cbn.
    edestruct (IH {| active := true;
                     render_buffer := {| items := []; maxlen := 2 |};
                     render_timer := true; video_label := Some x;
                     rendered_frame_count := S (rendered_frame_count p);
                     buffer_len_count := buffer_len_count p + 1 |})
      as (Hs & Hb & Hc & Hv); try done.
    cbn in *. rewrite Hs, Hb, Hc, Hv. repeat split; [lia|].
    by destruct xs as [|y ys] using rev_ind; [|rewrite last_snoc, last_cons, last_snoc].
Qed.


(** X16.  On every history the timer of the pacer runs exactly while the
    panel is active, and an inactive panel holds no picture: a picture
    decoded then is dropped, and a tick changes nothing. *)
Theorem inactive_panel_holds_no_frames (actions : list (action pixmap)) :
  let p := history actions in
  render_timer p = active p
  ∧ (active p = false →
     items (render_buffer p) = []
     ∧ (∀ x, on_decoded_pixmap x p = p)
     ∧ render_frame p = p).
Proof.
  cbv zeta.
  assert (Hinv : render_timer (history actions) = active (history actions)
                 ∧ (active (history actions) = false →
                    items (render_buffer (history actions)) = [])).
  { unfold history. induction actions as [|a actions IH] using rev_ind;
      [done|].
    rewrite foldl_app. cbn [foldl]. destruct IH as [Ht Hb].
    set (p := foldl (λ p a, act a p) new_panel actions) in *.
    destruct a as [| |x|]; cbn [act]; try done.
    - unfold on_decoded_pixmap. destruct (active p) eqn:Ha; cbn; [done|].
      rewrite Ha. auto.
    - unfold render_frame, buf_len, popleft. rewrite Ht.
      destruct (active p) eqn:Ha; cbn.
      + destruct (items (render_buffer p)); cbn; rewrite ?Ht, ?Ha; done.
      + rewrite Ha. auto. }
  destruct Hinv as [Ht Hb]. split; [exact Ht|]. intros Ha.
  split; [by apply Hb|]. split.
  - intros x. unfold on_decoded_pixmap. by rewrite Ha.
  - unfold render_frame. by rewrite Ha.
Qed.

End Shown.

Lemma inactive_panel_holds_no_frames_witness :
  DesktopStreamPanel.items
    (DesktopStreamPanel.render_buffer
       (DesktopStreamPanel.history
          [DesktopStreamPanel.Enter; DesktopStreamPanel.Decoded 1;
           DesktopStreamPanel.Leave; DesktopStreamPanel.Decoded 2]))
  = [].
Proof.
  refine (proj1 (proj2 (inactive_panel_holds_no_frames
    [DesktopStreamPanel.Enter; DesktopStreamPanel.Decoded 1;
     DesktopStreamPanel.Leave; DesktopStreamPanel.Decoded 2]) _)).
  reflexivity.
Defined.

(** ** The mouse pointer *)

Section Pointer.
Import MouseCursor.
Local Open Scope Z_scope.

Variable image : Type.
Variable mean_above_128 : image → region → bool.
Variable fillPoly : image → list (Z * Z) → colour → image.
Variable polylines : image → list (Z * Z) → colour → image.

Lemma cursor_size_at_least_16 (w h : Z) : 16 ≤ cursor_size w h.
Proof. unfold cursor_size. lia. Qed.

Lemma pointer_is_drawn_only_inside_aux (img : image) (w h x y : Z) :
  let points := place x y (arrow (cursor_size w h)) in
  if out_of_bounds w h points
  then draw_mouse_cursor image mean_above_128 fillPoly polylines img w h x y = img
  else
    Forall (λ p, 0 ≤ p.1 < w ∧ 0 ≤ p.2 < h) points
    ∧ 8 ≤ x ∧ x + 8 < w ∧ 0 ≤ y ∧ y + 32 < h
    ∧ ∃ color border,
        draw_mouse_cursor image mean_above_128 fillPoly polylines img w h x y
        = polylines (fillPoly img points color) points border
        ∧ ((color = black ∧ border = white) ∨ (color = white ∧ border = black))
        ∧ (y = 0 → color = white).
Proof.
  cbv zeta. unfold draw_mouse_cursor.
  destruct (out_of_bounds w h (place x y (arrow (cursor_size w h)))) eqn:Hout;
    [done|].
  pose proof (cursor_size_at_least_16 w h) as Hcs.
  set (cs := cursor_size w h) in *.
  unfold out_of_bounds in Hout.
  apply orb_false_elim in Hout as [Hout Hymax].
  apply orb_false_elim in Hout as [Hout Hymin].
  apply orb_false_elim in Hout as [Hxmin Hxmax].
  apply Z.ltb_ge in Hxmin, Hymin. apply Z.leb_gt in Hxmax, Hymax.
  cbv [column_min column_max place arrow fmap list_fmap foldr head default
       fst snd] in Hxmin, Hxmax, Hymin, Hymax.
  repeat match goal with
         | H : _ ≤ Z.min _ _ |- _ => apply Z.min_glb_iff in H as [? H]
         | H : Z.max _ _ < _ |- _ => apply Z.max_lub_lt_iff in H as [? H]
         end.
  assert (Hpts : Forall (λ p, 0 ≤ p.1 < w ∧ 0 ≤ p.2 < h) (place x y (arrow cs))).
  { cbv [place arrow fmap list_fmap].
    repeat constructor; cbv [fst snd]; lia. }
  split; [exact Hpts|].
  assert (8 ≤ x ∧ x + 8 < w ∧ 0 ≤ y ∧ y + 32 < h) as (? & ? & ? & ?).
  { clear Hpts. Z.div_mod_to_equations. lia. }
  do 4 (split; [done|]).
  destruct (0 <? Z.min (cs * 3) (Z.min x (Z.min y (Z.min (w - x) (h - y)))))
    eqn:Hroi.
  - destruct (mean_above_128 img _).
    + exists black, white. split; [done|]. split; [by left|].
      intros ->. apply Z.ltb_lt in Hroi. lia.
    + exists white, black. split; [done|]. split; [by right|]. done.
  - exists white, black. split; [done|]. split; [by right|]. done.
Qed.


(** X17.  The pointer is drawn only when its whole outline lies inside
    the picture; otherwise the picture is returned as it came.  Hence a
    pointer nearer than 8 pixels to the left or right edge, or nearer
    than 33 pixels to the bottom edge, is not drawn.  When it is drawn it
    is filled black or white and outlined in the other of the two, and a
    pointer on the top row is always white. *)
Theorem pointer_is_drawn_only_inside (img : image) (w h x y : Z) :
  let points := place x y (arrow (cursor_size w h)) in
  if out_of_bounds w h points
  then draw_mouse_cursor image mean_above_128 fillPoly polylines img w h x y = img
  else
    Forall (λ p, 0 ≤ p.1 < w ∧ 0 ≤ p.2 < h) points
    ∧ 8 ≤ x ∧ x + 8 < w ∧ 0 ≤ y ∧ y + 32 < h
    ∧ ∃ color border,
        draw_mouse_cursor image mean_above_128 fillPoly polylines img w h x y
        = polylines (fillPoly img points color) points border
        ∧ ((color = black ∧ border = white) ∨ (color = white ∧ border = black))
        ∧ (y = 0 → color = white).
Proof. apply pointer_is_drawn_only_inside_aux. Qed.

(** X18.  In the capture loop the pointer is looked for only over the
    captured monitor; when the mouse is elsewhere the frame is left as
    captured. *)
Theorem pointer_outside_monitor_is_not_drawn (img : image)
    (w h mouse_x mouse_y : Z) :
  mouse_x < 0 ∨ w ≤ mouse_x ∨ mouse_y < 0 ∨ h ≤ mouse_y ∨ w ≤ 16 ∨ h ≤ 32 →
  draw_pointer_if_inside image mean_above_128 fillPoly polylines
    img w h mouse_x mouse_y = img.
Proof.
  intros Hout. unfold draw_pointer_if_inside.
  destruct ((0 <=? mouse_x) && (mouse_x <? w) && (0 <=? mouse_y) && (mouse_y <? h))
    eqn:Hin; [|done].
  pose proof (pointer_is_drawn_only_inside_aux img w h mouse_x mouse_y) as Haux.
  cbv zeta in Haux.
  apply andb_prop in Hin as [Hin Hy2]. apply andb_prop in Hin as [Hin Hy1].
  apply andb_prop in Hin as [Hx1 Hx2].
  apply Z.leb_le in Hx1, Hy1. apply Z.ltb_lt in Hx2, Hy2.
  destruct (out_of_bounds w h (place mouse_x mouse_y (arrow (cursor_size w h))));
    [exact Haux|].
  destruct Haux as (_ & ? & ? & ? & ? & _). lia.
Qed.

End Pointer.

Lemma pointer_outside_monitor_is_not_drawn_witness :
  MouseCursor.draw_pointer_if_inside string (λ _ _, true)
    (λ img _ _, String.append img "+fill") (λ img _ _, String.append img "+line")
    "frame" 1920 1080 1925 40
  = "frame".
Proof.
  apply (pointer_outside_monitor_is_not_drawn string (λ _ _, true)
           (λ img _ _, String.append img "+fill")
           (λ img _ _, String.append img "+line") "frame" 1920 1080 1925 40).
  right. left. lia.
Defined.

(** ** Black-screen detection *)

Section BlackCheck.
Import BlackScreen.

Variable pixelColor : nat → nat → nat * nat * nat.

Lemma scan_counts (required : nat) (todo : list (nat * nat)) : ∀ count,
  scan pixelColor required todo count =
    (required <=? count + length (filter (λ xy, Is_true (dark pixelColor xy)) todo)).
Proof.
  induction todo as [|xy todo IH]; intros count; cbn [scan].
  - cbn. by rewrite Nat.add_0_r.
  - destruct (dark pixelColor xy) eqn:Hd.
    + rewrite filter_cons_True by (by rewrite Hd). cbn [length].
      destruct (Nat.leb_spec required (S count)) as [Hle|Hgt].
      * symmetry. apply Nat.leb_le. lia.
      * rewrite IH. f_equal. lia.
    + rewrite filter_cons_False by (rewrite Hd; exact id).
      destruct (Nat.leb_spec required count) as [Hle|Hgt].
      * symmetry. apply Nat.leb_le. lia.
      * apply IH.
Qed.

(** X19.  The early return does not change the answer: a frame is judged
    black exactly when the dark samples of the whole grid number at least
    [required_pixels].  A frame narrower or lower than 8 pixels needs
    none and is always judged black; a 160 by 128 frame is judged black
    when 304 of its 320 samples are dark. *)
Theorem black_check_counts_the_whole_grid (width height : nat) :
  _check_if_frame_is_black pixelColor width height =
    (required_pixels width height <=? dark_samples pixelColor width height)
  ∧ (width < 8 ∨ height < 8 →
     _check_if_frame_is_black pixelColor width height = true)
  ∧ required_pixels 160 128 = 304
  ∧ length (samples 160 128) = 320.
Proof.
  assert (Hall : _check_if_frame_is_black pixelColor width height =
    (required_pixels width height <=? dark_samples pixelColor width height)).
  { unfold _check_if_frame_is_black. by rewrite scan_counts. }
  split; [exact Hall|]. split; [|split; reflexivity].
  intros Hsmall. rewrite Hall. apply Nat.leb_le.
  assert (required_pixels width height = 0) as ->; [|lia].
  unfold required_pixels, sample_step.
  destruct Hsmall as [Hw|Hh].
  - rewrite (Nat.div_small width 8) by lia. reflexivity.
  - rewrite (Nat.div_small height 8) by lia. by rewrite Nat.mul_0_r.
Qed.

End BlackCheck.

(** ** The backlight manager *)

Section Backlight.
Import BacklightManager.
Local Open Scope Z_scope.

Lemma handle_in_step (e : event) (m : manager) : in_step m → in_step (handle e m).
Proof.
  destruct m as [b ds it dt keep f wr]. unfold in_step. cbn.
  intros (-> & -> & Hb & Hkeep & Htimers).
  destruct e as [| | | | |v]; cbn;
    unfold reset_idle_timer, request_keep_screen_on, release_keep_screen_on,
      start_dimming, dim_step_down, restore_brightness, set_brightness,
      stop_dim_timer; cbn;
    repeat (case_match; cbn; try done);
    repeat split; try lia; try done; try (intros; by apply Hkeep);
    try (intros; by apply Htimers); try (by intros [= ?]);
    try (unfold BRIGHTNESS_START; lia).
Qed.

Lemma handle_file_in_range (file : option Z) (e : event) (m : manager) :
  file_in_range file m → file_in_range file (handle e m).
Proof.
  destruct m as [b ds it dt keep f wr]. unfold file_in_range. cbn.
  intros Hf.
  destruct e as [| | | | |v]; cbn;
    unfold reset_idle_timer, request_keep_screen_on, release_keep_screen_on,
      start_dimming, dim_step_down, restore_brightness, set_brightness,
      stop_dim_timer; cbn;
    repeat (case_match; cbn; try done);
    try (right; eexists; split; [reflexivity|]; unfold BRIGHTNESS_START; lia).
Qed.

(** The two invariants of a manager, over any events. *)
Lemma backlight_file_stays_in_range_aux (file : option Z) (writable : bool)
    (events : list event) :
  let m := after events (new_manager file writable) in
  file_in_range file m
  ∧ (writable = true → in_step m).
Proof.
  cbv zeta. split.
  - unfold after. induction events as [|e events IH] using rev_ind.
    + cbn. unfold new_manager, reset_idle_timer, restore_brightness,
        set_brightness, file_in_range. cbn. destruct writable; cbn.
      * right. eexists. split; [reflexivity|]. lia.
      * by left.
    + rewrite foldl_app. cbn [foldl]. by apply handle_file_in_range.
  - intros ->. unfold after. induction events as [|e events IH] using rev_ind.
    + cbn. unfold in_step. cbn. repeat split; try done; lia.
    + rewrite foldl_app. cbn [foldl]. by apply handle_in_step.
Qed.

(** X20.  Whatever happens to a manager, the only numbers it writes to
    the backlight file are between 1 and 19.  If the file can be written,
    then after any events the file holds exactly the manager's
    [brightness], which is between 1 and 19; while the screen is
    requested to stay on no timer of the manager runs, and the two timers
    never run together. *)
Theorem backlight_file_stays_in_range (file : option Z) (writable : bool)
    (events : list event) :
  let m := after events (new_manager file writable) in
  file_in_range file m
  ∧ (writable = true → in_step m).
Proof. apply backlight_file_stays_in_range_aux. Qed.

Lemma backlight_file_stays_in_range_witness :
  in_step (after [IdleTimeout; DimTick; SetBrightness 40; KeyPressed]
                 (new_manager None true)).
Proof.
  exact (proj2 (backlight_file_stays_in_range None true
                  [IdleTimeout; DimTick; SetBrightness 40; KeyPressed]) eq_refl).
Defined.

End Backlight.

Section Dimming.
Import BacklightManager.
Local Open Scope Z_scope.

Lemma dim_tick_steps (k : Z) :
  0 ≤ k ≤ BRIGHTNESS_STEPS →
  handle DimTick (dimmed k) = dimmed (Z.min BRIGHTNESS_STEPS (k + 1)).
Proof.
  unfold dimmed, handle. cbn [dim_timer].
  unfold BRIGHTNESS_STEPS, BRIGHTNESS_START, BRIGHTNESS_MIN. intros Hk.
  case_bool_decide as Hlt.
  - unfold dim_step_down, set_brightness, stop_dim_timer.
    cbn [_keep_screen_on_requested dim_step brightness file_writable snd
         idle_timer dim_timer backlight_file].
    unfold BRIGHTNESS_STEPS, BRIGHTNESS_START, BRIGHTNESS_MIN.
    destruct (Z.leb_spec (9 - 1) k); [lia|].
    cbn [_keep_screen_on_requested dim_step brightness file_writable snd
         idle_timer dim_timer backlight_file].
    replace (Z.min (9 - 1) (k + 1)) with (k + 1) by lia.
    replace (Z.max 1 (Z.min 19 (9 - k - 1))) with (9 - (k + 1)) by lia.
    destruct (Z.leb_spec (9 - (k + 1)) 1);
      cbn [_keep_screen_on_requested dim_step brightness file_writable
           idle_timer dim_timer backlight_file];
      [rewrite bool_decide_eq_false_2 by lia | rewrite bool_decide_eq_true_2 by lia];
      reflexivity.
  - assert (k = 8) as -> by lia. reflexivity.
Qed.

(** X21.  Left alone after the idle timer has fired, a fresh manager
    lowers the brightness by one at every tick of the dimming timer, from
    9 down to 1; the eighth tick stops the timer and later ticks change
    nothing. *)
Theorem dimming_goes_down_one_step_per_tick (file : option Z) (k : nat) :
  after (IdleTimeout :: replicate k DimTick) (new_manager file true)
  = dimmed (Z.min BRIGHTNESS_STEPS (Z.of_nat k)).
Proof.
  unfold after. induction k as [|k IH].
  - reflexivity.
  - rewrite replicate_S_end, app_comm_cons, foldl_app, IH. cbn [foldl].
    rewrite dim_tick_steps by (unfold BRIGHTNESS_STEPS, BRIGHTNESS_START,
                                      BRIGHTNESS_MIN; lia).
    f_equal. unfold BRIGHTNESS_STEPS, BRIGHTNESS_START, BRIGHTNESS_MIN. lia.
Qed.

End Dimming.

(** ** The stream panel and the backlight *)

Section StreamPanelBacklight.
Import BacklightManager StreamBacklight.
Local Open Scope Z_scope.

Lemma on_enter_watching (p : watcher) (m : manager) :
  backlight_mgr p = Some m → in_step m → watching (on_enter p).
Proof.
  intros Hm (Hw & Hf & _). unfold watching, on_enter. cbn. rewrite Hm. cbn.
  split; [done|]. split; [unfold BlackScreen.interval; lia|].
  eexists. split; [reflexivity|].
  destruct m as [b ds it dt keep f wr]. cbn in Hw, Hf. subst wr f.
  unfold request_keep_screen_on, restore_brightness, set_brightness. cbn.
  destruct (decide (b = BRIGHTNESS_START)) as [->|Hne]; cbn; done.
Qed.

Lemma happen_watching (h : happening) (p : watcher) :
  from_outside h = true → watching p → watching (happen h p).
Proof.
  intros Hout (Hact & Hcount & m & Hm & Hw & Hkeep & Hit & Hdt & Hb & Hf).
  destruct p as [act last counter mgr]. cbn in *. subst act mgr.
  destruct m as [b ds it dt keep f wr]. cbn in *. subst wr keep it dt f.
  unfold watching. destruct h as [black|e]; cbn [happen].
  - unfold on_decoded_pixmap.
    cbn [active _black_detection_frame_counter _last_black_screen_state
         backlight_mgr].
    destruct (Nat.leb_spec BlackScreen.interval (S counter)) as [Hfull|Hnot].
    + destruct black, last;
        cbn [active _black_detection_frame_counter _last_black_screen_state
             backlight_mgr eqb negb fmap option_fmap option_map];
        (split; [done|]);
        (split; [unfold BlackScreen.interval; lia|]);
        (eexists; split; [reflexivity|]);
        unfold request_keep_screen_on, restore_brightness, set_brightness; cbn;
        try case_decide; cbn; repeat split; try done.
    + cbn [active _black_detection_frame_counter _last_black_screen_state
           backlight_mgr].
      split; [done|]. split; [done|].
      eexists. split; [reflexivity|]. cbn. done.
  - cbn. split; [done|]. split; [done|].
    destruct e; try discriminate Hout; cbn;
      (eexists; split; [reflexivity|]); cbn; done.
Qed.

(** X22.  While the stream panel is shown, with a backlight whose file
    can be written: after any frames, key presses and timer events the
    brightness is 1 if the frame last checked was black and 9 otherwise,
    the screen stays requested on and no timer of the manager runs, so a
    key press does not undo the lowering; a frame is checked on every
    fifth arrival only.  Leaving the panel restores brightness 9 and
    starts the idle timer. *)
Theorem stream_panel_brightness_follows_black_frames (p0 : watcher)
    (m0 : manager) (happenings : list happening) :
  backlight_mgr p0 = Some m0 →
  in_step m0 →
  Forall (λ h, from_outside h = true) happenings →
  let p := foldl (λ p h, happen h p) (on_enter p0) happenings in
  watching p
  ∧ ∃ m', backlight_mgr (on_leave p) = Some m'
        ∧ brightness m' = BRIGHTNESS_START
        ∧ backlight_file m' = Some BRIGHTNESS_START
        ∧ _keep_screen_on_requested m' = false
        ∧ idle_timer m' = true ∧ dim_timer m' = false.
Proof.
  intros Hm Hw Hall. cbv zeta.
  assert (Hwatch : watching (foldl (λ p h, happen h p) (on_enter p0) happenings)).
  { induction happenings as [|h hs IH] using rev_ind.
    - by eapply on_enter_watching.
    - rewrite foldl_app. cbn [foldl].
      apply Forall_app in Hall as [Hhs Hh]. rewrite Forall_singleton in Hh.
      apply happen_watching; [exact Hh|]. by apply IH. }
  split; [exact Hwatch|].
  destruct Hwatch as (_ & _ & m & Hmgr & Hwr & Hkeep & Hit & Hdt & Hb & Hf).
  unfold on_leave. cbn. rewrite Hmgr. cbn. eexists. split; [reflexivity|].
  destruct m as [b ds it dt keep f wr]. cbn in *. subst wr keep it dt f.
  unfold release_keep_screen_on, reset_idle_timer, restore_brightness,
    set_brightness. cbn. case_decide; cbn; repeat split; try done.
  by f_equal.
Qed.

End StreamPanelBacklight.

Lemma stream_panel_brightness_follows_black_frames_witness :
  let p0 := {| StreamBacklight.active := false;
               StreamBacklight._last_black_screen_state := false;
               StreamBacklight._black_detection_frame_counter := 0;
               StreamBacklight.backlight_mgr :=
                 Some (BacklightManager.new_manager None true) |} in
  StreamBacklight.watching
    (foldl (λ p h, StreamBacklight.happen h p) (StreamBacklight.on_enter p0)
       (replicate 5 (StreamBacklight.Frame true)
        ++ [StreamBacklight.Manager BacklightManager.KeyPressed])).
Proof.
  cbv zeta.
  refine (proj1 (stream_panel_brightness_follows_black_frames
    {| StreamBacklight.active := false;
       StreamBacklight._last_black_screen_state := false;
       StreamBacklight._black_detection_frame_counter := 0;
       StreamBacklight.backlight_mgr :=
         Some (BacklightManager.new_manager None true) |}
    (BacklightManager.new_manager None true)
    (replicate 5 (StreamBacklight.Frame true)
     ++ [StreamBacklight.Manager BacklightManager.KeyPressed]) _ _ _)).
  - reflexivity.
  - exact (proj2 (backlight_file_stays_in_range_aux None true []) eq_refl).
  - repeat constructor.
Defined.

(** Five black frames bring the brightness to 1, and a key press leaves
    it there. *)
Example black_frames_lower_the_backlight :
  let p0 := {| StreamBacklight.active := false;
               StreamBacklight._last_black_screen_state := false;
               StreamBacklight._black_detection_frame_counter := 0;
               StreamBacklight.backlight_mgr :=
                 Some (BacklightManager.new_manager None true) |} in
  BacklightManager.brightness
  <$> StreamBacklight.backlight_mgr
        (foldl (λ p h, StreamBacklight.happen h p) (StreamBacklight.on_enter p0)
           (replicate 5 (StreamBacklight.Frame true)
            ++ [StreamBacklight.Manager BacklightManager.KeyPressed]))
  = Some 1%Z.
Proof. reflexivity. Qed.

(** ** Whether a cycle captures *)

Section CaptureOrSkip.
Import ConnectionChecker CaptureDecision.

Lemma counts_in_order (t1 t2 : Q) (s : checker) :
  (t1 <= t2)%Q →
  get_connected_count t2 (get_connected_count t1 s).2 = get_connected_count t2 s
  ∧ (get_connected_count t2 s).1 ≤ (get_connected_count t1 s).1.
Proof.
  intros Hle.
  assert (Hboth : get_connected_count t2 (get_connected_count t1 s).2
                  = get_connected_count t2 s).
  { rewrite (surjective_pairing
               (get_connected_count t2 (get_connected_count t1 s).2)).
    rewrite (surjective_pairing (get_connected_count t2 s)).
    rewrite !count_is_size. by rewrite prune_then_prune_later. }
  split; [done|].
  rewrite <- Hboth, !count_is_size.
  rewrite (get_connected_count_clients t2 (get_connected_count t1 s).2).
  apply unexpired_size_le.
Qed.

(** X23.  One cycle of the capture loop, whatever the checker's threads
    do between the two calls of [get_connected_count]: the checker is
    left as the second call leaves it; a frame is sent exactly when that
    call counts a client; a cycle that sends is never skipped; and the
    cycle is skipped exactly when capturing is not enabled and both calls
    count no client.  When nothing happens between the calls and the
    clock readings are in order, the checker is left as one pruning at
    the later time leaves it, a cycle that sends has [should_capture]
    set, and the cycle is skipped exactly when capturing is not enabled
    and no record is unexpired at the first reading. *)
Theorem cycle_is_skipped_only_without_viewers (st : capture_state)
    (config_monitor_idx : Z) (t1 t2 : Q) (between : list other_thread)
    (s : checker) :
  let first := if capture_enabled st then s else (get_connected_count t1 s).2 in
  let mid := foldl (λ s o, interleaved o s) first between in
  let d := (decide_cycle st config_monitor_idx t1 t2 between s).1 in
  (decide_cycle st config_monitor_idx t1 t2 between s).2
  = (get_connected_count t2 mid).2
  ∧ should_send d = (0 <? (get_connected_count t2 mid).1)
  ∧ (should_send d = true → skipped d = false)
  ∧ (skipped d = true ↔
     capture_enabled st = false ∧ (get_connected_count t1 s).1 = 0
     ∧ (get_connected_count t2 mid).1 = 0)
  ∧ (between = [] → (t1 <= t2)%Q →
     (decide_cycle st config_monitor_idx t1 t2 between s).2
     = (get_connected_count t2 s).2
     ∧ should_send d = (0 <? (get_connected_count t2 s).1)
     ∧ (should_send d = true → should_capture d = true)
     ∧ (skipped d = true ↔
        capture_enabled st = false ∧ (get_connected_count t1 s).1 = 0)).
Proof.
  cbv zeta. unfold decide_cycle.
  destruct (capture_enabled st) eqn:Hen.
  - set (mid := foldl _ s between).
    rewrite (surjective_pairing (get_connected_count t2 mid)).
    cbn [fst snd should_send should_capture skipped negb andb].
    split; [done|]. split; [done|]. split; [done|].
    split; [split; [done | by intros [? _]]|].
    intros -> _. subst mid. cbn [foldl].
    split; [done|]. split; [done|]. split; [done|].
    split; [done | by intros [? _]].
  - rewrite (surjective_pairing (get_connected_count t1 s)).
    match goal with
    | |- context [get_connected_count t2 ?m] =>
        rewrite (surjective_pairing (get_connected_count t2 m))
    end.
    cbn [fst snd should_send should_capture skipped].
    split; [done|]. split; [done|].
    split; [|split].
    + intros ->. by rewrite andb_false_r.
    + match goal with
      | |- context [(get_connected_count t2 ?m).1] =>
          generalize (get_connected_count t2 m).1
      end.
      generalize (get_connected_count t1 s).1. intros n1 n2.
      destruct (Nat.ltb_spec 0 n2) as [H2|H2];
        destruct (Nat.ltb_spec 0 n1) as [H1|H1]; cbn [negb andb];
        split; try done; try (intros (_ & ? & ?); lia).
      intros _. repeat split; (done || lia).
    + intros -> Hle. cbn [foldl].
      destruct (counts_in_order t1 t2 s Hle) as [Hboth Hmono].
      rewrite Hboth. revert Hmono.
      generalize (get_connected_count t2 s).1.
      generalize (get_connected_count t1 s).1. intros n1 n2 Hmono.
      split; [done|]. split; [done|].
      destruct (Nat.ltb_spec 0 n2) as [H2|H2];
        destruct (Nat.ltb_spec 0 n1) as [H1|H1]; cbn [negb andb];
        try lia; (split; [done|]); split; try done;
        try (intros [_ ?]; lia); try (intros _; split; [done | lia]).
Qed.

End CaptureOrSkip.

(** An accept between the two calls: the frame is sent, and captured,
    with [should_capture] unset. *)
Example accept_between_the_calls :
  let d := (CaptureDecision.decide_cycle
              {| CaptureDecision.capture_enabled := false;
                 CaptureDecision.current_monitor := None |}
              4 10 10
              [CaptureDecision.Accepts Scenario.alice 7 10]
              ConnectionChecker.initial_checker).1 in
  CaptureDecision.should_capture d = false
  ∧ CaptureDecision.should_send d = true
  ∧ CaptureDecision.skipped d = false.
Proof. vm_compute. done. Qed.

Lemma cycle_is_skipped_only_without_viewers_witness :
  CaptureDecision.should_send
    (CaptureDecision.decide_cycle
       {| CaptureDecision.capture_enabled := false;
          CaptureDecision.current_monitor := None |}
       4 10 10 [] Scenario.two_clients).1
  = (0 <? (ConnectionChecker.get_connected_count 10 Scenario.two_clients).1).
Proof.
  refine (proj1 (proj2 (proj2 (proj2 (proj2 (proj2
    (cycle_is_skipped_only_without_viewers
       {| CaptureDecision.capture_enabled := false;
          CaptureDecision.current_monitor := None |}
       4 10 10 [] Scenario.two_clients)))) eq_refl _))).
  vm_compute. discriminate.
Defined.

(** ** Switching panels *)

Section Switching.
Import PanelSwitch.
Local Open Scope Z_scope.

Context {pixmap : Type}.
Implicit Types (u : ui pixmap).

Lemma started_settled : settled (@started pixmap).
Proof. unfold settled. cbn. repeat split; (lia || done). Qed.

(** A switch lands on the panel next in the ring, whatever the state it
    starts from. *)
Lemma switch_panel_settled (direction : Z) u :
  0 ≤ current_index u < 3 →
  DesktopStreamPanel.active (desktop_panel u)
    = bool_decide (current_index u = PANEL_DESKTOP) →
  settled (_switch_panel direction u)
  ∧ target_panel_id (_switch_panel direction u)
    = (target_panel_id u + direction) mod 3.
Proof.
  intros Hidx Hact. unfold _switch_panel.
  pose proof (Z.mod_pos_bound (target_panel_id u + direction) 3 eq_refl) as Hnew.
  set (new := (target_panel_id u + direction) mod 3) in *.
  assert (new = 0 ∨ new = 1 ∨ new = 2) as Hcases by lia.
  assert (current_index u = 0 ∨ current_index u = 1 ∨ current_index u = 2)
    as Hold by lia.
  destruct u as [cs tp ci dp cl]. cbn [current_index desktop_panel] in *.
  unfold settled, switch_to_panel, state_of_panel.
  destruct Hcases as [-> | [-> | ->]]; destruct Hold as [-> | [-> | ->]];
    destruct cs; cbn in *; repeat split; try lia; try done.
Qed.

(** X24.  After any sequence of panel switches from the start of the
    application, the layout shows the panel the state manager aims at,
    one of the three; the state is that panel's own, whatever was going
    on before the switch; the desktop panel is active exactly while it is
    the panel shown; and the panel reached is the sum of the directions
    modulo 3, so that three steps one way, or one step each way, come
    back to the same panel. *)
Theorem panel_switches_keep_ui_settled (directions : list Z) :
  let u := foldl (λ u d, _switch_panel d u) (@started pixmap) directions in
  settled u
  ∧ target_panel_id u = foldr Z.add 0 directions mod 3.
Proof.
  cbv zeta. induction directions as [|d ds IH] using rev_ind.
  - split; [apply started_settled | reflexivity].
  - rewrite foldl_app. cbn [foldl]. destruct IH as [(Hr & Hi & Hs & Ha) Ht].
    set (u := foldl (λ u d, _switch_panel d u) started ds) in *.
    destruct (switch_panel_settled d u) as [Hsettled Htarget].
    + by rewrite Hi.
    + by rewrite Hi.
    + split; [exact Hsettled|]. rewrite Htarget, Ht, foldr_app. cbn [foldr].
      rewrite Z.add_0_r.
      assert (Hsum : ∀ l acc, foldr Z.add acc l = foldr Z.add 0 l + acc).
      { induction l as [|x l IHl]; intros acc; cbn; [lia|]. rewrite IHl. lia. }
      rewrite (Hsum ds d). by rewrite Z.add_mod_idemp_l.
Qed.

End Switching.

(** Down, down, up, starting from the monitor panel: the AI panel. *)
Example down_down_up :
  PanelSwitch.target_panel_id
    (foldl (λ u d, PanelSwitch._switch_panel d u) (@PanelSwitch.started nat)
       [1; 1; -1]%Z) = PanelSwitch.PANEL_AI.
Proof. reflexivity. Qed.

(** ** The receive loop as a whole *)

Section WholeLoop.
Import ZMQStreamService ReceiveLoop.

Context {pixmap : Type}.
Variable decode : string → string → option pixmap.
Implicit Types (w : session pixmap) (env : environment) (l : loop_state).

Lemma initialize_frame env w :
  emitted (_initialize_zmq_resources env w).2 = emitted w
  ∧ _running (svc (_initialize_zmq_resources env w).2) = _running (svc w)
  ∧ ((_initialize_zmq_resources env w).1 = false →
     _zmq_initialized (svc (_initialize_zmq_resources env w).2) = false)
  ∧ ((_initialize_zmq_resources env w).1 = true ↔
     is_Some (server_public_key env) ∧ zmq_setup_ok env = true).
Proof.
  destruct w as [[ts ctx sock pol run tc zi tt zt st] em al ti cl cr].
  unfold _initialize_zmq_resources, _cleanup_zmq_resources. cbn.
  destruct (server_public_key env) as [key|]; [destruct (zmq_setup_ok env)|];
    cbn; try destruct (zmq_close_ok env); try destruct (zmq_term_ok env); cbn;
    repeat split; try done; try (by intros [? ?]); try (by intros [[? ?] ?]);
    try (by eexists).
Qed.

Lemma frames_are_frames (msgs : list (string * string)) :
  Forall (λ sig, is_status sig = false) (frames_of decode msgs).
Proof.
  unfold frames_of. induction msgs as [|[f d] msgs IH]; cbn; [constructor|].
  destruct (decode d f); cbn; [constructor; done | done].
Qed.

Lemma cycle_frames (ready : list recv_outcome) :
  Forall (λ sig, is_status sig = false) (receive_decode_cycle decode ready).1.
Proof.
  unfold receive_decode_cycle. destruct (zmq_reinit_needed _); cbn;
    [constructor | apply frames_are_frames].
Qed.

Lemma pass_emits_frames env ready l w :
  ∃ frames,
    emitted (pass decode env ready l w).2 = emitted w ++ frames
    ∧ Forall (λ sig, is_status sig = false) frames
    ∧ frame_count (pass decode env ready l w).1.2 = frame_count l + length frames
    ∧ _running (svc (pass decode env ready l w).2) = _running (svc w).
Proof.
  unfold pass, locked_part. destruct (_running (svc w)) eqn:Hrun; cbn [negb].
  2:{ exists []. cbn. rewrite app_nil_r, Hrun. repeat split; (done || lia). }
  destruct (reinit_needed l).
  - destruct (initialize_frame env (_cleanup_zmq_resources env w))
      as (Hem & Hr & _).
    destruct (cleanup_zmq_frame env w) as (Hem' & _ & _ & _ & _ & Hr' & _).
    cbv zeta in Hem', Hr'.
    destruct (_initialize_zmq_resources env (_cleanup_zmq_resources env w))
      as [[] w1]; cbn [fst snd] in *; exists []; rewrite app_nil_r;
      (split; [congruence|]); (split; [apply Forall_nil_2|]);
      (split; [cbn; lia|]); congruence.
  - destruct (_ || _).
    + exists []. cbn. rewrite app_nil_r, Hrun. repeat split; (done || lia).
    + pose proof (cycle_frames ready) as Hframes.
      destruct (receive_decode_cycle decode ready) as [frames d].
      exists frames. cbn. done.
Qed.


(** X26.  A pass that finds the flag for re-initialisation set, while
    the key file cannot be read or the socket cannot be set up, leaves
    the loop for good: no signal is emitted, the socket is not
    initialised, and the session is still flagged as running. *)
Theorem failed_reinitialisation_ends_the_loop env ready
    (rest : list (environment * list recv_outcome)) l w :
  _running (svc w) = true →
  reinit_needed l = true →
  server_public_key env = None ∨ zmq_setup_ok env = false →
  let r := loop decode ((env, ready) :: rest) l w in
  r.1.1 = true
  ∧ emitted r.2 = emitted w
  ∧ _running (svc r.2) = true
  ∧ _zmq_initialized (svc r.2) = false
  ∧ frame_count r.1.2 = frame_count l.
Proof.
  intros Hrun Hflag Hfail. cbv zeta. cbn [loop]. unfold pass.
  rewrite Hrun, Hflag. cbn [negb].
  destruct (initialize_frame env (_cleanup_zmq_resources env w))
    as (Hem & Hr & Hzi & Hok).
  destruct (cleanup_zmq_frame env w) as (Hem' & _ & _ & _ & _ & Hr' & _).
  cbv zeta in Hem', Hr'.
  destruct (_initialize_zmq_resources env (_cleanup_zmq_resources env w))
    as [ok w1]; cbn [fst snd] in *.
  destruct ok.
  - exfalso. destruct (proj1 Hok eq_refl) as [[key Hkey] Hsetup].
    destruct Hfail as [Hnone | Hno]; congruence.
  - cbn. rewrite Hem, Hem', Hr, Hr', Hrun, Hzi by done. done.
Qed.

End WholeLoop.

Lemma failed_reinitialisation_ends_the_loop_witness :
  let env := {| ZMQStreamService.server_public_key := None;
                ZMQStreamService.zmq_setup_ok := true;
                ZMQStreamService.zmq_close_ok := true;
                ZMQStreamService.zmq_term_ok := true;
                ZMQStreamService.join_ends := λ _, true |} in
  ZMQStreamService._running
    (ZMQStreamService.svc
       (ReceiveLoop.loop (λ data _, Some (String.length data)) [(env, [])]
          {| ReceiveLoop.reinit_needed := true; ReceiveLoop.frame_count := 0 |}
          Scenario.streaming).2)
  = true.
Proof.
  cbv zeta.
  refine (proj1 (proj2 (proj2 (failed_reinitialisation_ends_the_loop
    (λ data _, Some (String.length data))
    {| ZMQStreamService.server_public_key := None;
       ZMQStreamService.zmq_setup_ok := true;
       ZMQStreamService.zmq_close_ok := true;
       ZMQStreamService.zmq_term_ok := true;
       ZMQStreamService.join_ends := λ _, true |}
    [] []
    {| ReceiveLoop.reinit_needed := true; ReceiveLoop.frame_count := 0 |}
    Scenario.streaming _ _ _)))).
  - reflexivity.
  - reflexivity.
  - by left.
Defined.

(** ** The entry for starting with the desktop session *)

Section AutostartEntry.
Import Autostart.
Local Open Scope N_scope.

Implicit Types (s t p : str) (m : machine) (d : desk).

Lemma lstrip_app q s t :
  lstrip q (s ++ t) = match lstrip q s with [] => lstrip q t | r => r ++ t end.
Proof.
  induction s as [|c s IH]; cbn; [by destruct (lstrip q t)|].
  destruct (c =? q); done.
Qed.

Lemma lstrip_head q s : head (lstrip q s) ≠ Some q.
Proof.
  induction s as [|c s IH]; cbn; [done|].
  destruct (N.eqb_spec c q); [done|]. cbn. congruence.
Qed.

Lemma lstrip_Forall (P : N → Prop) q s : Forall P s → Forall P (lstrip q s).
Proof.
  induction 1 as [|c s Hc Hs IH]; cbn; [constructor|].
  destruct (c =? q); [done | by constructor].
Qed.

Lemma rstrip_snoc q s c : c ≠ q → rstrip q (s ++ [c]) = s ++ [c].
Proof.
  intros Hc. unfold rstrip. rewrite reverse_snoc. cbn [lstrip].
  destruct (N.eqb_spec c q); [done|].
  by rewrite reverse_cons, reverse_involutive.
Qed.

Lemma word_nonspace s : Forall (λ c, isspace c = false) (word s).
Proof.
  induction s as [|c s IH]; cbn; [constructor|].
  destruct (isspace c) eqn:Hc; by constructor.
Qed.

Lemma first_word_nonspace s t :
  first_word s = Some t → Forall (λ c, isspace c = false) t.
Proof.
  unfold first_word. intros Ht.
  pose proof (word_nonspace (skip_spaces s)) as Hw.
  destruct (word (skip_spaces s)); by simplify_eq.
Qed.

Lemma first_word_None s :
  first_word s = None → Forall (λ c, isspace c = true) s.
Proof.
  unfold first_word. induction s as [|c s IH]; cbn; [constructor|].
  destruct (isspace c) eqn:Hc; [|by cbn; rewrite Hc].
  intros H. constructor; auto.
Qed.

Lemma word_app r c t :
  Forall (λ c, isspace c = false) r → isspace c = true →
  word (r ++ c :: t) = r.
Proof.
  intros Hr Hc. induction Hr as [|x r Hx Hr IH]; cbn; [by rewrite Hc|].
  by rewrite Hx, IH.
Qed.

(** The executable read back from a command line is never the path the
    command line was made from. *)
Lemma stored_exe_of_command p :
  ∃ stored_exe,
    first_word (strip quote (command p)) = Some stored_exe ∧ stored_exe ≠ p.
Proof.
  unfold strip, command. cbn [lstrip]. rewrite N.eqb_refl, lstrip_app.
  destruct (lstrip quote p) as [|x r] eqn:Hr.
  - exists (codes "--silent"). split; [by vm_compute|].
    intros <-. by vm_compute in Hr.
  - change (quote :: codes " --silent 5")
      with ((quote :: codes " --silent ") ++ [53]).
    rewrite app_assoc, rstrip_snoc by done. rewrite <- app_assoc.
    destruct (first_word ((x :: r) ++ (quote :: codes " --silent ") ++ [53]))
      as [stored_exe|] eqn:Hw.
    + exists stored_exe. split; [done|]. intros ->.
      pose proof (first_word_nonspace _ _ Hw) as Hp.
      pose proof (lstrip_Forall _ quote _ Hp) as Hxr. rewrite Hr in Hxr.
      assert (Forall (λ c, isspace c = false) ((x :: r) ++ [quote])) as Hq.
      { apply Forall_app. split; [done|]. by repeat constructor. }
      revert Hw. unfold first_word.
      change ((x :: r) ++ (quote :: codes " --silent ") ++ [53])
        with (x :: r ++ quote :: 32 :: codes "--silent 5").
      cbn [skip_spaces]. rewrite (Forall_inv Hxr).
      assert (word (x :: r ++ quote :: 32 :: codes "--silent 5")
              = (x :: r) ++ [quote]) as ->.
      { transitivity
          (word (((x :: r) ++ [quote]) ++ 32 :: codes "--silent 5"));
          [by rewrite <- app_assoc | by apply word_app]. }
      cbn [app]. intros Hp'. simplify_eq.
      cbn [lstrip] in Hr. destruct (N.eqb_spec x quote) as [->|Hx].
      * pose proof (lstrip_head quote (r ++ [quote])) as Hh.
        by rewrite Hr in Hh.
      * apply (f_equal length) in Hr. cbn in Hr.
        rewrite length_app in Hr. cbn in Hr. lia.
    + apply first_word_None, Forall_app in Hw as [_ Hw].
      by apply Forall_inv in Hw.
Qed.

(** X27.  The entry that [toggle_autostart] writes for an executable is
    never recognised by [validate_autostart_path] as naming that
    executable: the path read back keeps the closing double quote or
    stops at the first white space.  So when the entry already holds
    the command line of the running program, and the registry can be
    read and written and the program file exists, validation writes the
    same value again. *)
Theorem validation_rewrites_the_entry_it_wrote m d :
  key_readable m = true →
  key_writable m = true →
  path_exists m (get_current_exe_path m) = true →
  entry d = Some (command (get_current_exe_path m)) →
  validate_autostart_path m d
  = {| entry := Some (command (get_current_exe_path m));
       checkbox := checkbox d;
       set_values := set_values d ++ [command (get_current_exe_path m)] |}.
Proof.
  intros Hread Hwrite Hexists Hentry. unfold validate_autostart_path.
  rewrite Hread, Hentry. cbn [negb].
  destruct (stored_exe_of_command (get_current_exe_path m))
    as (stored_exe & -> & Hne).
  rewrite bool_decide_eq_false_2 by done. cbn [negb andb].
  by rewrite Hexists, Hwrite.
Qed.

Lemma setChecked_same m b d : checkbox d = b → setChecked m b d = d.
Proof. intros Hb. unfold setChecked. by rewrite bool_decide_eq_true_2. Qed.

Lemma validate_checkbox m d :
  checkbox (validate_autostart_path m d) = checkbox d.
Proof.
  unfold validate_autostart_path.
  repeat (case_match; try done).
Qed.

Lemma validate_entry_stays m d :
  is_Some (entry d) → is_Some (entry (validate_autostart_path m d)).
Proof.
  intros [v Hv]. unfold validate_autostart_path. rewrite Hv.
  repeat (case_match; try done); cbn; by rewrite ?Hv.
Qed.

(** X28.  A start of the program that is not packaged leaves no entry
    behind: whatever the registry held, after [check_autostart_status]
    the value is absent and the box is unchecked, provided the key can
    be opened for reading and writing. *)
Theorem unpackaged_start_removes_the_entry m d :
  frozen m = false →
  key_readable m = true →
  key_writable m = true →
  checkbox d = false →
  entry (check_autostart_status m d) = None
  ∧ checkbox (check_autostart_status m d) = false.
Proof.
  intros Hfrozen Hread Hwrite Hbox. unfold check_autostart_status.
  rewrite Hread, Hfrozen, Hwrite. cbn [negb].
  pose proof (validate_checkbox m d) as Hbox'. rewrite Hbox in Hbox'.
  destruct (entry (validate_autostart_path m d)) as [v|] eqn:Hv.
  - rewrite setChecked_same by done. done.
  - rewrite setChecked_same by done. done.
Qed.


End AutostartEntry.

Lemma validation_rewrites_the_entry_it_wrote_witness :
  Autostart.set_values
    (Autostart.validate_autostart_path Scenario.packaged
       (Scenario.fresh_desk
          (Some (Autostart.command (Autostart.executable Scenario.packaged)))))
  = [Autostart.command (Autostart.codes "C:\Tools\sender.exe")].
Proof.
  exact (f_equal Autostart.set_values
    (validation_rewrites_the_entry_it_wrote Scenario.packaged
       (Scenario.fresh_desk
          (Some (Autostart.command (Autostart.executable Scenario.packaged))))
       eq_refl eq_refl eq_refl eq_refl)).
Defined.

Lemma unpackaged_start_removes_the_entry_witness :
  Autostart.entry
    (Autostart.check_autostart_status Scenario.from_sources
       (Scenario.fresh_desk
          (Some (Autostart.codes "C:\Tools\sender.exe --silent 5"))))
  = None.
Proof.
  exact (proj1 (unpackaged_start_removes_the_entry Scenario.from_sources
    (Scenario.fresh_desk
       (Some (Autostart.codes "C:\Tools\sender.exe --silent 5")))
    eq_refl eq_refl eq_refl eq_refl)).
Defined.

